(** * iCalendar date-time values of caldav-go: [icalendar/values/datetime.go]

    A shallow embedding of the date-time codec (DateTime, DateTimeFullDay,
    DateTimes) together with the parts of Go's [time] package it calls
    (Format, ParseInLocation, Date, Location lookup, LoadLocation), and the
    properties of the codec stated in the specification. *)

From Stdlib Require Import ZArith Lia Ascii String List Bool.
From stdpp Require Import base list strings gmap pretty.

Local Open Scope Z_scope.

(* ================================================================== *)
(** ** Go strings: byte sequences *)
(* ================================================================== *)

Module GoString.

(** A Go string is a sequence of bytes; [len] counts bytes. *)
Definition len (s : string) : Z := Z.of_nat (String.length s).

Definition byteVal (c : ascii) : Z := Z.of_N (N_of_ascii c).

(** [s[n:]] *)
Fixpoint drop (n : nat) (s : string) : string :=
  match n, s with
  | O, _ => s
  | S k, String _ r => drop k r
  | S _, EmptyString => EmptyString
  end.

(** [s[:n]] *)
Fixpoint take (n : nat) (s : string) : string :=
  match n, s with
  | O, _ => EmptyString
  | S k, String c r => String c (take k r)
  | S _, EmptyString => EmptyString
  end.

(** [strings.HasPrefix] *)
Fixpoint HasPrefix (s prefix : string) : bool :=
  match prefix, s with
  | EmptyString, _ => true
  | String p pr, String c r => if ascii_dec c p then HasPrefix r pr else false
  | String _ _, EmptyString => false
  end.

(** [strings.HasSuffix(s, suffix)]:
    [len(s) >= len(suffix) && s[len(s)-len(suffix):] == suffix]. *)
Definition HasSuffix (s suffix : string) : bool :=
  (String.length suffix <=? String.length s)%nat
  && String.eqb (drop (String.length s - String.length suffix) s) suffix.

(** [strings.Repeat("0", n)] *)
Fixpoint zeros (n : nat) : string :=
  match n with
  | O => EmptyString
  | S k => String "0" (zeros k)
  end.

End GoString.

Import GoString.

(* ================================================================== *)
(** ** Decimal fields of [time]: appendInt, isDigit, getnum, atoi *)
(* ================================================================== *)

Definition isDigitChar (c : ascii) : bool :=
  (48 <=? byteVal c) && (byteVal c <=? 57).

(** [isDigit(s, i)]: [i] is in range and [s[i]] is a decimal digit. *)
Definition isDigit (s : string) (i : nat) : bool :=
  match String.get i s with
  | Some c => isDigitChar c
  | None => false
  end.

Definition digitChar (d : Z) : ascii := ascii_of_N (Z.to_N (48 + d)).

(** The digit loop of [appendInt]: the decimal form is assembled from the
    least significant digit in a 20-byte buffer, so at most 19 divisions
    are taken. *)
Fixpoint decimal (fuel : nat) (u : Z) (acc : string) : string :=
  match fuel with
  | O => String (digitChar u) acc
  | S f =>
      if 10 <=? u
      then decimal f (u / 10) (String (digitChar (u mod 10)) acc)
      else String (digitChar u) acc
  end.

(** [appendInt(b, x, width)]: the bytes appended to [b], the decimal form of
    [x], zero-padded to [width] digits after an optional minus sign. *)
Definition appendInt (x : Z) (width : nat) : string :=
  let sign := if x <? 0 then "-"%string else EmptyString in
  let u := if x <? 0 then - x else x in
  let ds := decimal 19 u EmptyString in
  sign +:+ zeros (width - String.length ds) +:+ ds.

(** [getnum(s, fixed)]: a one- or two-digit number; with [fixed] two digits
    are required. [None] is [errBad]. *)
Definition getnum (s : string) (fixed : bool) : option (Z * string) :=
  if negb (isDigit s 0) then None
  else if negb (isDigit s 1) then
    if fixed then None
    else match s with
         | String c r => Some (byteVal c - 48, r)
         | EmptyString => None
         end
  else match s with
       | String c0 (String c1 r) =>
           Some ((byteVal c0 - 48) * 10 + (byteVal c1 - 48), r)
       | _ => None
       end.

(** [leadingInt(s)]: the leading run of digits as a number, and the rest.
    [None] is the overflow error. *)
Fixpoint leadingInt (s : string) (x : Z) : option (Z * string) :=
  match s with
  | EmptyString => Some (x, EmptyString)
  | String c r =>
      if isDigitChar c then
        if (2 ^ 63) / 10 <? x then None
        else
          let x' := x * 10 + byteVal c - 48 in
          if 2 ^ 63 <? x' then None else leadingInt r x'
      else Some (x, s)
  end.

(** [atoi(s)]: an optionally signed decimal number covering all of [s]. *)
Definition atoi (s : string) : option Z :=
  let '(neg, s') :=
    match s with
    | String c r =>
        if ascii_dec c "-" then (true, r)
        else if ascii_dec c "+" then (false, r)
        else (false, s)
    | EmptyString => (false, s)
    end in
  match leadingInt s' 0 with
  | Some (q, EmptyString) => Some (if neg then - q else q)
  | _ => None
  end.

(* ================================================================== *)
(** ** Calendar arithmetic of [time] *)
(* ================================================================== *)

Definition secondsPerMinute : Z := 60.
Definition secondsPerHour : Z := 60 * secondsPerMinute.
Definition secondsPerDay : Z := 24 * secondsPerHour.
Definition daysPer400Years : Z := 365 * 400 + 97.
Definition daysPer100Years : Z := 365 * 100 + 24.
Definition daysPer4Years : Z := 365 * 4 + 1.

(** The absolute epoch lies in year -292277022399, a year of the form
    400k+1, so that instants of the whole int64 range are non-negative
    second counts. *)
Definition absoluteZeroYear : Z := -292277022399.
Definition internalYear : Z := 1.
(** [(absoluteZeroYear - internalYear) * 365.2425 * secondsPerDay] *)
Definition absoluteToInternal : Z := (absoluteZeroYear - internalYear) * 31556952.
Definition internalToAbsolute : Z := - absoluteToInternal.
Definition unixToInternal : Z :=
  (1969 * 365 + 1969 / 4 - 1969 / 100 + 1969 / 400) * secondsPerDay.
Definition internalToUnix : Z := - unixToInternal.

(** [year%4 == 0 && (year%100 != 0 || year%400 == 0)]; Go's [%] truncates. *)
Definition isLeap (year : Z) : bool :=
  (Z.rem year 4 =? 0) && (negb (Z.rem year 100 =? 0) || (Z.rem year 400 =? 0)).

(** [daysBefore[m]]: days in a non-leap year before month [m+1]. *)
Definition daysBefore : list Z :=
  [0; 31; 59; 90; 120; 151; 181; 212; 243; 273; 304; 334; 365].

Definition daysBeforeAt (m : Z) : Z := nth (Z.to_nat m) daysBefore 0.

Definition February : Z := 2.
Definition March : Z := 3.

Definition daysIn (m year : Z) : Z :=
  if (m =? February) && isLeap year then 29
  else daysBeforeAt m - daysBeforeAt (m - 1).

(** [absDate(abs, true)]: year, month and day of month of an absolute
    second count. *)
Definition absDate (abs : Z) : Z * Z * Z :=
  let d := abs / secondsPerDay in
  (* 400-year cycles *)
  let n := d / daysPer400Years in
  let y := 400 * n in
  let d := d - daysPer400Years * n in
  (* 100-year cycles; the last one has an extra leap day *)
  let n := d / daysPer100Years in
  let n := n - Z.shiftr n 2 in
  let y := y + 100 * n in
  let d := d - daysPer100Years * n in
  (* 4-year cycles *)
  let n := d / daysPer4Years in
  let y := y + 4 * n in
  let d := d - daysPer4Years * n in
  (* years of a 4-year cycle; the last one is a leap year *)
  let n := d / 365 in
  let n := n - Z.shiftr n 2 in
  let y := y + n in
  let d := d - 365 * n in
  let year := y + absoluteZeroYear in
  let yday := d in
  if isLeap year && (yday =? 31 + 29 - 1) then (year, February, 29)
  else
    let day := if isLeap year && (31 + 29 - 1 <? yday) then yday - 1 else yday in
    (* estimate the month as if every month had 31 days, then adjust *)
    let month := day / 31 in
    let end_ := daysBeforeAt (month + 1) in
    let '(month, begin) :=
      if end_ <=? day then (month + 1, end_) else (month, daysBeforeAt month) in
    (year, month + 1, day - begin + 1).

(** [absClock(abs)]: hour, minute and second within the day. *)
Definition absClock (abs : Z) : Z * Z * Z :=
  let sec := abs mod secondsPerDay in
  let hour := sec / secondsPerHour in
  let sec := sec - hour * secondsPerHour in
  let min := sec / secondsPerMinute in
  let sec := sec - min * secondsPerMinute in
  (hour, min, sec).

(** [norm(hi, lo, base)]: carry [lo] into [hi] until [0 <= lo < base]. *)
Definition norm (hi lo base : Z) : Z * Z :=
  let '(hi, lo) :=
    if lo <? 0 then
      let n := Z.quot (- lo - 1) base + 1 in (hi - n, lo + n * base)
    else (hi, lo) in
  if base <=? lo then
    let n := Z.quot lo base in (hi + n, lo - n * base)
  else (hi, lo).

(** [daysSinceEpoch(year)]: days from the absolute epoch to January 1 of
    [year]. *)
Definition daysSinceEpoch (year : Z) : Z :=
  let y := year - absoluteZeroYear in
  let n := y / 400 in
  let y := y - 400 * n in
  let d := daysPer400Years * n in
  let n := y / 100 in
  let y := y - 100 * n in
  let d := d + daysPer100Years * n in
  let n := y / 4 in
  let y := y - 4 * n in
  let d := d + daysPer4Years * n in
  d + 365 * y.

(** The first half of [Date]: normalise the fields and count the seconds
    from the Unix epoch as if the wall clock were read in UTC. *)
Definition civilSeconds (year month day hour min sec nsec : Z) : Z * Z :=
  let m := month - 1 in
  let '(year, m) := norm year m 12 in
  let month := m + 1 in
  let '(sec, nsec) := norm sec nsec 1000000000 in
  let '(min, sec) := norm min sec 60 in
  let '(hour, min) := norm hour min 60 in
  let '(day, hour) := norm day hour 24 in
  let d := daysSinceEpoch year in
  let d := d + daysBeforeAt (month - 1) in
  let d := if isLeap year && (March <=? month) then d + 1 else d in
  let d := d + (day - 1) in
  let abs := d * secondsPerDay in
  let abs := abs + (hour * secondsPerHour + min * secondsPerMinute + sec) in
  (abs + (absoluteToInternal + internalToUnix), nsec).

(* ================================================================== *)
(** ** Time zones: [time.Location] *)
(* ================================================================== *)

(** One zone of a location: abbreviation, seconds east of UTC, DST flag. *)
Record zone := { zname : string; offset : Z; isDST : bool }.

(** A transition: from [when] (Unix seconds) on, zone number [index] is
    in force. *)
Record zoneTrans := { when : Z; index : nat }.

(** The contents of a [time.Location]. The transitions are sorted by
    [when]. The cache fields and the rule string that extends the last
    transition are left out: a location carries explicit transitions
    only. *)
Record Location := { name : string; zones : list zone; tx : list zoneTrans }.

(** A [*time.Location] as the codec tells them apart: the two package
    level pointers [time.UTC] and [time.Local], against which the code
    compares with [==], and any other location, identified by its
    contents. A nil location inside a [Time] reads as [UTC]. *)
Inductive LocationRef :=
| UTC
| Local
| Loaded (l : Location).

Definition isUTC (r : LocationRef) : bool :=
  match r with UTC => true | _ => false end.
Definition isLocal (r : LocationRef) : bool :=
  match r with Local => true | _ => false end.

Definition utcLoc : Location := {| name := "UTC"; zones := []; tx := [] |}.

(** Beginning and end of time for zone periods: the int64 bounds. *)
Definition alpha : Z := - 2 ^ 63.
Definition omega : Z := 2 ^ 63 - 1.

Definition zoneAt (l : Location) (i : nat) : zone :=
  nth i (zones l) {| zname := "UTC"; offset := 0; isDST := false |}.

Definition firstZoneUsed (l : Location) : bool :=
  existsb (fun t => Nat.eqb (index t) 0) (tx l).

(** [for zi := n - 1; zi >= 0; zi-- { if !zone[zi].isDST { return zi } }] *)
Fixpoint stdZoneBelow (l : Location) (n : nat) : option nat :=
  match n with
  | O => None
  | S k => if isDST (zoneAt l k) then stdZoneBelow l k else Some k
  end.

(** [for zi := range zone { if !zone[zi].isDST { return zi } }] *)
Fixpoint firstStdZone (zs : list zone) (zi : nat) : option nat :=
  match zs with
  | [] => None
  | z :: r => if isDST z then firstStdZone r (S zi) else Some zi
  end.

(** [lookupFirstZone]: the zone in force before the first transition. *)
Definition lookupFirstZone (l : Location) : nat :=
  if negb (firstZoneUsed l) then O
  else
    let case2 :=
      match tx l with
      | t0 :: _ =>
          if isDST (zoneAt l (index t0)) then stdZoneBelow l (index t0)
          else None
      | [] => None
      end in
    match case2 with
    | Some zi => zi
    | None =>
        match firstStdZone (zones l) O with
        | Some zi => zi
        | None => O
        end
    end.

(** The entry with the largest time not after [sec], and the time of the
    entry that follows it ([omega] at the end). [time] finds it by binary
    search in the sorted transitions; [cur] is an entry already known to
    be at or before [sec]. *)
Fixpoint searchTx (txs : list zoneTrans) (sec : Z) (cur : zoneTrans)
  : zoneTrans * Z :=
  match txs with
  | [] => (cur, omega)
  | t :: r => if sec <? when t then (cur, when t) else searchTx r sec t
  end.

(** [l.lookup(sec)]: the offset in force at [sec] and the period
    [[start, end)] over which it is. *)
Definition lookup (l : Location) (sec : Z) : Z * Z * Z :=
  match zones l with
  | [] => (0, alpha, omega)
  | _ =>
      match tx l with
      | [] => (offset (zoneAt l (lookupFirstZone l)), alpha, omega)
      | t0 :: r =>
          if sec <? when t0
          then (offset (zoneAt l (lookupFirstZone l)), alpha, when t0)
          else
            let '(t, end_) := searchTx r sec t0 in
            (offset (zoneAt l (index t)), when t, end_)
      end
  end.

(** [containsDotDot(s)] *)
Fixpoint containsDotDot (s : string) : bool :=
  match s with
  | String c r => HasPrefix s ".." || containsDotDot r
  | EmptyString => false
  end.

(** A zone of constant offset, as [time.FixedZone] builds it. *)
Definition FixedZone (nm : string) (off : Z) : Location :=
  {| name := nm;
     zones := [{| zname := nm; offset := off; isDST := false |}];
     tx := [{| when := alpha; index := O |}] |}.

(** An eastern-US style zone used in the examples: daylight time (-4h)
    from 2024-03-10T07:00:00Z, standard time (-5h) from
    2024-11-03T06:00:00Z. *)
Definition exampleEastern : Location :=
  {| name := "America/New_York";
     zones := [ {| zname := "EST"; offset := -18000; isDST := false |};
                {| zname := "EDT"; offset := -14400; isDST := true |} ];
     tx := [ {| when := 1710054000; index := 1%nat |};
             {| when := 1730613600; index := O |} ] |}.

(* ================================================================== *)
(** ** Instants: [time.Time] *)
(* ================================================================== *)

(** An instant: seconds and nanoseconds from the Unix epoch, and the
    location in which it is displayed. Seconds are unbounded integers; Go
    keeps them in an int64 counted from year 1, whose ends (some 292
    billion years away) are not modelled. *)
Record Time := { unixSec : Z; nsec : Z; loc : LocationRef }.

(** The zero [Time{}]: January 1, year 1, 00:00:00 UTC. *)
Definition zeroTime : Time :=
  {| unixSec := internalToUnix; nsec := 0; loc := UTC |}.

(** [t.Equal(u)]: the same instant, whatever the locations. *)
Definition Time_Equal (t u : Time) : bool :=
  (unixSec t =? unixSec u) && (nsec t =? nsec u).

(** [t.Truncate(time.Second)] *)
Definition Truncate_Second (t : Time) : Time :=
  {| unixSec := unixSec t; nsec := 0; loc := loc t |}.

(** [t.Location()] *)
Definition Time_Location (t : Time) : LocationRef := loc t.

(** The layout verbs that occur in the three layouts of the codec. *)
Inductive std :=
| stdNone
| stdLongYear
| stdZeroMonth
| stdZeroDay
| stdHour
| stdZeroMinute
| stdZeroSecond.

(** [nextStdChunk(layout)]: the literal text before the first verb, the
    verb, and the layout after it. Only the verbs "2006", "01", "02",
    "15", "04" and "05" are recognised, which is how [time] reads the
    three layouts below; a "Z" not followed by "07" and a "T" are literal
    text there too. *)
Fixpoint nextStdChunk (layout : string) : string * std * string :=
  match layout with
  | EmptyString => (EmptyString, stdNone, EmptyString)
  | String c r =>
      if HasPrefix layout "2006" then (EmptyString, stdLongYear, drop 4 layout)
      else if HasPrefix layout "01" then (EmptyString, stdZeroMonth, drop 2 layout)
      else if HasPrefix layout "02" then (EmptyString, stdZeroDay, drop 2 layout)
      else if HasPrefix layout "15" then (EmptyString, stdHour, drop 2 layout)
      else if HasPrefix layout "04" then (EmptyString, stdZeroMinute, drop 2 layout)
      else if HasPrefix layout "05" then (EmptyString, stdZeroSecond, drop 2 layout)
      else
        let '(prefix, s, suffix) := nextStdChunk r in
        (String c prefix, s, suffix)
  end.

(** The wall-clock fields of an instant. *)
Record fields := {
  fYear : Z; fMonth : Z; fDay : Z;
  fHour : Z; fMin : Z; fSec : Z; fNsec : Z
}.

Definition appendStd (s : std) (f : fields) : string :=
  match s with
  | stdNone => EmptyString
  | stdLongYear => appendInt (fYear f) 4
  | stdZeroMonth => appendInt (fMonth f) 2
  | stdZeroDay => appendInt (fDay f) 2
  | stdHour => appendInt (fHour f) 2
  | stdZeroMinute => appendInt (fMin f) 2
  | stdZeroSecond => appendInt (fSec f) 2
  end.

(** The loop of [AppendFormat]: one verb per iteration. *)
Fixpoint appendFormat (fuel : nat) (layout : string) (f : fields) : string :=
  match fuel with
  | O => EmptyString
  | S k =>
      match layout with
      | EmptyString => EmptyString
      | _ =>
          let '(prefix, s, suffix) := nextStdChunk layout in
          match s with
          | stdNone => prefix
          | _ => prefix +:+ appendStd s f +:+ appendFormat k suffix f
          end
      end
  end.

(** [ParseError] of [time]. *)
Record ParseError := {
  Layout : string; Value : string;
  LayoutElem : string; ValueElem : string; Message : string
}.

(** [skip(value, prefix)]: [value] without the literal [prefix]; a space in
    the prefix matches any run of spaces. [None] is [errBad]; the string
    returned with it is where the match stopped. *)
Fixpoint cutspace (s : string) : string :=
  match s with
  | String c r => if ascii_dec c " " then cutspace r else s
  | EmptyString => s
  end.

Fixpoint skip (fuel : nat) (value prefix : string) : string * bool :=
  match fuel with
  | O => (value, true)
  | S k =>
      match prefix with
      | EmptyString => (value, true)
      | String p pr =>
          if ascii_dec p " " then
            match value with
            | String c _ =>
                if ascii_dec c " "
                then skip k (cutspace value) (cutspace prefix)
                else (value, false)
            | EmptyString => skip k (cutspace value) (cutspace prefix)
            end
          else
            match value with
            | String c r => if ascii_dec c p then skip k r pr else (value, false)
            | EmptyString => (value, false)
            end
      end
  end.

(** [lowerhex[n]] for [n] below 16. *)
Definition lowerhex (n : Z) : ascii :=
  ascii_of_N (Z.to_N (if n <? 10 then 48 + n else 87 + n)).

(** The loop of [quote] and its closing quote. The loop runs over the
    runes of [s], and writes every byte of a rune from 0x80 on, and of
    what is no rune, as [\xHH]: so each byte is written by its own value. A
    byte below the space is written as [\xHH] too, a quote and a backslash
    after a backslash, and any other byte as it is. *)
Fixpoint quoteBytes (s : string) : string :=
  match s with
  | EmptyString => String (ascii_of_nat 34) EmptyString
  | String c r =>
      let b := byteVal c in
      if (128 <=? b) || (b <? 32) then
        String "\" (String "x" (String (lowerhex (Z.shiftr b 4))
          (String (lowerhex (Z.land b 15)) (quoteBytes r))))
      else if (b =? 34) || (b =? 92) then String "\" (String c (quoteBytes r))
      else String c (quoteBytes r)
  end.

(** [quote(s)] *)
Definition quote (s : string) : string :=
  String (ascii_of_nat 34) (quoteBytes s).

Definition commaOrPeriod (c : ascii) : bool :=
  if ascii_dec c "." then true else if ascii_dec c "," then true else false.

(** [for ; n < len(value) && isDigit(value, n); n++ {}] from [n = 0]. *)
Fixpoint digitRun (s : string) : nat :=
  match s with
  | String c r => if isDigitChar c then S (digitRun r) else O
  | EmptyString => O
  end.

(** [parseNanoseconds(value, nbytes)] for a [value] that starts with a
    comma or a period: nanoseconds, range error text, [errBad] flag. *)
Definition parseNanoseconds (value : string) (nbytes : nat) : Z * string * bool :=
  let '(value, nbytes) :=
    if (10 <? nbytes)%nat then (take 10 value, 10%nat) else (value, nbytes) in
  match atoi (take (nbytes - 1) (drop 1 value)) with
  | None => (0, EmptyString, true)
  | Some ns =>
      if ns <? 0 then (ns, "fractional second"%string, false)
      else (ns * 10 ^ Z.of_nat (10 - nbytes), EmptyString, false)
  end.

Definition setYear f v := {| fYear := v; fMonth := fMonth f; fDay := fDay f;
  fHour := fHour f; fMin := fMin f; fSec := fSec f; fNsec := fNsec f |}.
Definition setMonth f v := {| fYear := fYear f; fMonth := v; fDay := fDay f;
  fHour := fHour f; fMin := fMin f; fSec := fSec f; fNsec := fNsec f |}.
Definition setDay f v := {| fYear := fYear f; fMonth := fMonth f; fDay := v;
  fHour := fHour f; fMin := fMin f; fSec := fSec f; fNsec := fNsec f |}.
Definition setHour f v := {| fYear := fYear f; fMonth := fMonth f; fDay := fDay f;
  fHour := v; fMin := fMin f; fSec := fSec f; fNsec := fNsec f |}.
Definition setMin f v := {| fYear := fYear f; fMonth := fMonth f; fDay := fDay f;
  fHour := fHour f; fMin := v; fSec := fSec f; fNsec := fNsec f |}.
Definition setSec f v := {| fYear := fYear f; fMonth := fMonth f; fDay := fDay f;
  fHour := fHour f; fMin := fMin f; fSec := v; fNsec := fNsec f |}.
Definition setNsec f v := {| fYear := fYear f; fMonth := fMonth f; fDay := fDay f;
  fHour := fHour f; fMin := fMin f; fSec := fSec f; fNsec := v |}.

(** The outcome of one verb of [Parse]: the fields, the remaining value,
    the range error text (empty if none) and the [errBad] flag. *)
Definition parseStd (s : std) (f : fields) (value : string)
  : fields * string * string * bool :=
  match s with
  | stdNone => (f, value, EmptyString, false)
  | stdLongYear =>
      if (len value <? 4) || negb (isDigit value 0)
      then (f, value, EmptyString, true)
      else
        match atoi (take 4 value) with
        | Some y => (setYear f y, drop 4 value, EmptyString, false)
        | None => (setYear f 0, drop 4 value, EmptyString, true)
        end
  | stdZeroMonth =>
      match getnum value true with
      | Some (m, rest) =>
          (setMonth f m, rest,
           if (m <=? 0) || (12 <? m) then "month"%string else EmptyString, false)
      | None => (setMonth f 0, value, EmptyString, true)
      end
  | stdZeroDay =>
      match getnum value true with
      | Some (d, rest) => (setDay f d, rest, EmptyString, false)
      | None => (setDay f 0, value, EmptyString, true)
      end
  | stdHour =>
      match getnum value false with
      | Some (h, rest) =>
          (setHour f h, rest,
           if (h <? 0) || (24 <=? h) then "hour"%string else EmptyString, false)
      | None => (setHour f 0, value, EmptyString, true)
      end
  | stdZeroMinute =>
      match getnum value true with
      | Some (m, rest) =>
          (setMin f m, rest,
           if (m <? 0) || (60 <=? m) then "minute"%string else EmptyString, false)
      | None => (setMin f 0, value, EmptyString, true)
      end
  | stdZeroSecond =>
      match getnum value true with
      | None => (setSec f 0, value, EmptyString, true)
      | Some (sc, rest) =>
          if (sc <? 0) || (60 <=? sc)
          then (setSec f sc, rest, "second"%string, false)
          else
            (* a fractional second in the input that the layout lacks *)
            match rest with
            | String c0 r0 =>
                if (2 <=? len rest) && commaOrPeriod c0 && isDigit rest 1 then
                  let n := (1 + digitRun r0)%nat in
                  let '(ns, rangeErr, bad) := parseNanoseconds rest n in
                  (setNsec (setSec f sc) ns, drop n rest, rangeErr, bad)
                else (setSec f sc, rest, EmptyString, false)
            | EmptyString => (setSec f sc, rest, EmptyString, false)
            end
      end
  end.

(** The verb's own text, [layout[len(prefix) : len(layout)-len(suffix)]]. *)
Definition stdText (layout prefix suffix : string) : string :=
  take (String.length layout - String.length prefix - String.length suffix)
       (drop (String.length prefix) layout).

(** The loop of [Parse]: one verb per iteration, ending in the fields and
    nothing left of the value, or in a [ParseError]. *)
Fixpoint parseLoop (fuel : nat) (alayout avalue layout value : string)
  (f : fields) : fields + ParseError :=
  match fuel with
  | O => inl f
  | S k =>
      let '(prefix, s, suffix) := nextStdChunk layout in
      let '(value, ok) := skip (S (String.length prefix)) value prefix in
      if negb ok then
        inr {| Layout := alayout; Value := avalue; LayoutElem := prefix;
               ValueElem := value; Message := EmptyString |}
      else
        match s with
        | stdNone =>
            if negb (len value =? 0) then
              inr {| Layout := alayout; Value := avalue; LayoutElem := EmptyString;
                     ValueElem := value;
                     Message := ": extra text: " +:+ quote value |}
            else inl f
        | _ =>
            let hold := value in
            let '(f, value, rangeErr, bad) := parseStd s f value in
            if negb (String.eqb rangeErr EmptyString) then
              inr {| Layout := alayout; Value := avalue;
                     LayoutElem := stdText layout prefix suffix;
                     ValueElem := value;
                     Message := ": " +:+ rangeErr +:+ " out of range" |}
            else if bad then
              inr {| Layout := alayout; Value := avalue;
                     LayoutElem := stdText layout prefix suffix;
                     ValueElem := hold; Message := EmptyString |}
            else parseLoop k alayout avalue suffix value f
        end
  end.

(** [Parse] starts from year 0, no month and no day. *)
Definition fields0 : fields :=
  {| fYear := 0; fMonth := -1; fDay := -1;
     fHour := 0; fMin := 0; fSec := 0; fNsec := 0 |}.

(** [Parse] up to the call of [Date]: the loop, the defaults for a missing
    month and day, and the check of the day against the month. *)
Definition parseFields (layout value : string) : fields + ParseError :=
  match parseLoop (S (String.length layout)) layout value layout value fields0 with
  | inr e => inr e
  | inl f =>
      let f := if fMonth f <? 0 then setMonth f 1 else f in
      let f := if fDay f <? 0 then setDay f 1 else f in
      if (fDay f <? 1) || (daysIn (fMonth f) (fYear f) <? fDay f) then
        inr {| Layout := layout; Value := value; LayoutElem := EmptyString;
               ValueElem := EmptyString; Message := ": day out of range" |}
      else inl f
  end.

(** The three layouts of the codec. *)
Definition DateFormatString : string := "20060102".
Definition DateTimeFormatString : string := "20060102T150405".
Definition UTCDateTimeFormatString : string := "20060102T150405Z".

(* ================================================================== *)
(** ** The data of the codec: DateTime, pointers, errors, parameters *)
(* ================================================================== *)

(** [type DateTime struct { t time.Time }] *)
Record DateTime := { t : Time }.

(** [type DateTimeFullDay DateTime] *)
Abbreviation DateTimeFullDay := DateTime (only parsing).

(** DateTime values live on the heap and are reached through pointers:
    [DateTimes] is [[]*DateTime]. A pointer is an index into the heap;
    [new(DateTime)] takes the next index. *)
Abbreviation addr := nat (only parsing).
Abbreviation Heap := (list DateTime).
Abbreviation DateTimes := (list addr).

(** The methods of the component, as the method values handed to
    [utils.NewError]. *)
Inductive Method :=
| M_DateTime_EncodeICalValue
| M_DateTime_DecodeICalValue
| M_DateTime_EncodeICalParams
| M_DateTime_DecodeICalParams
| M_DateTime_ValidateICalValue
| M_DateTimes_EncodeICalValue
| M_DateTimes_DecodeICalValue
| M_DateTimes_EncodeICalParams
| M_DateTimes_DecodeICalParams.

(** The receiver handed to [utils.NewError]: a DateTime, read when the
    error is made, or a list of pointers. *)
Inductive Instance :=
| OfDateTime (d : DateTime)
| OfDateTimes (ds : DateTimes).

(** Go errors met in the component: a [*time.ParseError], an error that
    is only a text (from [time.LoadLocation] or from the list codec),
    and the component's own [*utils.Error]. *)
#[warnings="-register-all"]
Inductive error :=
| ParseErr (e : ParseError)
| ErrorString (msg : string)
| UtilsError (method : Method) (message : string) (context : Instance)
             (cause : option error).

(** Modelled from the spec: [utils.NewError(method, message, context,
    cause)] of package [utils], which is not among the sources. By the
    spec every surfaced error carries the failing operation identity, a
    human-readable message, the offending instance and the underlying
    cause for chaining; the constructor stores its four arguments, a nil
    cause as [None]. *)
Definition NewError (method : Method) (message : string) (context : Instance)
  (cause : option error) : error :=
  UtilsError method message context cause.

(** What a call that may panic does. *)
Inductive outcome (A : Type) :=
| Returns (a : A)
| Panics (e : error).
Arguments Returns {A} a.
Arguments Panics {A} e.

(** [properties.Params]: parameter values by name; a nil map reads as
    the empty map. *)
Abbreviation Params := (gmap string string).

Section Codec.

(* ------------------------------------------------------------------ *)
(** *** Operations of [time] that depend on the host: the local zone and
        the time-zone database *)
(* ------------------------------------------------------------------ *)

(** The system's local zone, behind [time.Local]: what [initLocal] leaves
    in [localLoc], its name included ("Local" when the zone is read from
    /etc/localtime, the value of $TZ when that names the zone, "UTC" when
    no zone is found). *)
Variable localZone : Location.
(** The time-zone database read by [time.LoadLocation]. *)
Variable zoneinfo : string -> option Location.

(** [l.get()]: the contents behind a location pointer. *)
Definition get (r : LocationRef) : Location :=
  match r with
  | UTC => utcLoc
  | Local => localZone
  | Loaded l => l
  end.

(** [l.String()] *)
Definition Location_String (r : LocationRef) : string := name (get r).

(** [time.LoadLocation(name)]; [inr] is the error. A zone read from the
    database is given the name it was asked for. *)
Definition LoadLocation (nm : string) : LocationRef + string :=
  if String.eqb nm "" || String.eqb nm "UTC" then inl UTC
  else if String.eqb nm "Local" then inl Local
  else if containsDotDot nm || HasPrefix nm "/" || HasPrefix nm "\"
  then inr "time: invalid location name"%string
  else
    match zoneinfo nm with
    | Some l => inl (Loaded {| name := nm; zones := zones l; tx := tx l |})
    | None => inr ("unknown time zone " +:+ nm)
    end.

(** The offset of the zone in force at the instant [sec]. *)
Definition offsetAt (r : LocationRef) (sec : Z) : Z :=
  fst (fst (lookup (get r) sec)).

(** [t.abs()]: the wall clock of [t] as an absolute second count. Go
    takes the sum in uint64; it is this sum for every instant whose wall
    clock is not before the absolute zero, January 1 of the year
    -292277022399. For the instants before it, which Go's own calendar
    does not support, Go's sum wraps around and this one does not: the
    properties of the text of an instant are stated for years from 0 to
    9999, where the two agree. *)
Definition Time_abs (t : Time) : Z :=
  unixSec t + offsetAt (loc t) (unixSec t) + (unixToInternal + internalToAbsolute).

Definition Time_fields (t : Time) : fields :=
  let '(y, m, d) := absDate (Time_abs t) in
  let '(h, mi, s) := absClock (Time_abs t) in
  {| fYear := y; fMonth := m; fDay := d;
     fHour := h; fMin := mi; fSec := s; fNsec := nsec t |}.

(** [t.Format(layout)] *)
Definition Format (t : Time) (layout : string) : string :=
  appendFormat (String.length layout) layout (Time_fields t).

(** The second half of [Date]: the offset by which a wall clock that
    reads [unix] (as if in UTC) is moved to its instant. The offset in
    force at [unix] is tried first; when the instant it gives falls
    outside that zone period, the offset in force at that instant is
    taken. *)
Definition wallOffset (r : LocationRef) (unix : Z) : Z :=
  let '(offset, start, end_) := lookup (get r) unix in
  if offset =? 0 then 0
  else
    let utc := unix - offset in
    if (utc <? start) || (end_ <=? utc)
    then fst (fst (lookup (get r) utc))
    else offset.

(** [time.Date(year, month, day, hour, min, sec, nsec, loc)] *)
Definition Date (year month day hour min sec ns : Z) (r : LocationRef) : Time :=
  let '(unix, ns) := civilSeconds year month day hour min sec ns in
  {| unixSec := unix - wallOffset r unix; nsec := ns; loc := r |}.

(** [time.ParseInLocation(layout, value, loc)]; on an error Go returns
    the zero [Time] with it. *)
Definition ParseInLocation (layout value : string) (r : LocationRef)
  : Time + ParseError :=
  match parseFields layout value with
  | inr e => inr e
  | inl f =>
      inl (Date (fYear f) (fMonth f) (fDay f) (fHour f) (fMin f) (fSec f)
                (fNsec f) r)
  end.

(* ------------------------------------------------------------------ *)
(** *** The codec: DateTime, DateTimeFullDay, DateTimes *)
(* ------------------------------------------------------------------ *)

(** [properties.TimeZoneIdPropertyName], the key of the timezone
    identifier parameter, declared in package [properties]. *)
Variable TimeZoneIdPropertyName : string.

(** The list codec [CSV] of this package, declared in another file:
    [csv.DecodeICalValue(value)] leaves the tokens in the receiver and
    returns an error or nil; [csv.EncodeICalValue()] joins them. *)
Variable CSV_DecodeICalValue : string -> list string * option string.
Variable CSV_EncodeICalValue : list string -> string * option string.

Definition NewDateTime (tm : Time) : DateTime := {| t := Truncate_Second tm |}.

Definition NewDateTimeFullDay (tm : Time) : DateTimeFullDay := NewDateTime tm.

Definition DateTime_Equals (d test : DateTime) : bool :=
  Time_Equal (t d) (t test).

Definition DateTime_NativeTime (d : DateTime) : Time := t d.

Definition DateTime_EncodeICalValue (d : DateTime) : string * option error :=
  let val := Format (t d) DateTimeFormatString in
  let loc := Time_Location (t d) in
  let val := if isUTC loc then val +:+ "Z" else val in
  (val, None).

(** The receiver after the call, and the error or nil. *)
Definition DateTime_DecodeICalValue (d : DateTime) (value : string)
  : DateTime * option error :=
  let layout := DateTimeFormatString in
  let layout :=
    if HasSuffix value "Z" then UTCDateTimeFormatString
    else if len value =? 8 then DateFormatString
    else layout in
  match ParseInLocation layout value UTC with
  | inr err =>
      let d := {| t := zeroTime |} in
      (d, Some (NewError M_DateTime_DecodeICalValue
                  "unable to parse datetime value" (OfDateTime d)
                  (Some (ParseErr err))))
  | inl tm => ({| t := tm |}, None)
  end.

Definition DateTime_EncodeICalParams (d : DateTime) : Params * option error :=
  let loc := Time_Location (t d) in
  if negb (isUTC loc)
  then ({[ TimeZoneIdPropertyName := Location_String loc ]}, None)
  else (∅, None).

Definition DateTime_DecodeICalParams (d : DateTime) (params : Params)
  : DateTime * option error :=
  let layout := DateTimeFormatString in
  let value := Format (t d) layout in
  match params !! TimeZoneIdPropertyName with
  | None => (d, None)
  | Some nm =>
      match LoadLocation nm with
      | inr err =>
          (d, Some (NewError M_DateTime_DecodeICalValue
                      "unable to parse timezone" (OfDateTime d)
                      (Some (ErrorString err))))
      | inl loc =>
          match ParseInLocation layout value loc with
          | inr err =>
              (d, Some (NewError M_DateTime_DecodeICalValue
                          "unable to parse datetime value" (OfDateTime d)
                          (Some (ParseErr err))))
          | inl tm => ({| t := tm |}, None)
          end
      end
  end.

Definition DateTime_ValidateICalValue (d : DateTime) : option error :=
  let loc := Time_Location (t d) in
  if isLocal loc then
    Some (NewError M_DateTime_ValidateICalValue
            "DateTime location may not Local, please use UTC or explicit Location"
            (OfDateTime d) None)
  else if String.eqb (Location_String loc) "" then
    Some (NewError M_DateTime_ValidateICalValue
            "DateTime location must have a valid name" (OfDateTime d) None)
  else None.

Definition DateTime_String (d : DateTime) : outcome string :=
  match DateTime_EncodeICalValue d with
  | (s, Some err) => Panics err
  | (s, None) => Returns s
  end.

Definition DateTimeFullDay_EncodeICalValue (d : DateTimeFullDay)
  : string * option error :=
  let val := Format (t d) DateFormatString in
  let loc := Time_Location (t d) in
  let val := if isUTC loc then val +:+ "Z" else val in
  (val, None).

(** [fmt.Sprintf("%d", i)] *)
Definition itoa (i : nat) : string := pretty i.

(** The loop of [DateTimes.EncodeICalValue] from index [i]; [None] is a
    nil pointer dereference. *)
Fixpoint encodeValuesFrom (h : Heap) (all : DateTimes) (i : nat)
  (rest : list addr) (csv : list string) : option (list string + error) :=
  match rest with
  | [] => Some (inl csv)
  | p :: r =>
      match h !! p with
      | None => None
      | Some d =>
          match DateTime_EncodeICalValue d with
          | (s, Some err) =>
              Some (inr (NewError M_DateTimes_EncodeICalValue
                           ("unable to encode datetime at index " +:+ itoa i)
                           (OfDateTimes all) (Some err)))
          | (s, None) => encodeValuesFrom h all (S i) r (csv ++ [s])
          end
      end
  end.

Definition DateTimes_EncodeICalValue (h : Heap) (ds : DateTimes)
  : option (string * option error) :=
  match encodeValuesFrom h ds O ds [] with
  | None => None
  | Some (inr e) => Some (EmptyString, Some e)
  | Some (inl csv) =>
      let '(s, e) := CSV_EncodeICalValue csv in
      Some (s, ErrorString <$> e)
  end.

Definition DateTimes_EncodeICalParams (h : Heap) (ds : DateTimes)
  : option (Params * option error) :=
  match ds with
  | [] => Some (∅, None)
  | p :: _ => DateTime_EncodeICalParams <$> h !! p
  end.

(** The loop of [DateTimes.DecodeICalParams] from index [i]: the heap
    after it and the error or nil; [None] is a nil pointer
    dereference. *)
Fixpoint decodeParamsFrom (h : Heap) (all : DateTimes) (i : nat)
  (rest : list addr) (params : Params) : option (Heap * option error) :=
  match rest with
  | [] => Some (h, None)
  | p :: r =>
      match h !! p with
      | None => None
      | Some d =>
          let '(d', e) := DateTime_DecodeICalParams d params in
          let h' := <[p := d']> h in
          match e with
          | Some err =>
              Some (h', Some (NewError M_DateTimes_DecodeICalValue
                                ("unable to decode datetime params for index "
                                   +:+ itoa i)
                                (OfDateTimes all) (Some err)))
          | None => decodeParamsFrom h' all (S i) r params
          end
      end
  end.

Definition DateTimes_DecodeICalParams (h : Heap) (ds : DateTimes)
  (params : Params) : option (Heap * option error) :=
  decodeParamsFrom h ds O ds params.

(** The loop of [DateTimes.DecodeICalValue] over the tokens from index
    [i]: the heap, the list and the error or nil after it. Each token is
    decoded into a [new(DateTime)] and the pointer appended when the
    decode succeeds. *)
Fixpoint decodeValuesFrom (h : Heap) (ds : DateTimes) (i : nat)
  (tokens : list string) : Heap * DateTimes * option error :=
  match tokens with
  | [] => (h, ds, None)
  | value :: r =>
      let p := length h in
      let '(d, e) := DateTime_DecodeICalValue {| t := zeroTime |} value in
      let h' := h ++ [d] in
      match e with
      | Some err =>
          (h', ds, Some (NewError M_DateTimes_DecodeICalValue
                           ("unable to decode datetime at index " +:+ itoa i)
                           (OfDateTimes ds) (Some err)))
      | None => decodeValuesFrom h' (ds ++ [p]) (S i) r
      end
  end.

Definition DateTimes_DecodeICalValue (h : Heap) (ds : DateTimes)
  (value : string) : Heap * DateTimes * option error :=
  match CSV_DecodeICalValue value with
  | (_, Some err) =>
      (h, ds, Some (NewError M_DateTimes_DecodeICalValue
                      "unable to decode datetime list as CSV"
                      (OfDateTimes ds) (Some (ErrorString err))))
  | (csv, None) => decodeValuesFrom h ds O csv
  end.

(* ------------------------------------------------------------------ *)
(** *** Quantities in which the properties of the codec are stated *)
(* ------------------------------------------------------------------ *)

(** The wall clock of an instant, read as Unix seconds in UTC. *)
Definition wallSeconds (tm : Time) : Z :=
  unixSec tm + offsetAt (loc tm) (unixSec tm).

(** What [new(DateTime)] holds after [DecodeICalValue] of a token. *)
Definition decodeNew (tok : string) : DateTime * option error :=
  DateTime_DecodeICalValue {| t := zeroTime |} tok.

(** The zone that a parameter block designates. *)
Definition paramsZone (params : Params) : option LocationRef :=
  match params !! TimeZoneIdPropertyName with
  | Some nm =>
      match LoadLocation nm with
      | inl r => Some r
      | inr _ => None
      end
  | None => None
  end.

(** An error of the component that carries a message, the instance
    [context], the method [method] when one is given, and a cause or, with
    [caused] false, no cause. *)
Definition carries (e : error) (method : option Method) (context : Instance)
  (caused : bool) : Prop :=
  exists m msg c,
    e = UtilsError m msg context c
    /\ msg <> EmptyString
    /\ (forall m0, method = Some m0 -> m = m0)
    /\ (if caused then c <> None else c = None).

End Codec.

(** The environment of the examples: a local zone one hour east of UTC, a
    time-zone database that knows [exampleEastern], and "TZID" as the
    name of the timezone identifier parameter. *)
Definition exampleLocal : Location := FixedZone "CET" 3600.
Definition exampleZoneinfo (nm : string) : option Location :=
  if String.eqb nm "America/New_York" then Some exampleEastern else None.
Definition exampleTZID : string := "TZID".

(** Modelled from the spec: the list codec [CSV], which is not among the
    sources. By the spec it decodes one escaped comma-joined string into a
    list of strings, with the format's escaping rules for commas and
    backslashes, and fails if the text is not validly escaped: a backslash
    takes the next byte literally, an unescaped comma ends a token, and a
    backslash at the end of the text is an error. *)
Fixpoint csvSplit (s : string) (cur : string) : list string * option string :=
  match s with
  | EmptyString => ([cur], None)
  | String c r =>
      if ascii_dec c "\" then
        match r with
        | String e r' => csvSplit r' (cur +:+ String e EmptyString)
        | EmptyString => ([], Some "dangling escape"%string)
        end
      else if ascii_dec c "," then
        let '(toks, err) := csvSplit r EmptyString in (cur :: toks, err)
      else csvSplit r (cur +:+ String c EmptyString)
  end.

Definition exampleCSV_Decode (value : string) : list string * option string :=
  csvSplit value EmptyString.

Fixpoint csvEscape (s : string) : string :=
  match s with
  | EmptyString => EmptyString
  | String c r =>
      if ascii_dec c "\" then String "\" (String c (csvEscape r))
      else if ascii_dec c "," then String "\" (String c (csvEscape r))
      else String c (csvEscape r)
  end.

Definition exampleCSV_Encode (csv : list string) : string * option string :=
  (String.concat "," (map csvEscape csv), None).

(* ================================================================== *)
(** ** Auxiliary definitions of the proofs *)
(* ================================================================== *)

Definition rangeStep (f : Z -> bool) (st : Z * bool) : Z * bool :=
  (fst st + 1, snd st && f (fst st)).

Definition allBelow (n : positive) (f : Z -> bool) : bool :=
  snd (Pos.iter (rangeStep f) (0, true) n).

Definition twoDigitsOk (n : Z) : bool :=
  match appendInt n 2 with
  | String c0 (String c1 EmptyString) =>
      isDigitChar c0 && isDigitChar c1
      && ((byteVal c0 - 48) * 10 + (byteVal c1 - 48) =? n)
  | _ => false
  end.

Definition fourDigitsOk (n : Z) : bool :=
  match appendInt n 4 with
  | String c0 (String c1 (String c2 (String c3 EmptyString))) =>
      isDigitChar c0
      && match atoi (appendInt n 4) with Some m => m =? n | None => false end
  | _ => false
  end.

(** The year within a 400-year cycle and the day of that year, for a day
    number [d] of the cycle: the middle part of [absDate]. *)
Definition yearInCycle (d : Z) : Z * Z :=
  let n := d / daysPer100Years in
  let n := n - Z.shiftr n 2 in
  let y := 100 * n in
  let d := d - daysPer100Years * n in
  let n := d / daysPer4Years in
  let y := y + 4 * n in
  let d := d - daysPer4Years * n in
  let n := d / 365 in
  let n := n - Z.shiftr n 2 in
  let y := y + n in
  let d := d - 365 * n in
  (y, d).

(** Month and day of month of a day of the year: the last part of
    [absDate]. *)
Definition monthDay (leap : bool) (yday : Z) : Z * Z :=
  if leap && (yday =? 31 + 29 - 1) then (February, 29)
  else
    let day := if leap && (31 + 29 - 1 <? yday) then yday - 1 else yday in
    let month := day / 31 in
    let end_ := daysBeforeAt (month + 1) in
    let '(month, begin) :=
      if end_ <=? day then (month + 1, end_) else (month, daysBeforeAt month) in
    (month + 1, day - begin + 1).

(** Days of a 400-year cycle before its year number [y]: the last part of
    [daysSinceEpoch]. *)
Definition yearDays (y : Z) : Z :=
  let n := y / 100 in
  let y := y - 100 * n in
  let d := daysPer100Years * n in
  let n := y / 4 in
  let y := y - 4 * n in
  let d := d + daysPer4Years * n in
  d + 365 * y.

(** The days counted by [Date] for a date. *)
Definition civilDays (year month day : Z) : Z :=
  daysSinceEpoch year + daysBeforeAt (month - 1)
  + (if isLeap year && (March <=? month) then 1 else 0) + (day - 1).

(** What is checked for each day [r] of one 400-year cycle: the date is a
    date of the calendar, and it counts back to [r]. The cycle starts
    with a year of the form 400k+1. *)
Definition cycleOk (r : Z) : bool :=
  let '(y, yday) := yearInCycle r in
  let '(m, dd) := monthDay (isLeap (y + 1)) yday in
  (0 <=? y) && (y <? 400) && (1 <=? m) && (m <=? 12)
  && (1 <=? dd) && (dd <=? daysIn m (y + 1))
  && (yearDays y + daysBeforeAt (m - 1)
      + (if isLeap (y + 1) && (March <=? m) then 1 else 0) + (dd - 1) =? r).

(** The transitions after [cur] are in the order of their times. *)
Fixpoint txSorted (cur : zoneTrans) (txs : list zoneTrans) : Prop :=
  match txs with
  | [] => True
  | t :: r => when cur <= when t /\ txSorted t r
  end.

(** The transitions of a location are sorted. *)
Definition sortedLocation (l : Location) : Prop :=
  match tx l with
  | [] => True
  | t0 :: r => txSorted t0 r
  end.

Definition clockUnset (f : fields) : Prop :=
  fHour f = 0 /\ fMin f = 0 /\ fSec f = 0 /\ fNsec f = 0.

(** *** Auxiliary definitions of the further properties *)

(** What is checked for each date [k] of one 400-year cycle (year number
    [k / 372], month [k mod 372 / 31 + 1], day [k mod 31 + 1], when the
    month has that day): the day it counts to is a day of the cycle, and
    [absDate] reads the date back from it. *)
Definition dateOk (k : Z) : bool :=
  let yr := k / 372 in
  let m := (k mod 372) / 31 + 1 in
  let d := k mod 31 + 1 in
  if d <=? daysIn m (yr + 1) then
    let r := yearDays yr + daysBeforeAt (m - 1)
             + (if isLeap (yr + 1) && (March <=? m) then 1 else 0) + (d - 1) in
    (0 <=? r) && (r <? 146097)
    && (fst (yearInCycle r) =? yr)
    && (fst (monthDay (isLeap (yr + 1)) (snd (yearInCycle r))) =? m)
    && (snd (monthDay (isLeap (yr + 1)) (snd (yearInCycle r))) =? d)
  else true.

(** The fields that [Parse] can hold between two verbs: each one in its
    range, the month and the day possibly still unset. *)
Definition fieldsOk (f : fields) : Prop :=
  0 <= fYear f <= 9999
  /\ (fMonth f = -1 \/ 1 <= fMonth f <= 12)
  /\ (fDay f = -1 \/ 0 <= fDay f <= 99)
  /\ 0 <= fHour f < 24 /\ 0 <= fMin f < 60 /\ 0 <= fSec f < 60
  /\ 0 <= fNsec f < 1000000000.

(** The fields are those of a date of the calendar with a year from 0 to
    9999, a time of the day and a fraction of a second. *)
Definition validFields (f : fields) : Prop :=
  0 <= fYear f <= 9999 /\ 1 <= fMonth f <= 12
  /\ 1 <= fDay f <= daysIn (fMonth f) (fYear f)
  /\ 0 <= fHour f < 24 /\ 0 <= fMin f < 60 /\ 0 <= fSec f < 60
  /\ 0 <= fNsec f < 1000000000.

(** The wall clock that a date alone stands for: midnight of the day. *)
Definition dateOnly (f : fields) : fields :=
  {| fYear := fYear f; fMonth := fMonth f; fDay := fDay f;
     fHour := 0; fMin := 0; fSec := 0; fNsec := 0 |}.

(** The value text of a DateTime: what [EncodeICalValue] writes. *)
Definition valueText (localZone : Location) (d : DateTime) : string :=
  fst (DateTime_EncodeICalValue localZone d).

(** The number that a run of digits stands for, after the digits that
    gave [x]. *)
Fixpoint digitsValue (s : string) (x : Z) : Z :=
  match s with
  | EmptyString => x
  | String c r => digitsValue r (x * 10 + byteVal c - 48)
  end.

Fixpoint allDigits (s : string) : bool :=
  match s with
  | EmptyString => true
  | String c r => isDigitChar c && allDigits r
  end.

(** What is checked for each year [n] below 10000: it is written as four
    digits that stand for [n]. *)
Definition yearDigitsOk (n : Z) : bool :=
  (String.length (appendInt n 4) =? 4)%nat
  && allDigits (appendInt n 4)
  && (digitsValue (appendInt n 4) 0 =? n).

(** The date and the time of the day as the layouts write them. *)
Definition dateText (f : fields) : string :=
  appendInt (fYear f) 4 +:+ appendInt (fMonth f) 2 +:+ appendInt (fDay f) 2.
Definition clockText (f : fields) : string :=
  appendInt (fHour f) 2 +:+ appendInt (fMin f) 2 +:+ appendInt (fSec f) 2.

(** A fraction of a second as [Parse] reads it after the seconds: nothing,
    or a period or a comma and then one digit or more. *)
Definition isFraction (frac : string) : bool :=
  match frac with
  | EmptyString => true
  | String c ds =>
      commaOrPeriod c && (1 <=? String.length ds)%nat && allDigits ds
  end.

(** The nanoseconds that a fraction of a second stands for: its first
    nine digits, scaled to nine. *)
Definition fracNanos (frac : string) : Z :=
  match frac with
  | EmptyString => 0
  | String _ ds =>
      digitsValue (take 9 ds) 0
      * 10 ^ Z.of_nat (9 - String.length (take 9 ds))
  end.

(** The form that the specification names by a layout (YYYYMMDDTHHMMSSZ,
    YYYYMMDD, YYYYMMDDTHHMMSS): a text has the form of a layout when it
    has the length of the layout, a decimal digit wherever the layout has
    a digit of the reference time, and the byte of the layout (T, Z)
    elsewhere. *)
Fixpoint hasLayoutForm (layout value : string) : bool :=
  match layout, value with
  | EmptyString, EmptyString => true
  | String l lr, String c cr =>
      (if isDigitChar l then isDigitChar c else Ascii.eqb c l)
      && hasLayoutForm lr cr
  | _, _ => false
  end.

(** The texts that [DecodeICalValue] accepts: a date and a time of the
    day, possibly with a fraction of a second, and "Z"; a date alone; a
    date and a time of the day, possibly with a fraction of a second. *)
Definition acceptedText (value : string) : Prop :=
  exists f frac,
    validFields f /\ isFraction frac = true
    /\ (value = dateText f +:+ "T" +:+ clockText f +:+ frac +:+ "Z"
        \/ value = dateText f
        \/ value = dateText f +:+ "T" +:+ clockText f +:+ frac).

(* ================================================================== *)
(** ** Concrete values of the examples *)
(* ================================================================== *)

(** 2024-01-01T00:00:00Z, with a few nanoseconds for [NewDateTime] to cut. *)
Definition newYear2024 : Time :=
  {| unixSec := 1704067200; nsec := 5; loc := UTC |}.

(** 10000-01-01T00:00:00Z, the first instant after year 9999. *)
Definition newYear10000 : Time :=
  {| unixSec := 253402300800; nsec := 0; loc := UTC |}.

(** 2024-11-03 01:30:00 in [exampleEastern], which that day's change back
    to standard time makes happen twice: first in daylight time
    (05:30:00Z), then in standard time (06:30:00Z). *)
Definition firstHalfPastOne : Time :=
  {| unixSec := 1730611800; nsec := 0; loc := Loaded exampleEastern |}.
Definition secondHalfPastOne : Time :=
  {| unixSec := 1730615400; nsec := 0; loc := Loaded exampleEastern |}.

Definition easternParams : Params := {[ exampleTZID := "America/New_York"%string ]}.

(** A heap of two DateTimes, at addresses 0 and 1: 2024-01-01T00:00:00Z,
    and 10000-01-01T00:00:00Z, whose text [DecodeICalParams] cannot parse
    back. *)
Definition exampleHeap : Heap := [NewDateTime newYear2024; NewDateTime newYear10000].

(** 2024-01-01T00:00:00.5Z *)
Definition halfSecondPast2024 : Time :=
  {| unixSec := 1704067200; nsec := 500000000; loc := UTC |}.

(** 2024-11-03T01:30:00Z: the wall clock of [firstHalfPastOne], read in
    UTC. *)
Definition halfPastOneUTC : Time :=
  {| unixSec := 1730597400; nsec := 0; loc := UTC |}.

(** A heap of two DateTimes in UTC, at addresses 0 and 1:
    2024-01-01T00:00:00Z and 2024-01-02T00:00:00Z, and the text of the list
    of the two. *)
Definition twoDaysHeap : Heap :=
  [ {| t := {| unixSec := 1704067200; nsec := 0; loc := UTC |} |};
    {| t := {| unixSec := 1704153600; nsec := 0; loc := UTC |} |} ].
Definition twoDaysText : string := "20240101T000000Z,20240102T000000Z".

(** The fields of 2024-01-01 00:00:00. *)
Definition midnight2024 : fields :=
  {| fYear := 2024; fMonth := 1; fDay := 1;
     fHour := 0; fMin := 0; fSec := 0; fNsec := 0 |}.

(** A zone east of UTC with two transitions, as Europe/Berlin has them in
    2024: to summer time (CEST, two hours east of UTC) on March 31 at
    01:00:00Z, and back to CET, one hour east, on October 27 at
    01:00:00Z; and a database that knows it. *)
Definition exampleCentral : Location :=
  {| name := "Europe/Berlin";
     zones := [ {| zname := "CET"; offset := 3600; isDST := false |};
                {| zname := "CEST"; offset := 7200; isDST := true |} ];
     tx := [ {| when := 1711846800; index := 1%nat |};
             {| when := 1729990800; index := O |} ] |}.
Definition centralZoneinfo (nm : string) : option Location :=
  if String.eqb nm "Europe/Berlin" then Some exampleCentral else None.

(** 2024-10-27 02:30:00 in [exampleCentral], which happens twice: first
    in summer time (00:30:00Z), then in standard time (01:30:00Z). *)
Definition firstHalfPastTwo : Time :=
  {| unixSec := 1729989000; nsec := 0; loc := Loaded exampleCentral |}.
Definition secondHalfPastTwo : Time :=
  {| unixSec := 1729992600; nsec := 0; loc := Loaded exampleCentral |}.

(** A parameter block that names a zone the database does not know. *)
Definition unknownZoneParams : Params := {[ exampleTZID := "Mars/Olympus"%string ]}.

(* ================================================================== *)
(** * Properties *)
(* ================================================================== *)

(** ** The model at concrete values *)

Example appendInt_2024 : appendInt 2024 4 = "2024"%string.
Proof. reflexivity. Qed.
Example appendInt_7 : appendInt 7 2 = "07"%string.
Proof. reflexivity. Qed.
Example appendInt_10000 : appendInt 10000 4 = "10000"%string.
Proof. reflexivity. Qed.
Example appendInt_neg : appendInt (-1) 4 = "-0001"%string.
Proof. reflexivity. Qed.
Example getnum_fixed : getnum "07T" true = Some (7, "T"%string).
Proof. reflexivity. Qed.
Example getnum_free : getnum "7T" false = Some (7, "T"%string).
Proof. reflexivity. Qed.
Example atoi_2024 : atoi "2024" = Some 2024.
Proof. reflexivity. Qed.
Example HasSuffix_Z : HasSuffix "20240101T000000Z" "Z" = true.
Proof. reflexivity. Qed.

Example absoluteToInternal_value : absoluteToInternal = -9223371966579724800.
Proof. reflexivity. Qed.
Example unixToInternal_value : unixToInternal = 62135596800.
Proof. reflexivity. Qed.
Example absDate_2024 :
  absDate (1704067200 + (unixToInternal + internalToAbsolute)) = (2024, 1, 1).
Proof. vm_compute. reflexivity. Qed.
Example absDate_leap_day :
  absDate (1709164800 + (unixToInternal + internalToAbsolute)) = (2024, 2, 29).
Proof. vm_compute. reflexivity. Qed.
Example civilSeconds_2024 : civilSeconds 2024 1 1 0 0 0 0 = (1704067200, 0).
Proof. vm_compute. reflexivity. Qed.
Example civilSeconds_zero : civilSeconds 1 1 1 0 0 0 0 = (-62135596800, 0).
Proof. vm_compute. reflexivity. Qed.

Example lookup_eastern_summer :
  lookup exampleEastern 1720000000 = (-14400, 1710054000, 1730613600).
Proof. reflexivity. Qed.
Example lookup_eastern_winter :
  lookup exampleEastern 1735000000 = (-18000, 1730613600, omega).
Proof. reflexivity. Qed.
Example lookup_eastern_before :
  lookup exampleEastern 1700000000 = (-18000, alpha, 1710054000).
Proof. reflexivity. Qed.

Example exampleCSV_Decode_two :
  exampleCSV_Decode "20240101T000000Z,garbage"
  = (["20240101T000000Z"%string; "garbage"%string], None).
Proof. reflexivity. Qed.


(** ** Checking a decidable property on an initial segment of the integers *)

Lemma rangeStep_iter (f : Z -> bool) (n : positive) :
  fst (Pos.iter (rangeStep f) (0, true) n) = Z.pos n /\
  (snd (Pos.iter (rangeStep f) (0, true) n) = true ->
   forall x, 0 <= x < Z.pos n -> f x = true).
Proof.
  induction n as [|n [IHfst IHsnd]] using Pos.peano_ind.
  - cbn. split; [reflexivity|].
    intros H x Hx. assert (x = 0) as -> by lia. exact H.
  - rewrite Pos.iter_succ. unfold rangeStep at 1 3. cbn [fst snd].
    rewrite IHfst. split; [lia|].
    intros H x Hx. apply andb_true_iff in H as [Hall Hn].
    destruct (Z.eq_dec x (Z.pos n)) as [->|Hne]; [exact Hn|].
    apply IHsnd; [exact Hall|lia].
Qed.

Lemma allBelow_spec (n : positive) (f : Z -> bool) :
  allBelow n f = true -> forall x, 0 <= x < Z.pos n -> f x = true.
Proof. intros H. apply rangeStep_iter. exact H. Qed.

(** ** Decimal fields *)

Lemma append_String (c : ascii) (s r : string) :
  String c s +:+ r = String c (s +:+ r).
Proof. reflexivity. Qed.

Lemma append_Empty (r : string) : EmptyString +:+ r = r.
Proof. reflexivity. Qed.

Lemma append_assoc (a b c : string) : (a +:+ b) +:+ c = a +:+ (b +:+ c).
Proof. induction a as [|x a IH]; [reflexivity|]. now rewrite !append_String, IH. Qed.

Lemma append_Empty_r (a : string) : a +:+ EmptyString = a.
Proof. induction a as [|x a IH]; [reflexivity|]. now rewrite append_String, IH. Qed.

Lemma append_length (a b : string) :
  String.length (a +:+ b) = (String.length a + String.length b)%nat.
Proof.
  induction a as [|x a IH]; [reflexivity|].
  rewrite append_String. cbn [String.length]. now rewrite IH.
Qed.

Lemma twoDigits_all : allBelow 100 twoDigitsOk = true.
Proof. vm_compute. reflexivity. Qed.

Lemma fourDigits_all : allBelow 10000 fourDigitsOk = true.
Proof. vm_compute. reflexivity. Qed.

(** A field below 100 is written as two digits, which [getnum] reads
    back. *)
Lemma getnum_appendInt (n : Z) (fixed : bool) (rest : string) :
  0 <= n < 100 ->
  getnum (appendInt n 2 +:+ rest) fixed = Some (n, rest).
Proof.
  intros Hn. pose proof (allBelow_spec _ _ twoDigits_all n Hn) as H.
  unfold twoDigitsOk in H.
  destruct (appendInt n 2) as [|c0 [|c1 [|? ?]]]; try discriminate.
  apply andb_true_iff in H as [H Hv]. apply andb_true_iff in H as [H0 H1].
  apply Z.eqb_eq in Hv.
  unfold getnum, isDigit. rewrite !append_String.
  cbn [String.get]. rewrite H0, H1. cbn [negb]. now rewrite Hv.
Qed.

Lemma appendInt2_length (n : Z) :
  0 <= n < 100 -> String.length (appendInt n 2) = 2%nat.
Proof.
  intros Hn. pose proof (allBelow_spec _ _ twoDigits_all n Hn) as H.
  unfold twoDigitsOk in H.
  destruct (appendInt n 2) as [|c0 [|c1 [|? ?]]]; try discriminate.
  reflexivity.
Qed.

(** A year from 0 to 9999 is written as four digits, which the year verb
    of [Parse] reads back. *)
Lemma year_appendInt (y : Z) (rest : string) :
  0 <= y < 10000 ->
  (len (appendInt y 4 +:+ rest) <? 4) || negb (isDigit (appendInt y 4 +:+ rest) 0)
  = false
  /\ atoi (take 4 (appendInt y 4 +:+ rest)) = Some y
  /\ drop 4 (appendInt y 4 +:+ rest) = rest.
Proof.
  intros Hy. pose proof (allBelow_spec _ _ fourDigits_all y Hy) as H.
  unfold fourDigitsOk in H.
  destruct (appendInt y 4) as [|c0 [|c1 [|c2 [|c3 [|? ?]]]]] eqn:E;
    try discriminate.
  apply andb_true_iff in H as [H0 Hv].
  match type of Hv with
  | context [atoi ?s] => destruct (atoi s) as [m|] eqn:Ea; [|discriminate]
  end.
  apply Z.eqb_eq in Hv. subst m.
  split; [|split].
  - unfold isDigit, len. rewrite !append_String.
    cbn [String.get String.length]. rewrite H0. cbn [negb].
    apply orb_false_iff. split; [|reflexivity]. apply Z.ltb_ge. lia.
  - rewrite !append_String. cbn [take]. exact Ea.
  - reflexivity.
Qed.

Lemma appendInt4_length (y : Z) :
  0 <= y < 10000 -> String.length (appendInt y 4) = 4%nat.
Proof.
  intros Hy. pose proof (allBelow_spec _ _ fourDigits_all y Hy) as H.
  unfold fourDigitsOk in H.
  destruct (appendInt y 4) as [|c0 [|c1 [|c2 [|c3 [|? ?]]]]] eqn:E;
    try discriminate.
  reflexivity.
Qed.

(** ** The calendar: [Date] inverts [absDate] and [absClock] *)

Lemma cycle_all : allBelow 146097 cycleOk = true.
Proof. vm_compute. reflexivity. Qed.

Lemma rem_zero_mod (a b : Z) : 0 < b -> (Z.rem a b =? 0) = (a mod b =? 0).
Proof.
  intros Hb. apply eq_true_iff_eq. rewrite !Z.eqb_eq.
  rewrite Z.rem_divide, Z.mod_divide by lia. reflexivity.
Qed.

Lemma isLeap_shift (y n : Z) : isLeap (y + 400 * n) = isLeap y.
Proof.
  unfold isLeap. rewrite !rem_zero_mod by lia.
  replace (400 * n) with (100 * n * 4) at 1 by lia.
  replace (400 * n) with (4 * n * 100) at 1 by lia.
  replace (400 * n) with (n * 400) by lia.
  now rewrite !Z_mod_plus_full.
Qed.

Lemma daysIn_shift (m y n : Z) : daysIn m (y + 400 * n) = daysIn m y.
Proof. unfold daysIn. now rewrite isLeap_shift. Qed.

Lemma absDate_split (abs : Z) :
  absDate abs =
  let d := abs / secondsPerDay in
  let n := d / daysPer400Years in
  let year := fst (yearInCycle (d - daysPer400Years * n)) + 400 * n + absoluteZeroYear in
  let md := monthDay (isLeap year) (snd (yearInCycle (d - daysPer400Years * n))) in
  (year, fst md, snd md).
Proof.
  unfold absDate, yearInCycle, monthDay. cbv zeta. cbn [fst snd].
  set (d := abs / secondsPerDay).
  set (n := d / daysPer400Years).
  set (r := d - daysPer400Years * n).
  set (n1 := r / daysPer100Years - Z.shiftr (r / daysPer100Years) 2).
  set (r1 := r - daysPer100Years * n1).
  set (n2 := r1 / daysPer4Years).
  set (r2 := r1 - daysPer4Years * n2).
  set (n3 := r2 / 365 - Z.shiftr (r2 / 365) 2).
  set (yday := r2 - 365 * n3).
  replace (400 * n + 100 * n1 + 4 * n2 + n3 + absoluteZeroYear)
    with (100 * n1 + 4 * n2 + n3 + 400 * n + absoluteZeroYear) by ring.
  set (year := 100 * n1 + 4 * n2 + n3 + 400 * n + absoluteZeroYear).
  destruct (isLeap year && (yday =? 31 + 29 - 1)); [reflexivity|].
  set (day := if isLeap year && (31 + 29 - 1 <? yday) then yday - 1 else yday).
  destruct (daysBeforeAt (day / 31 + 1) <=? day); reflexivity.
Qed.

Lemma daysSinceEpoch_split (year : Z) :
  daysSinceEpoch year =
  let y := year - absoluteZeroYear in
  daysPer400Years * (y / 400) + yearDays (y - 400 * (y / 400)).
Proof. unfold daysSinceEpoch, yearDays. cbv zeta. ring. Qed.

(** The date of an absolute second count is a date of the calendar, and
    [Date] counts its days back. *)
Lemma civilDays_absDate (abs : Z) :
  let '(y, m, d) := absDate abs in
  1 <= m <= 12 /\ 1 <= d <= daysIn m y /\ civilDays y m d = abs / secondsPerDay.
Proof.
  rewrite absDate_split. cbv zeta.
  set (D := abs / secondsPerDay).
  set (n := D / daysPer400Years).
  assert (Hr : 0 <= D - daysPer400Years * n < 146097).
  { unfold n. pose proof (Z.mod_pos_bound D daysPer400Years eq_refl) as Hm.
    rewrite Z.mod_eq in Hm by discriminate. exact Hm. }
  set (r := D - daysPer400Years * n) in *.
  pose proof (allBelow_spec _ _ cycle_all r Hr) as Hok.
  unfold cycleOk in Hok.
  destruct (yearInCycle r) as [y yday]. cbn [fst snd].
  assert (Hleap : isLeap (y + 400 * n + absoluteZeroYear) = isLeap (y + 1)).
  { replace (y + 400 * n + absoluteZeroYear)
      with (y + 1 + 400 * (n - 730692556)) by (unfold absoluteZeroYear; lia).
    apply isLeap_shift. }
  rewrite Hleap.
  destruct (monthDay (isLeap (y + 1)) yday) as [m dd]. cbn [fst snd].
  repeat (apply andb_true_iff in Hok as [Hok ?]).
  repeat match goal with
         | H : (_ <=? _) = true |- _ => apply Z.leb_le in H
         | H : (_ <? _) = true |- _ => apply Z.ltb_lt in H
         | H : (_ =? _) = true |- _ => apply Z.eqb_eq in H
         end.
  assert (Hin : daysIn m (y + 400 * n + absoluteZeroYear) = daysIn m (y + 1)).
  { unfold daysIn. now rewrite Hleap. }
  rewrite Hin. split; [lia|]. split; [lia|].
  unfold civilDays. rewrite Hleap, daysSinceEpoch_split. cbv zeta.
  replace (y + 400 * n + absoluteZeroYear - absoluteZeroYear)
    with (y + n * 400) by ring.
  rewrite Z.div_add by discriminate.
  rewrite (Z.div_small y 400) by lia.
  replace (y + n * 400 - 400 * (0 + n)) with y by ring.
  unfold r in *. lia.
Qed.

Lemma absClock_range (abs : Z) :
  let '(h, mi, s) := absClock abs in
  0 <= h < 24 /\ 0 <= mi < 60 /\ 0 <= s < 60
  /\ h * secondsPerHour + mi * secondsPerMinute + s = abs mod secondsPerDay.
Proof.
  unfold absClock. cbv zeta.
  pose proof (Z.mod_pos_bound abs secondsPerDay eq_refl) as Hm.
  set (sec := abs mod secondsPerDay) in *.
  unfold secondsPerDay, secondsPerHour, secondsPerMinute in *.
  pose proof (Z.div_mod sec (60 * 60) ltac:(lia)) as H1.
  pose proof (Z.mod_pos_bound sec (60 * 60) ltac:(lia)) as H2.
  set (h := sec / (60 * 60)) in *.
  assert (Hs1 : sec - h * (60 * 60) = sec mod (60 * 60)) by lia.
  rewrite Hs1. set (s1 := sec mod (60 * 60)) in *.
  pose proof (Z.div_mod s1 60 ltac:(lia)) as H3.
  pose proof (Z.mod_pos_bound s1 60 ltac:(lia)) as H4.
  set (mi := s1 / 60) in *.
  lia.
Qed.

Lemma norm_id (hi lo base : Z) : 0 <= lo < base -> norm hi lo base = (hi, lo).
Proof.
  intros H. unfold norm.
  destruct (lo <? 0) eqn:E1; [apply Z.ltb_lt in E1; lia|].
  destruct (base <=? lo) eqn:E2; [apply Z.leb_le in E2; lia|]. reflexivity.
Qed.

(** [Date] of the wall-clock fields of an absolute second count gives the
    count back (moved to the Unix epoch). *)
Lemma civilSeconds_fields (abs : Z) :
  let '(y, m, d) := absDate abs in
  let '(h, mi, s) := absClock abs in
  civilSeconds y m d h mi s 0 = (abs + (absoluteToInternal + internalToUnix), 0).
Proof.
  pose proof (civilDays_absDate abs) as Hd.
  pose proof (absClock_range abs) as Hc.
  destruct (absDate abs) as [[y m] d].
  destruct (absClock abs) as [[h mi] s].
  destruct Hd as (Hm & Hday & Hdays). destruct Hc as (Hh & Hmi & Hs & Hsum).
  unfold civilSeconds.
  rewrite (norm_id y (m - 1) 12) by lia.
  rewrite (norm_id s 0 1000000000) by lia.
  rewrite (norm_id mi s 60) by lia.
  rewrite (norm_id h mi 60) by lia.
  rewrite (norm_id d h 24) by lia.
  cbv zeta. replace (m - 1 + 1) with m by ring.
  f_equal.
  unfold civilDays in Hdays.
  pose proof (Z.div_mod abs secondsPerDay ltac:(discriminate)) as Hdm.
  destruct (isLeap y && (March <=? m)); lia.
Qed.

(** ** Formatting with the three layouts *)

Lemma two_digits (n : Z) :
  0 <= n < 100 ->
  exists c0 c1, appendInt n 2 = String c0 (String c1 EmptyString)
                /\ isDigitChar c0 = true /\ isDigitChar c1 = true.
Proof.
  intros Hn. pose proof (allBelow_spec _ _ twoDigits_all n Hn) as H.
  unfold twoDigitsOk in H.
  destruct (appendInt n 2) as [|c0 [|c1 [|? ?]]]; try discriminate.
  apply andb_true_iff in H as [H _]. apply andb_true_iff in H as [H0 H1].
  now exists c0, c1.
Qed.

Lemma appendFormat_DateTime (f : fields) :
  appendFormat (String.length DateTimeFormatString) DateTimeFormatString f
  = appendInt (fYear f) 4 +:+ appendInt (fMonth f) 2 +:+ appendInt (fDay f) 2
    +:+ "T" +:+ appendInt (fHour f) 2 +:+ appendInt (fMin f) 2
    +:+ appendInt (fSec f) 2.
Proof.
  rewrite <- (append_Empty_r (appendInt (fSec f) 2)). reflexivity.
Qed.

Lemma appendFormat_Date (f : fields) :
  appendFormat (String.length DateFormatString) DateFormatString f
  = appendInt (fYear f) 4 +:+ appendInt (fMonth f) 2 +:+ appendInt (fDay f) 2.
Proof.
  rewrite <- (append_Empty_r (appendInt (fDay f) 2)). reflexivity.
Qed.

(** ** Parsing what was formatted *)

Lemma parseLoop_S (k : nat) (alayout avalue layout value : string) (f : fields) :
  parseLoop (S k) alayout avalue layout value f =
  let '(prefix, s, suffix) := nextStdChunk layout in
  let '(value, ok) := skip (S (String.length prefix)) value prefix in
  if negb ok then
    inr {| Layout := alayout; Value := avalue; LayoutElem := prefix;
           ValueElem := value; Message := EmptyString |}
  else
    match s with
    | stdNone =>
        if negb (len value =? 0) then
          inr {| Layout := alayout; Value := avalue; LayoutElem := EmptyString;
                 ValueElem := value;
                 Message := ": extra text: " +:+ quote value |}
        else inl f
    | _ =>
        let hold := value in
        let '(f, value, rangeErr, bad) := parseStd s f value in
        if negb (String.eqb rangeErr EmptyString) then
          inr {| Layout := alayout; Value := avalue;
                 LayoutElem := stdText layout prefix suffix;
                 ValueElem := value;
                 Message := ": " +:+ rangeErr +:+ " out of range" |}
        else if bad then
          inr {| Layout := alayout; Value := avalue;
                 LayoutElem := stdText layout prefix suffix;
                 ValueElem := hold; Message := EmptyString |}
        else parseLoop k alayout avalue suffix value f
    end.
Proof. reflexivity. Qed.

(** ** The loops over a layout end by themselves *)

Lemma drop_length (n : nat) (s : string) :
  (String.length (drop n s) <= String.length s)%nat.
Proof.
  revert s. induction n as [|k IH]; intros s; [cbn; lia|].
  destruct s as [|c r]; cbn [drop String.length]; [lia|].
  specialize (IH r). lia.
Qed.

(** A verb takes at least one byte of the layout. *)
Lemma nextStdChunk_suffix (layout : string) :
  snd (fst (nextStdChunk layout)) <> stdNone ->
  (String.length (snd (nextStdChunk layout)) < String.length layout)%nat.
Proof.
  induction layout as [|c r IH]; [cbn; congruence|].
  cbn [nextStdChunk].
  destruct (HasPrefix (String c r) "2006");
    [intros _; cbn [snd String.length];
     change (drop 4 (String c r)) with (drop 3 r);
     pose proof (drop_length 3 r); lia|].
  do 5 (match goal with
        | |- context [if HasPrefix ?a ?b then _ else _] =>
            destruct (HasPrefix a b);
            [intros _; cbn [snd String.length];
             change (drop 2 (String c r)) with (drop 1 r);
             pose proof (drop_length 1 r); lia|]
        end).
  destruct (nextStdChunk r) as [[prefix s] suffix]. cbn [fst snd] in *.
  intros Hs. specialize (IH Hs). cbn [String.length]. lia.
Qed.

(** With more fuel than the layout has bytes, [parseLoop] does not depend
    on the fuel: it ends on the layout, never on the fuel. *)
Lemma parseLoop_fuel (k1 k2 : nat) (al av layout value : string) (f : fields) :
  (String.length layout < k1)%nat -> (String.length layout < k2)%nat ->
  parseLoop k1 al av layout value f = parseLoop k2 al av layout value f.
Proof.
  revert k2 layout value f.
  induction k1 as [|k1 IH]; intros k2 layout value f H1 H2; [lia|].
  destruct k2 as [|k2]; [lia|]. rewrite !parseLoop_S.
  pose proof (nextStdChunk_suffix layout) as Hsuf.
  destruct (nextStdChunk layout) as [[prefix s] suffix]. cbn [fst snd] in Hsuf.
  destruct (skip _ value prefix) as [value' ok].
  destruct (negb ok); [reflexivity|].
  destruct s; [reflexivity|..];
    (destruct (parseStd _ f value') as [[[f1 v1] r1] b1];
     destruct (negb (String.eqb r1 EmptyString)); [reflexivity|];
     destruct b1; [reflexivity|];
     apply IH;
     match type of Hsuf with
     | ?s0 <> stdNone -> _ =>
         assert (Hs0 : s0 <> stdNone) by discriminate; specialize (Hsuf Hs0)
     end; lia).
Qed.

(** Likewise [appendFormat]. *)
Lemma appendFormat_fuel (k1 k2 : nat) (layout : string) (f : fields) :
  (String.length layout <= k1)%nat -> (String.length layout <= k2)%nat ->
  appendFormat k1 layout f = appendFormat k2 layout f.
Proof.
  revert k2 layout.
  induction k1 as [|k1 IH]; intros k2 layout H1 H2.
  - destruct layout; [|cbn in H1; lia]. destruct k2; reflexivity.
  - destruct k2 as [|k2].
    + destruct layout; [reflexivity|cbn in H2; lia].
    + cbn [appendFormat]. destruct layout as [|c r]; [reflexivity|].
      pose proof (nextStdChunk_suffix (String c r)) as Hsuf.
      destruct (nextStdChunk (String c r)) as [[prefix s] suffix].
      cbn [fst snd] in Hsuf.
      destruct s; [reflexivity|..];
        (f_equal; f_equal; apply IH;
         match type of Hsuf with
         | ?s0 <> stdNone -> _ =>
             assert (Hs0 : s0 <> stdNone) by discriminate; specialize (Hsuf Hs0)
         end; lia).
Qed.

Lemma parseStd_year (f : fields) (y : Z) (rest : string) :
  0 <= y < 10000 ->
  parseStd stdLongYear f (appendInt y 4 +:+ rest)
  = (setYear f y, rest, EmptyString, false).
Proof.
  intros Hy. destruct (year_appendInt y rest Hy) as (H1 & H2 & H3).
  unfold parseStd. now rewrite H1, H2, H3.
Qed.

Lemma parseStd_month (f : fields) (m : Z) (rest : string) :
  1 <= m <= 12 ->
  parseStd stdZeroMonth f (appendInt m 2 +:+ rest)
  = (setMonth f m, rest, EmptyString, false).
Proof.
  intros Hm. unfold parseStd. rewrite getnum_appendInt by lia.
  destruct (m <=? 0) eqn:E1; [apply Z.leb_le in E1; lia|].
  destruct (12 <? m) eqn:E2; [apply Z.ltb_lt in E2; lia|]. reflexivity.
Qed.

Lemma parseStd_day (f : fields) (d : Z) (rest : string) :
  0 <= d < 100 ->
  parseStd stdZeroDay f (appendInt d 2 +:+ rest)
  = (setDay f d, rest, EmptyString, false).
Proof. intros Hd. unfold parseStd. now rewrite getnum_appendInt by lia. Qed.

Lemma parseStd_hour (f : fields) (h : Z) (rest : string) :
  0 <= h < 24 ->
  parseStd stdHour f (appendInt h 2 +:+ rest)
  = (setHour f h, rest, EmptyString, false).
Proof.
  intros Hh. unfold parseStd. rewrite getnum_appendInt by lia.
  destruct (h <? 0) eqn:E1; [apply Z.ltb_lt in E1; lia|].
  destruct (24 <=? h) eqn:E2; [apply Z.leb_le in E2; lia|]. reflexivity.
Qed.

Lemma parseStd_minute (f : fields) (m : Z) (rest : string) :
  0 <= m < 60 ->
  parseStd stdZeroMinute f (appendInt m 2 +:+ rest)
  = (setMin f m, rest, EmptyString, false).
Proof.
  intros Hm. unfold parseStd. rewrite getnum_appendInt by lia.
  destruct (m <? 0) eqn:E1; [apply Z.ltb_lt in E1; lia|].
  destruct (60 <=? m) eqn:E2; [apply Z.leb_le in E2; lia|]. reflexivity.
Qed.

(** After the seconds the encodings go on with "Z" or end, so there is no
    fractional second to read. *)
Lemma parseStd_second (f : fields) (s : Z) (rest : string) :
  0 <= s < 60 ->
  rest = EmptyString \/ rest = "Z"%string ->
  parseStd stdZeroSecond f (appendInt s 2 +:+ rest)
  = (setSec f s, rest, EmptyString, false).
Proof.
  intros Hs Hrest. unfold parseStd. rewrite getnum_appendInt by lia.
  destruct (s <? 0) eqn:E1; [apply Z.ltb_lt in E1; lia|].
  destruct (60 <=? s) eqn:E2; [apply Z.leb_le in E2; lia|].
  destruct Hrest as [-> | ->]; reflexivity.
Qed.

Ltac eval_chunk :=
  match goal with
  | |- context [nextStdChunk ?l] =>
      let v := eval vm_compute in (nextStdChunk l) in
      change (nextStdChunk l) with v
  end.

Ltac parse_step lem :=
  rewrite parseLoop_S; eval_chunk; cbv beta iota zeta;
  cbn [skip String.length negb]; rewrite lem by lia;
  cbv beta iota zeta; cbn [String.eqb negb].

Lemma daysIn_bound (m y d : Z) :
  1 <= m <= 12 -> 1 <= d <= daysIn m y -> 0 <= d < 100.
Proof.
  intros Hm Hd.
  assert (daysIn m y <= 31).
  { unfold daysIn.
    destruct ((m =? February) && isLeap y); [lia|].
    assert (m = 1 \/ m = 2 \/ m = 3 \/ m = 4 \/ m = 5 \/ m = 6 \/ m = 7
            \/ m = 8 \/ m = 9 \/ m = 10 \/ m = 11 \/ m = 12) as Hc by lia.
    repeat (destruct Hc as [-> | Hc]; [vm_compute; discriminate|]).
    subst m. vm_compute. discriminate. }
  lia.
Qed.

Section ParseFormatted.

Variables y m d h mi s : Z.
Hypothesis Hy : 0 <= y < 10000.
Hypothesis Hm : 1 <= m <= 12.
Hypothesis Hd : 1 <= d <= daysIn m y.
Hypothesis Hh : 0 <= h < 24.
Hypothesis Hmi : 0 <= mi < 60.
Hypothesis Hs : 0 <= s < 60.

Let f : fields :=
  {| fYear := y; fMonth := m; fDay := d;
     fHour := h; fMin := mi; fSec := s; fNsec := 0 |}.

Let text : string :=
  appendInt y 4 +:+ appendInt m 2 +:+ appendInt d 2
  +:+ "T" +:+ appendInt h 2 +:+ appendInt mi 2 +:+ appendInt s 2.

Lemma parseFields_formatted (suffix : string) :
  suffix = EmptyString \/ suffix = "Z"%string ->
  parseFields (DateTimeFormatString +:+ suffix) (text +:+ suffix) = inl f.
Proof using All.
  intros Hsuf. pose proof (daysIn_bound m y d Hm Hd) as Hd'.
  unfold parseFields.
  assert (Hloop : forall al av,
    parseLoop (S (String.length (DateTimeFormatString +:+ suffix))) al av
      (DateTimeFormatString +:+ suffix) (text +:+ suffix) fields0 = inl f).
  { intros al av. unfold text. rewrite !append_assoc.
    destruct Hsuf as [-> | ->].
    - change (DateTimeFormatString +:+ EmptyString) with DateTimeFormatString.
      unfold DateTimeFormatString. cbn [String.length].
      parse_step parseStd_year. parse_step parseStd_month.
      parse_step parseStd_day.
      rewrite parseLoop_S; eval_chunk; cbv beta iota zeta.
      rewrite append_String. cbn [skip String.length negb].
      destruct (ascii_dec "T" "T") as [_|Hne]; [|congruence].
      destruct (ascii_dec "T" " ") as [Heq|_]; [discriminate Heq|].
      rewrite append_Empty. cbv beta iota zeta. cbn [negb].
      rewrite parseStd_hour by lia. cbv beta iota zeta. cbn [String.eqb negb].
      parse_step parseStd_minute.
      rewrite parseLoop_S; eval_chunk; cbv beta iota zeta;
        cbn [skip String.length negb].
      rewrite (parseStd_second _ s EmptyString) by (lia || auto).
      cbv beta iota zeta. cbn [String.eqb negb].
      rewrite parseLoop_S; eval_chunk; cbv beta iota zeta;
        cbn [skip String.length negb].
      reflexivity.
    - change (DateTimeFormatString +:+ "Z") with UTCDateTimeFormatString.
      unfold UTCDateTimeFormatString. cbn [String.length].
      parse_step parseStd_year. parse_step parseStd_month.
      parse_step parseStd_day.
      rewrite parseLoop_S; eval_chunk; cbv beta iota zeta.
      rewrite append_String. cbn [skip String.length negb].
      destruct (ascii_dec "T" "T") as [_|Hne]; [|congruence].
      destruct (ascii_dec "T" " ") as [Heq|_]; [discriminate Heq|].
      rewrite append_Empty. cbv beta iota zeta. cbn [negb].
      rewrite parseStd_hour by lia. cbv beta iota zeta. cbn [String.eqb negb].
      parse_step parseStd_minute.
      rewrite parseLoop_S; eval_chunk; cbv beta iota zeta;
        cbn [skip String.length negb].
      rewrite (parseStd_second _ s "Z") by (lia || auto).
      cbv beta iota zeta. cbn [String.eqb negb].
      rewrite parseLoop_S; eval_chunk; cbv beta iota zeta.
      reflexivity. }
  rewrite Hloop. unfold f. cbn [fMonth].
  replace (m <? 0) with false by (symmetry; apply Z.ltb_ge; lia).
  cbn [fDay].
  replace (d <? 0) with false by (symmetry; apply Z.ltb_ge; lia).
  cbn [fDay fMonth fYear].
  replace (d <? 1) with false by (symmetry; apply Z.ltb_ge; lia).
  replace (daysIn m y <? d) with false by (symmetry; apply Z.ltb_ge; lia).
  reflexivity.
Qed.

End ParseFormatted.

(** ** Sniffing the layout of an encoded value *)

Lemma drop_append (a b : string) : drop (String.length a) (a +:+ b) = b.
Proof. induction a as [|x a IH]; [reflexivity|]. rewrite append_String. exact IH. Qed.

Lemma HasSuffix_append_Z (a : string) : HasSuffix (a +:+ "Z") "Z" = true.
Proof.
  unfold HasSuffix. rewrite append_length. cbn [String.length].
  replace (String.length a + 1 - 1)%nat with (String.length a) by lia.
  rewrite drop_append.
  replace (1 <=? String.length a + 1)%nat with true
    by (symmetry; apply Nat.leb_le; lia).
  reflexivity.
Qed.

Lemma HasSuffix_digit (a : string) (c : ascii) :
  isDigitChar c = true -> HasSuffix (a +:+ String c EmptyString) "Z" = false.
Proof.
  intros Hc. unfold HasSuffix. rewrite append_length. cbn [String.length].
  replace (String.length a + 1 - 1)%nat with (String.length a) by lia.
  rewrite drop_append. apply andb_false_iff. right.
  cbn [String.eqb]. destruct (Ascii.eqb c "Z") eqn:E; [|reflexivity].
  apply Ascii.eqb_eq in E. subst c. discriminate Hc.
Qed.

(** The text of a date-time with a four-digit year: fifteen bytes, the
    last one a digit. *)
Lemma formatted_shape (y m d h mi s : Z) :
  0 <= y < 10000 -> 0 <= m < 100 -> 0 <= d < 100 ->
  0 <= h < 100 -> 0 <= mi < 100 -> 0 <= s < 100 ->
  let text := appendInt y 4 +:+ appendInt m 2 +:+ appendInt d 2
              +:+ "T" +:+ appendInt h 2 +:+ appendInt mi 2 +:+ appendInt s 2 in
  String.length text = 15%nat /\ HasSuffix text "Z" = false.
Proof.
  intros Hy Hm Hd Hh Hmi Hs text. split.
  - unfold text. rewrite !append_length, appendInt4_length by lia.
    rewrite !appendInt2_length by lia. reflexivity.
  - destruct (two_digits s Hs) as (c0 & c1 & E & _ & H1).
    unfold text. rewrite E.
    change (String c0 (String c1 EmptyString))
      with (String c0 EmptyString +:+ String c1 EmptyString).
    rewrite <- !append_assoc. now apply HasSuffix_digit.
Qed.

(** ** Zone periods *)

Lemma searchTx_lower (rest : list zoneTrans) (sec : Z) (cur t : zoneTrans) (e : Z) :
  txSorted cur rest -> searchTx rest sec cur = (t, e) -> when cur <= when t.
Proof.
  revert cur. induction rest as [|t1 r IH]; intros cur Hs H; cbn in H.
  - inversion H; subst. lia.
  - destruct Hs as [H1 Hs]. destruct (sec <? when t1).
    + inversion H; subst. lia.
    + specialize (IH _ Hs H). lia.
Qed.

Lemma searchTx_period (rest : list zoneTrans) (sec x : Z) (cur t : zoneTrans) (e : Z) :
  txSorted cur rest -> searchTx rest sec cur = (t, e) ->
  when t <= x < e -> searchTx rest x cur = (t, e).
Proof.
  revert cur. induction rest as [|t1 r IH]; intros cur Hs H Hx; cbn in *.
  - exact H.
  - destruct Hs as [H1 Hs]. destruct (sec <? when t1) eqn:E.
    + inversion H; subst.
      now replace (x <? when t1) with true by (symmetry; apply Z.ltb_lt; lia).
    + pose proof (searchTx_lower _ _ _ _ _ Hs H) as Hlow.
      replace (x <? when t1) with false by (symmetry; apply Z.ltb_ge; lia).
      now apply IH.
Qed.

(** In a location with sorted transitions, every instant of the period
    that [lookup] returns is given that same period and offset. *)
Lemma lookup_period (l : Location) (sec x o st en : Z) :
  sortedLocation l -> lookup l sec = (o, st, en) -> st <= x < en ->
  lookup l x = (o, st, en).
Proof.
  unfold sortedLocation, lookup. intros Hs H Hx.
  destruct (zones l) as [|z zs]; [exact H|].
  destruct (tx l) as [|t0 r]; [exact H|].
  destruct (sec <? when t0) eqn:E.
  - inversion H; subst.
    now replace (x <? when t0) with true by (symmetry; apply Z.ltb_lt; lia).
  - destruct (searchTx r sec t0) as [t e] eqn:Es. inversion H; subst.
    pose proof (searchTx_lower _ _ _ _ _ Hs Es) as Hlow.
    replace (x <? when t0) with false by (symmetry; apply Z.ltb_ge; lia).
    now rewrite (searchTx_period _ _ _ _ _ _ Hs Es Hx).
Qed.

(** ** The codec *)

Set Default Proof Using "Type".

Section CodecFacts.

Variable localZone : Location.
Variable zoneinfo : string -> option Location.
Variable TimeZoneIdPropertyName : string.

Lemma offsetAt_UTC (sec : Z) : offsetAt localZone UTC sec = 0.
Proof. reflexivity. Qed.

Lemma wallOffset_UTC (unix : Z) : wallOffset localZone UTC unix = 0.
Proof. reflexivity. Qed.

Lemma Time_fields_range (tm : Time) :
  let f := Time_fields localZone tm in
  1 <= fMonth f <= 12 /\ 1 <= fDay f <= daysIn (fMonth f) (fYear f)
  /\ 0 <= fHour f < 24 /\ 0 <= fMin f < 60 /\ 0 <= fSec f < 60.
Proof.
  unfold Time_fields.
  pose proof (civilDays_absDate (Time_abs localZone tm)) as Hd.
  pose proof (absClock_range (Time_abs localZone tm)) as Hc.
  destruct (absDate _) as [[y m] d]. destruct (absClock _) as [[h mi] s].
  cbn [fYear fMonth fDay fHour fMin fSec].
  destruct Hd as (? & ? & _). destruct Hc as (? & ? & ? & _).
  repeat split; lia.
Qed.

(** Parsing the text of an instant of whole seconds with a four-digit
    year, in any location [r]: the wall clock is read back and moved to an
    instant by the offset that [Date] finds for it in [r]. *)
Lemma ParseInLocation_Format (tm : Time) (suffix : string) (r : LocationRef) :
  nsec tm = 0 ->
  0 <= fYear (Time_fields localZone tm) <= 9999 ->
  suffix = EmptyString \/ suffix = "Z"%string ->
  ParseInLocation localZone (DateTimeFormatString +:+ suffix)
    (Format localZone tm DateTimeFormatString +:+ suffix) r
  = inl {| unixSec := wallSeconds localZone tm
                      - wallOffset localZone r (wallSeconds localZone tm);
           nsec := 0; loc := r |}.
Proof.
  intros Hns Hy Hsuf.
  pose proof (Time_fields_range tm) as Hr. cbv zeta in Hr.
  unfold ParseInLocation, Format. rewrite appendFormat_DateTime.
  pose proof (civilSeconds_fields (Time_abs localZone tm)) as Hcs.
  unfold Time_fields in *.
  destruct (absDate _) as [[y m] d]. destruct (absClock _) as [[h mi] s].
  cbn [fYear fMonth fDay fHour fMin fSec fNsec] in *.
  rewrite parseFields_formatted by (lia || assumption).
  cbn [fYear fMonth fDay fHour fMin fSec fNsec].
  unfold Date. rewrite Hcs. unfold Time_abs, wallSeconds.
  replace (unixSec tm + offsetAt localZone (loc tm) (unixSec tm)
           + (unixToInternal + internalToAbsolute)
           + (absoluteToInternal + internalToUnix))
    with (unixSec tm + offsetAt localZone (loc tm) (unixSec tm))
    by (unfold internalToAbsolute, internalToUnix; ring).
  reflexivity.
Qed.

(** An instant and its wall clock anchored to UTC are formatted alike. *)
Lemma Format_wall (tm : Time) (layout : string) :
  nsec tm = 0 ->
  Format localZone
    {| unixSec := wallSeconds localZone tm; nsec := 0; loc := UTC |} layout
  = Format localZone tm layout.
Proof.
  intros Hns. unfold Format, Time_fields, Time_abs. cbn [unixSec loc nsec].
  rewrite offsetAt_UTC, Hns. unfold wallSeconds.
  now replace (unixSec tm + offsetAt localZone (loc tm) (unixSec tm) + 0)
    with (unixSec tm + offsetAt localZone (loc tm) (unixSec tm)) by ring.
Qed.

Lemma sniff_encoded_UTC (a : string) :
  (if HasSuffix (a +:+ "Z") "Z" then UTCDateTimeFormatString
   else if len (a +:+ "Z") =? 8 then DateFormatString
   else DateTimeFormatString) = DateTimeFormatString +:+ "Z".
Proof. now rewrite HasSuffix_append_Z. Qed.

Lemma sniff_encoded_local (tm : Time) :
  0 <= fYear (Time_fields localZone tm) <= 9999 ->
  let text := Format localZone tm DateTimeFormatString in
  (if HasSuffix text "Z" then UTCDateTimeFormatString
   else if len text =? 8 then DateFormatString
   else DateTimeFormatString) = DateTimeFormatString.
Proof.
  intros Hy. cbv zeta.
  pose proof (Time_fields_range tm) as Hr. cbv zeta in Hr.
  pose proof (daysIn_bound (fMonth (Time_fields localZone tm))
                (fYear (Time_fields localZone tm))
                (fDay (Time_fields localZone tm))
                (proj1 Hr) (proj1 (proj2 Hr))) as Hd.
  unfold Format. rewrite appendFormat_DateTime.
  destruct (formatted_shape (fYear (Time_fields localZone tm))
              (fMonth (Time_fields localZone tm))
              (fDay (Time_fields localZone tm))
              (fHour (Time_fields localZone tm))
              (fMin (Time_fields localZone tm))
              (fSec (Time_fields localZone tm))) as [Hlen Hsuf]; try lia.
  rewrite Hsuf. unfold len. rewrite Hlen. reflexivity.
Qed.

(** C3, as amended: for every DateTime [v] made by [NewDateTime] from an
    instant in UTC whose year is from 0 to 9999, [DecodeICalValue] on the
    text of [v.EncodeICalValue()] succeeds, whatever the receiver held,
    and leaves in it an instant equal to that of [v] (indeed the same
    [Time], in UTC). *)
Theorem UTC_roundtrip (tm : Time) (d0 : DateTime) :
  loc tm = UTC ->
  0 <= fYear (Time_fields localZone (t (NewDateTime tm))) <= 9999 ->
  let v := NewDateTime tm in
  exists d,
    DateTime_DecodeICalValue localZone d0 (fst (DateTime_EncodeICalValue localZone v))
    = (d, None)
    /\ DateTime_Equals d v = true
    /\ t d = t v.
Proof.
  intros Hloc Hy v. unfold NewDateTime in *. cbn [t] in Hy.
  set (tr := Truncate_Second tm) in *.
  assert (Hns : nsec tr = 0) by reflexivity.
  assert (Hl : loc tr = UTC) by exact Hloc.
  exists {| t := tr |}.
  assert (Hdec : DateTime_DecodeICalValue localZone d0
                   (fst (DateTime_EncodeICalValue localZone v))
                 = ({| t := tr |}, None)).
  { unfold DateTime_DecodeICalValue, DateTime_EncodeICalValue, v.
    cbn [t fst]. unfold Time_Location. rewrite Hl. cbn [isUTC].
    cbv zeta. rewrite sniff_encoded_UTC.
    rewrite (ParseInLocation_Format tr "Z" UTC Hns Hy) by auto.
    rewrite wallOffset_UTC. unfold wallSeconds. rewrite Hl, offsetAt_UTC.
    replace (unixSec tr + 0 - 0) with (unixSec tr) by ring.
    destruct tr as [u n l]. cbn in Hns, Hl. subst. reflexivity. }
  split; [exact Hdec|]. split; [|reflexivity].
  unfold DateTime_Equals, Time_Equal, v. cbn [t].
  now rewrite !Z.eqb_refl.
Qed.

(** The general form of the two-pass decode: for every DateTime [v] of
    whole seconds with a year from 0 to 9999 whose zone is found again
    under its own name, the two passes succeed and restore the zone; the
    instant they leave is the wall clock of [v] moved by the offset that
    [Date] finds for that wall clock in the zone. *)
Lemma two_pass_decode (tm : Time) (d0 : DateTime) :
  0 <= fYear (Time_fields localZone (t (NewDateTime tm))) <= 9999 ->
  LoadLocation zoneinfo (Location_String localZone (loc tm)) = inl (loc tm) ->
  let v := NewDateTime tm in
  let w := wallSeconds localZone (t v) in
  exists d1,
    DateTime_DecodeICalValue localZone d0 (fst (DateTime_EncodeICalValue localZone v))
    = (d1, None)
    /\ DateTime_DecodeICalParams localZone zoneinfo TimeZoneIdPropertyName d1
         (fst (DateTime_EncodeICalParams localZone TimeZoneIdPropertyName v))
       = ({| t := {| unixSec := w - wallOffset localZone (loc tm) w;
                     nsec := 0; loc := loc tm |} |}, None).
Proof.
  intros Hy Hload v w. subst w v. unfold NewDateTime in *. cbn [t] in *.
  set (tr := Truncate_Second tm) in *.
  assert (Hns : nsec tr = 0) by reflexivity.
  assert (Hl : loc tr = loc tm) by reflexivity.
  unfold DateTime_EncodeICalValue, DateTime_EncodeICalParams.
  cbn [t fst]. unfold Time_Location. rewrite Hl.
  destruct (isUTC (loc tm)) eqn:Eutc.
  - (* UTC: the value carries the zone, the parameters are empty *)
    assert (HU : loc tm = UTC) by (destruct (loc tm); (reflexivity || discriminate)).
    exists {| t := tr |}. cbn [negb fst]. split.
    + unfold DateTime_DecodeICalValue. cbv zeta. rewrite sniff_encoded_UTC.
      rewrite (ParseInLocation_Format tr "Z" UTC Hns Hy) by auto.
      rewrite wallOffset_UTC. unfold wallSeconds. rewrite Hl, HU, offsetAt_UTC.
      replace (unixSec tr + 0 - 0) with (unixSec tr) by ring.
      destruct tr as [u n l]. cbn in Hns, Hl. rewrite HU in Hl. subst.
      reflexivity.
    + unfold DateTime_DecodeICalParams. cbv zeta. rewrite lookup_empty.
      unfold wallSeconds. rewrite Hl, HU, offsetAt_UTC, wallOffset_UTC.
      replace (unixSec tr + 0 - 0) with (unixSec tr) by ring.
      destruct tr as [u n l]. cbn in Hns, Hl. rewrite HU in Hl. subst.
      reflexivity.
  - (* a named zone: the value is local text, the zone is a parameter *)
    exists {| t := {| unixSec := wallSeconds localZone tr; nsec := 0;
                      loc := UTC |} |}.
    cbn [negb fst]. split.
    + unfold DateTime_DecodeICalValue. cbv zeta.
      rewrite (sniff_encoded_local tr Hy).
      pose proof (ParseInLocation_Format tr EmptyString UTC Hns Hy) as HP.
      rewrite !append_Empty_r in HP. rewrite HP by auto.
      rewrite wallOffset_UTC.
      now replace (wallSeconds localZone tr - 0)
        with (wallSeconds localZone tr) by ring.
    + unfold DateTime_DecodeICalParams. cbv zeta. cbn [t].
      rewrite lookup_singleton_eq, Hload, (Format_wall tr _ Hns).
      pose proof (ParseInLocation_Format tr EmptyString (loc tm) Hns Hy) as HP.
      rewrite !append_Empty_r in HP. rewrite HP by auto.
      reflexivity.
Qed.

(** C1, as amended: for every DateTime [v] made by [NewDateTime] whose
    year is from 0 to 9999, whose zone is found again under its own name
    by [LoadLocation], and whose wall clock is given by [Date] in that
    zone the offset that [v] has, decoding the value and then the
    parameters of [v] into any DateTime succeeds and leaves in it the
    instant of [v] and the zone of [v]. *)
Theorem zoned_roundtrip (tm : Time) (d0 : DateTime) :
  0 <= fYear (Time_fields localZone (t (NewDateTime tm))) <= 9999 ->
  LoadLocation zoneinfo (Location_String localZone (loc tm)) = inl (loc tm) ->
  wallOffset localZone (loc tm) (wallSeconds localZone tm)
  = offsetAt localZone (loc tm) (unixSec tm) ->
  let v := NewDateTime tm in
  exists d1 d2,
    DateTime_DecodeICalValue localZone d0 (fst (DateTime_EncodeICalValue localZone v))
    = (d1, None)
    /\ DateTime_DecodeICalParams localZone zoneinfo TimeZoneIdPropertyName d1
         (fst (DateTime_EncodeICalParams localZone TimeZoneIdPropertyName v))
       = (d2, None)
    /\ DateTime_Equals d2 v = true
    /\ Time_Location (t d2) = Time_Location (t v).
Proof.
  intros Hy Hload Hoff v.
  destruct (two_pass_decode tm d0 Hy Hload) as (d1 & H1 & H2).
  exists d1. eexists. split; [exact H1|]. split; [exact H2|].
  split; [|reflexivity].
  unfold DateTime_Equals, Time_Equal, NewDateTime, wallSeconds in *.
  cbn [t unixSec nsec loc Truncate_Second] in *.
  rewrite Hoff.
  replace (unixSec tm + offsetAt localZone (loc tm) (unixSec tm)
           - offsetAt localZone (loc tm) (unixSec tm)) with (unixSec tm) by ring.
  now rewrite !Z.eqb_refl.
Qed.

(** In a zone with sorted transitions, a wall clock that, read as an
    instant, lies in the zone period of its own instant is given the
    offset of that instant: the hypothesis on the offset in the amended C1
    holds for every instant that is not within its offset of a
    transition. *)
Lemma wallOffset_same_period (tm : Time) (o st en : Z) :
  sortedLocation (get localZone (loc tm)) ->
  lookup (get localZone (loc tm)) (unixSec tm) = (o, st, en) ->
  st <= unixSec tm + o < en ->
  wallOffset localZone (loc tm) (wallSeconds localZone tm)
  = offsetAt localZone (loc tm) (unixSec tm).
Proof.
  intros Hs Hl Hw. unfold wallOffset, wallSeconds, offsetAt.
  rewrite Hl. cbn [fst].
  rewrite (lookup_period _ _ _ _ _ _ Hs Hl Hw).
  destruct (o =? 0) eqn:E; [apply Z.eqb_eq in E; now subst|].
  replace (unixSec tm + o - o) with (unixSec tm) by ring.
  rewrite Hl. now destruct (_ || _).
Qed.

(** A zone of one constant offset gives every wall clock the offset of
    the instant, so the amended C1 covers all of its instants. *)
Lemma wallOffset_FixedZone (nm : string) (off : Z) (tm : Time) :
  loc tm = Loaded (FixedZone nm off) ->
  wallOffset localZone (loc tm) (wallSeconds localZone tm)
  = offsetAt localZone (loc tm) (unixSec tm).
Proof.
  intros ->. unfold wallOffset, offsetAt, wallSeconds, lookup, get, FixedZone.
  cbn [zones tx when index fst snd].
  assert (Hcur : forall sec, searchTx [] sec {| when := alpha; index := O |}
                             = ({| when := alpha; index := O |}, omega))
    by reflexivity.
  destruct (unixSec tm <? alpha) eqn:E1;
    destruct (_ + _ <? alpha) eqn:E2; cbn [fst snd searchTx zoneAt nth zones
      offset lookupFirstZone firstZoneUsed tx existsb index Nat.eqb negb orb
      firstStdZone isDST stdZoneBelow when];
    destruct (off =? 0) eqn:E0; try (apply Z.eqb_eq in E0; subst off);
    try reflexivity;
    repeat match goal with
           | |- context [if ?c then _ else _] => destruct c; try reflexivity
           end.
Qed.

(** [LoadLocation] gives [time.Local] for the name "Local" only: the
    local zone is found again under its own name, as the amended C1
    asks, on the hosts where that name is "Local". *)
Lemma LoadLocation_Local (nm : string) :
  LoadLocation zoneinfo nm = inl Local <-> nm = "Local"%string.
Proof.
  unfold LoadLocation.
  destruct (String.eqb nm EmptyString || String.eqb nm "UTC") eqn:E1.
  - split; [discriminate|]. intros ->. discriminate E1.
  - destruct (String.eqb nm "Local") eqn:E2.
    + apply String.eqb_eq in E2. split; [intros _; exact E2|reflexivity].
    + apply String.eqb_neq in E2.
      destruct (containsDotDot nm || HasPrefix nm "/" || HasPrefix nm "\");
        [split; [discriminate|contradiction]|].
      destruct (zoneinfo nm); (split; [discriminate|contradiction]).
Qed.

(** Two instants of a zone whose wall clocks read the same cannot both
    have the offset that [Date] gives to that reading: of the two passes
    of an hour that a transition of the zone repeats, the hypothesis on
    the offset in the amended C1 holds for one at most. *)
Lemma wallOffset_one_instant (tm1 tm2 : Time) :
  loc tm1 = loc tm2 ->
  wallSeconds localZone tm1 = wallSeconds localZone tm2 ->
  wallOffset localZone (loc tm1) (wallSeconds localZone tm1)
  = offsetAt localZone (loc tm1) (unixSec tm1) ->
  wallOffset localZone (loc tm2) (wallSeconds localZone tm2)
  = offsetAt localZone (loc tm2) (unixSec tm2) ->
  unixSec tm1 = unixSec tm2.
Proof.
  intros Hl Hw H1 H2. unfold wallSeconds in *. rewrite <- Hl in *.
  rewrite <- Hw in H2. rewrite H1 in H2. lia.
Qed.

(** *** Decoding a value *)

Lemma parseLoop_Value (fuel : nat) (al av layout value : string) (f : fields)
  (pe : ParseError) :
  parseLoop fuel al av layout value f = inr pe -> Value pe = av /\ Layout pe = al.
Proof.
  revert layout value f.
  induction fuel as [|k IH]; intros layout value f H; [discriminate|].
  rewrite parseLoop_S in H.
  destruct (nextStdChunk layout) as [[prefix s] suffix].
  destruct (skip _ value prefix) as [value' ok].
  destruct (negb ok); [inversion H; subst; now split|].
  assert (Hgo : forall s',
    (let '(f, value, rangeErr, bad) := parseStd s' f value' in
     if negb (String.eqb rangeErr EmptyString) then
       inr {| Layout := al; Value := av;
              LayoutElem := stdText layout prefix suffix;
              ValueElem := value;
              Message := ": " +:+ rangeErr +:+ " out of range" |}
     else if bad then
       inr {| Layout := al; Value := av;
              LayoutElem := stdText layout prefix suffix;
              ValueElem := value'; Message := EmptyString |}
     else parseLoop k al av suffix value f) = inr pe ->
    Value pe = av /\ Layout pe = al).
  { intros s' Hs'. destruct (parseStd s' f value') as [[[f1 v1] r1] b1].
    destruct (negb (String.eqb r1 EmptyString));
      [inversion Hs'; subst; now split|].
    destruct b1; [inversion Hs'; subst; now split|]. eauto. }
  destruct s; try (apply Hgo in H; exact H).
  destruct (negb (len value' =? 0)); [inversion H; subst; now split|discriminate].
Qed.

(** A [ParseError] records the text that was being parsed. *)
Lemma ParseInLocation_Value (layout value : string) (r : LocationRef)
  (pe : ParseError) :
  ParseInLocation localZone layout value r = inr pe ->
  Value pe = value /\ Layout pe = layout.
Proof.
  unfold ParseInLocation, parseFields. intros H.
  destruct (parseLoop _ layout value layout value fields0) as [f|e] eqn:E.
  - match type of H with
    | context [if ?c then _ else _] => destruct c
    end; [|discriminate].
    inversion H; subst. now split.
  - inversion H; subst. eapply parseLoop_Value. exact E.
Qed.

Lemma ParseInLocation_loc (layout value : string) (r : LocationRef) (tm : Time) :
  ParseInLocation localZone layout value r = inl tm -> loc tm = r.
Proof.
  unfold ParseInLocation, Date. intros H.
  destruct (parseFields layout value) as [f|e]; [|discriminate].
  destruct (civilSeconds _ _ _ _ _ _ _) as [unix ns].
  inversion H; subst. reflexivity.
Qed.

Lemma parseStd_date_clock (s : std) (f f' : fields) (value value' rangeErr : string)
  (bad : bool) :
  s = stdLongYear \/ s = stdZeroMonth \/ s = stdZeroDay ->
  parseStd s f value = (f', value', rangeErr, bad) ->
  clockUnset f -> clockUnset f'.
Proof.
  unfold clockUnset.
  intros [-> | [-> | ->]] H Hf; unfold parseStd in H.
  - destruct (_ || _); [inversion H; subst; exact Hf|].
    destruct (atoi _); inversion H; subst; exact Hf.
  - destruct (getnum value true) as [[m rest]|]; inversion H; subst; exact Hf.
  - destruct (getnum value true) as [[m rest]|]; inversion H; subst; exact Hf.
Qed.

Ltac date_step H Hclock :=
  rewrite parseLoop_S in H;
  match type of H with
  | context [nextStdChunk ?l] =>
      let v := eval vm_compute in (nextStdChunk l) in
      change (nextStdChunk l) with v in H
  end;
  cbv beta iota zeta in H; cbn [skip String.length negb] in H;
  match type of H with
  | context [parseStd ?s ?f ?v] =>
      let E := fresh "E" in
      destruct (parseStd s f v) as [[[? ?] ?] ?] eqn:E;
      apply parseStd_date_clock in E;
        [|first [left; reflexivity | right; left; reflexivity
                | right; right; reflexivity]|exact Hclock];
      clear Hclock; rename E into Hclock
  end;
  match type of H with
  | context [negb (String.eqb ?r EmptyString)] =>
      destruct (negb (String.eqb r EmptyString)); [discriminate H|]
  end;
  match type of H with
  | (if ?b then _ else _) = _ => destruct b; [discriminate H|]
  end.

(** The date-only layout sets no clock field. *)
Lemma parseFields_Date_clock (value : string) (f : fields) :
  parseFields DateFormatString value = inl f -> clockUnset f.
Proof.
  unfold parseFields. intros H.
  destruct (parseLoop _ _ _ _ _ _) as [f1|e] eqn:E; [|discriminate].
  assert (Hf1 : clockUnset f1).
  { clear H. assert (Hc : clockUnset fields0) by (repeat split).
    unfold DateFormatString in E. cbn [String.length] in E.
    date_step E Hc. date_step E Hc. date_step E Hc.
    rewrite parseLoop_S in E. cbn in E.
    destruct (negb _) in E; [discriminate|]. inversion E; subst. exact Hc. }
  set (f2 := if fMonth f1 <? 0 then setMonth f1 1 else f1) in H.
  assert (Hf2 : clockUnset f2)
    by (unfold f2; destruct (fMonth f1 <? 0); exact Hf1).
  set (f3 := if fDay f2 <? 0 then setDay f2 1 else f2) in H.
  assert (Hf3 : clockUnset f3)
    by (unfold f3; destruct (fDay f2 <? 0); exact Hf2).
  destruct (_ || _) in H; [discriminate|].
  inversion H; subst. exact Hf3.
Qed.

(** A date at 00:00:00 in UTC shows the clock 00:00:00. *)
Lemma Date_midnight (y m d : Z) :
  absClock (Time_abs localZone (Date localZone y m d 0 0 0 0 UTC)) = (0, 0, 0).
Proof.
  unfold Date, civilSeconds.
  destruct (norm y (m - 1) 12) as [y' m'].
  rewrite (norm_id 0 0 1000000000) by lia. cbv beta iota zeta.
  rewrite (norm_id 0 0 60) by lia. cbv beta iota zeta.
  rewrite (norm_id 0 0 60) by lia. cbv beta iota zeta.
  rewrite (norm_id d 0 24) by lia. cbv beta iota zeta.
  unfold Time_abs. cbn [unixSec loc].
  rewrite wallOffset_UTC, offsetAt_UTC.
  assert (Hgen : forall D,
    absClock (D * secondsPerDay
              + (0 * secondsPerHour + 0 * secondsPerMinute + 0)
              + (absoluteToInternal + internalToUnix) - 0 + 0
              + (unixToInternal + internalToAbsolute)) = (0, 0, 0)).
  { intros D.
    replace (D * secondsPerDay
             + (0 * secondsPerHour + 0 * secondsPerMinute + 0)
             + (absoluteToInternal + internalToUnix) - 0 + 0
             + (unixToInternal + internalToAbsolute))
      with (D * secondsPerDay)
      by (unfold internalToAbsolute, internalToUnix; ring).
    unfold absClock. rewrite Z_mod_mult. reflexivity. }
  apply Hgen.
Qed.

(** C5: what the code does where the claim has the receiver left as it
    was. For every text on which [DecodeICalValue] fails, the error is a
    parse error that records the literal text, and the receiver is left
    holding the zero [Time] (January 1 of year 1, UTC), whatever instant
    it held before: the instant that comes with the error is stored
    before the error is tested. *)
Theorem DecodeICalValue_failure (d : DateTime) (value : string) (e : error) :
  snd (DateTime_DecodeICalValue localZone d value) = Some e ->
  fst (DateTime_DecodeICalValue localZone d value) = {| t := zeroTime |}
  /\ exists pe,
       e = NewError M_DateTime_DecodeICalValue "unable to parse datetime value"
             (OfDateTime {| t := zeroTime |}) (Some (ParseErr pe))
       /\ Value pe = value.
Proof.
  unfold DateTime_DecodeICalValue. cbv zeta.
  destruct (ParseInLocation localZone _ value UTC) as [tm|pe] eqn:E;
    cbn [fst snd]; intros H; [discriminate|].
  inversion H; subst. split; [reflexivity|].
  exists pe. split; [reflexivity|].
  exact (proj1 (ParseInLocation_Value _ _ _ _ E)).
Qed.

(** C10: whenever [DecodeICalValue] succeeds the receiver's instant is
    located in UTC, whatever zone it had before; and a following
    [DecodeICalParams] leaves it in another zone only if the parameters
    hold a timezone identifier, the zone being the one loaded under that
    identifier. *)
Theorem DecodeICalValue_anchors_UTC (d d' : DateTime) (value : string) :
  DateTime_DecodeICalValue localZone d value = (d', None) ->
  Time_Location (t d') = UTC
  /\ forall (params : Params) (d'' : DateTime) (e : option error),
       DateTime_DecodeICalParams localZone zoneinfo TimeZoneIdPropertyName d' params
       = (d'', e) ->
       Time_Location (t d'') <> UTC ->
       exists nm, params !! TimeZoneIdPropertyName = Some nm
                  /\ LoadLocation zoneinfo nm = inl (Time_Location (t d'')).
Proof.
  intros H.
  assert (HU : Time_Location (t d') = UTC).
  { unfold DateTime_DecodeICalValue in H. cbv zeta in H.
    destruct (ParseInLocation localZone _ value UTC) as [tm|pe] eqn:E;
      [|discriminate].
    inversion H; subst. exact (ParseInLocation_loc _ _ _ _ E). }
  split; [exact HU|].
  intros params d'' e Hp Hne. unfold DateTime_DecodeICalParams in Hp.
  cbv zeta in Hp.
  destruct (params !! TimeZoneIdPropertyName) as [nm|];
    [|inversion Hp; subst; contradiction].
  exists nm. split; [reflexivity|].
  destruct (LoadLocation zoneinfo nm) as [r|err];
    [|inversion Hp; subst; contradiction].
  destruct (ParseInLocation localZone _ _ r) as [tm|pe] eqn:E;
    [|inversion Hp; subst; contradiction].
  inversion Hp; subst. cbn [t]. unfold Time_Location.
  now rewrite (ParseInLocation_loc _ _ _ _ E).
Qed.

(** *** Encoding a value *)

Lemma HasSuffix_two_digits (a : string) (n : Z) :
  0 <= n < 100 -> HasSuffix (a +:+ appendInt n 2) "Z" = false.
Proof.
  intros Hn. destruct (two_digits n Hn) as (c0 & c1 & E & _ & H1). rewrite E.
  change (String c0 (String c1 EmptyString))
    with (String c0 EmptyString +:+ String c1 EmptyString).
  rewrite <- append_assoc. now apply HasSuffix_digit.
Qed.

(** For a year from 0 to 9999 the two encodings have the lengths of the
    text grammar: 15 or 16 bytes for a date-time, 8 or 9 for a full
    day. *)
Lemma EncodeICalValue_length (d : DateTime) :
  0 <= fYear (Time_fields localZone (t d)) <= 9999 ->
  String.length (fst (DateTime_EncodeICalValue localZone d))
  = (if isUTC (Time_Location (t d)) then 16 else 15)%nat
  /\ String.length (fst (DateTimeFullDay_EncodeICalValue localZone d))
     = (if isUTC (Time_Location (t d)) then 9 else 8)%nat.
Proof.
  intros Hy.
  pose proof (Time_fields_range (t d)) as Hr. cbv zeta in Hr.
  pose proof (daysIn_bound _ _ _ (proj1 Hr) (proj1 (proj2 Hr))) as Hd.
  unfold DateTime_EncodeICalValue, DateTimeFullDay_EncodeICalValue, Format.
  rewrite appendFormat_DateTime, appendFormat_Date. cbv zeta. cbn [fst].
  destruct (isUTC (Time_Location (t d))); split;
    rewrite !append_length, appendInt4_length by lia;
    rewrite !appendInt2_length by lia; reflexivity.
Qed.

(** *** Lists of values *)

Variable CSV_DecodeICalValue : string -> list string * option string.

Lemma decodeValuesFrom_cons_ok (tok : string) (r : list string) (h : Heap)
  (ds : DateTimes) (i : nat) :
  snd (decodeNew localZone tok) = None ->
  decodeValuesFrom localZone h ds i (tok :: r)
  = decodeValuesFrom localZone (h ++ [fst (decodeNew localZone tok)])
      (ds ++ [length h]) (S i) r.
Proof.
  unfold decodeNew. cbn [decodeValuesFrom].
  destruct (DateTime_DecodeICalValue localZone _ tok) as [d e].
  cbn [fst snd]. now intros ->.
Qed.

Lemma decodeValuesFrom_cons_fail (tok : string) (r : list string) (h : Heap)
  (ds : DateTimes) (i : nat) (e : error) :
  snd (decodeNew localZone tok) = Some e ->
  decodeValuesFrom localZone h ds i (tok :: r)
  = (h ++ [fst (decodeNew localZone tok)], ds,
     Some (NewError M_DateTimes_DecodeICalValue
             ("unable to decode datetime at index " +:+ itoa i)
             (OfDateTimes ds) (Some e))).
Proof.
  unfold decodeNew. cbn [decodeValuesFrom].
  destruct (DateTime_DecodeICalValue localZone _ tok) as [d e'].
  cbn [fst snd]. now intros ->.
Qed.

Lemma decodeValuesFrom_ok (toks : list string) (h : Heap) (ds : DateTimes) (i : nat) :
  Forall (fun tok => snd (decodeNew localZone tok) = None) toks ->
  decodeValuesFrom localZone h ds i toks
  = (h ++ map (fun tok => fst (decodeNew localZone tok)) toks,
     ds ++ seq (length h) (length toks), None).
Proof.
  revert h ds i. induction toks as [|tok r IH]; intros h ds i Hok.
  - cbn. now rewrite !app_nil_r.
  - inversion Hok as [|? ? Htok Hr]; subst.
    rewrite decodeValuesFrom_cons_ok by exact Htok.
    rewrite IH by exact Hr. rewrite length_app. cbn [length map seq].
    rewrite <- !app_assoc. cbn [app].
    now replace (length h + 1)%nat with (S (length h)) by lia.
Qed.

Lemma decodeValuesFrom_fail (pre : list string) (bad : string) (post : list string)
  (e : error) (h : Heap) (ds : DateTimes) (i : nat) :
  Forall (fun tok => snd (decodeNew localZone tok) = None) pre ->
  snd (decodeNew localZone bad) = Some e ->
  decodeValuesFrom localZone h ds i (pre ++ bad :: post)
  = (h ++ map (fun tok => fst (decodeNew localZone tok)) pre
       ++ [fst (decodeNew localZone bad)],
     ds ++ seq (length h) (length pre),
     Some (NewError M_DateTimes_DecodeICalValue
             ("unable to decode datetime at index " +:+ itoa (i + length pre))
             (OfDateTimes (ds ++ seq (length h) (length pre))) (Some e))).
Proof.
  revert h ds i. induction pre as [|tok r IH]; intros h ds i Hok Hbad.
  - cbn [app length map seq].
    rewrite (decodeValuesFrom_cons_fail _ _ _ _ _ _ Hbad).
    now rewrite !app_nil_r, Nat.add_0_r.
  - inversion Hok as [|? ? Htok Hr]; subst. cbn [app].
    rewrite decodeValuesFrom_cons_ok by exact Htok.
    rewrite (IH _ _ _ Hr Hbad). rewrite length_app. cbn [length map seq].
    rewrite <- !app_assoc. cbn [app].
    replace (length h + 1)%nat with (S (length h)) by lia.
    now replace (S i + length r)%nat with (i + S (length r))%nat by lia.
Qed.

(** C4: [DateTimes.DecodeICalValue] splits the text with the list codec
    and decodes the tokens in order, each into a new DateTime whose
    pointer is appended when the decode succeeds. When the tokens [pre]
    decode and the next token [bad] does not, the call stops there with
    an error that names the index of [bad] and has the error of [bad] as
    its cause; the list then is the former list followed by the pointers
    to the DateTimes decoded from [pre], which hold what was decoded, and
    the DateTimes that were on the heap before are as they were. *)
Theorem DateTimes_DecodeICalValue_partial (h : Heap) (ds : DateTimes)
  (value : string) (pre : list string) (bad : string) (post : list string)
  (e : error) :
  CSV_DecodeICalValue value = (pre ++ bad :: post, None) ->
  Forall (fun tok => snd (decodeNew localZone tok) = None) pre ->
  snd (decodeNew localZone bad) = Some e ->
  exists h',
    DateTimes_DecodeICalValue localZone CSV_DecodeICalValue h ds value
    = (h', ds ++ seq (length h) (length pre),
       Some (NewError M_DateTimes_DecodeICalValue
               ("unable to decode datetime at index " +:+ itoa (length pre))
               (OfDateTimes (ds ++ seq (length h) (length pre))) (Some e)))
    /\ (forall (j : nat) (tok : string),
          pre !! j = Some tok ->
          (ds ++ seq (length h) (length pre)) !! (length ds + j)%nat
          = Some (length h + j)%nat
          /\ h' !! (length h + j)%nat = Some (fst (decodeNew localZone tok)))
    /\ (forall p : addr, (p < length h)%nat -> h' !! p = h !! p).
Proof.
  intros Hcsv Hpre Hbad.
  exists (h ++ map (fun tok => fst (decodeNew localZone tok)) pre
            ++ [fst (decodeNew localZone bad)]).
  split; [|split].
  - unfold DateTimes_DecodeICalValue. rewrite Hcsv.
    now rewrite (decodeValuesFrom_fail pre bad post e h ds O Hpre Hbad).
  - intros j tok Hj. pose proof (lookup_lt_Some _ _ _ Hj) as Hlt. split.
    + rewrite lookup_app_r by lia.
      replace (length ds + j - length ds)%nat with j by lia.
      now apply lookup_seq.
    + rewrite lookup_app_r by lia.
      replace (length h + j - length h)%nat with j by lia.
      rewrite lookup_app_l by (rewrite length_map; exact Hlt).
      now rewrite list_lookup_fmap, Hj.
  - intros p Hp. now rewrite lookup_app_l by exact Hp.
Qed.

Lemma DecodeICalParams_ok_zone (d d' : DateTime) (params : Params) (r : LocationRef) :
  DateTime_DecodeICalParams localZone zoneinfo TimeZoneIdPropertyName d params
  = (d', None) ->
  paramsZone zoneinfo TimeZoneIdPropertyName params = Some r ->
  Time_Location (t d') = r.
Proof.
  unfold DateTime_DecodeICalParams, paramsZone. cbv zeta.
  destruct (params !! TimeZoneIdPropertyName) as [nm|]; [|discriminate].
  destruct (LoadLocation zoneinfo nm) as [r'|err]; [|discriminate].
  destruct (ParseInLocation localZone _ _ r') as [tm|pe] eqn:E; [|discriminate].
  intros H Hr. inversion H; subst. inversion Hr; subst. cbn [t].
  exact (ParseInLocation_loc _ _ _ _ E).
Qed.

Lemma DecodeICalParams_err_same (d d' : DateTime) (params : Params) (e : error) :
  DateTime_DecodeICalParams localZone zoneinfo TimeZoneIdPropertyName d params
  = (d', Some e) -> d' = d.
Proof.
  unfold DateTime_DecodeICalParams. cbv zeta.
  destruct (params !! TimeZoneIdPropertyName) as [nm|]; [|discriminate].
  destruct (LoadLocation zoneinfo nm) as [r'|err]; [|now inversion 1].
  destruct (ParseInLocation localZone _ _ r') as [tm|pe]; [discriminate|].
  now inversion 1.
Qed.

Lemma decodeParamsFrom_err (rest : list addr) (h : Heap) (all : DateTimes) (i : nat)
  (params : Params) (h' : Heap) (err : error) :
  decodeParamsFrom localZone zoneinfo TimeZoneIdPropertyName h all i rest params
  = Some (h', Some err) ->
  exists (k : nat) (p : addr) (d : DateTime) (e : error),
    rest !! k = Some p
    /\ h' !! p = Some d
    /\ DateTime_DecodeICalParams localZone zoneinfo TimeZoneIdPropertyName d params
       = (d, Some e)
    /\ err = NewError M_DateTimes_DecodeICalValue
               ("unable to decode datetime params for index " +:+ itoa (i + k))
               (OfDateTimes all) (Some e)
    /\ (forall q : addr, q ∈ firstn k rest ->
          exists dq, h' !! q = Some dq
                     /\ forall r,
                          paramsZone zoneinfo TimeZoneIdPropertyName params
                          = Some r ->
                          Time_Location (t dq) = r)
    /\ (forall q : addr, q ∉ firstn k rest -> h' !! q = h !! q).
Proof.
  revert h i. induction rest as [|p rest IH]; intros h i H; [discriminate|].
  cbn [decodeParamsFrom] in H.
  destruct (h !! p) as [d|] eqn:Ep; [|discriminate].
  destruct (DateTime_DecodeICalParams _ _ _ d params) as [d' [e|]] eqn:Ed.
  - (* the element at the head fails *)
    pose proof (DecodeICalParams_err_same _ _ _ _ Ed) as ->.
    inversion H; subst. rewrite list_insert_id by exact Ep.
    exists O, p, d, e. rewrite Nat.add_0_r.
    repeat split; try assumption; try reflexivity.
    intros q Hq. cbn in Hq. now apply elem_of_nil in Hq.
  - (* the element at the head is updated; the rest follows *)
    destruct (IH _ _ H) as (k & p' & dp & e & Hk & Hp' & Hdp & -> & Hin & Hout).
    exists (S k), p', dp, e.
    replace (i + S k)%nat with (S i + k)%nat by lia.
    repeat split; try assumption.
    + intros q Hq. cbn [firstn] in Hq.
      destruct (decide (q ∈ firstn k rest)) as [Hq'|Hq']; [now apply Hin|].
      apply elem_of_cons in Hq as [-> | Hq]; [|contradiction].
      exists d'. split.
      * rewrite (Hout _ Hq'). apply list_lookup_insert_eq.
        exact (lookup_lt_Some _ _ _ Ep).
      * intros r Hr. exact (DecodeICalParams_ok_zone _ _ _ _ Ed Hr).
    + intros q Hq. cbn [firstn] in Hq. apply not_elem_of_cons in Hq as [Hne Hq].
      rewrite (Hout _ Hq). now apply list_lookup_insert_ne.
Qed.


(** *** What the errors carry *)

Lemma carries_NewError (m : Method) (c0 : ascii) (msg : string) (context : Instance)
  (cause : option error) (method : option Method) (caused : bool) :
  (forall m0, method = Some m0 -> m = m0) ->
  (if caused then cause <> None else cause = None) ->
  carries (NewError m (String c0 msg) context cause) method context caused.
Proof.
  intros Hm Hc. exists m, (String c0 msg), cause.
  repeat split; try assumption. discriminate.
Qed.

Lemma decodeValuesFrom_carries (toks : list string) (h h' : Heap)
  (ds ds' : DateTimes) (i : nat) (e : error) :
  decodeValuesFrom localZone h ds i toks = (h', ds', Some e) ->
  carries e (Some M_DateTimes_DecodeICalValue) (OfDateTimes ds') true.
Proof.
  revert h ds i. induction toks as [|tok r IH]; intros h ds i H; [discriminate|].
  destruct (snd (decodeNew localZone tok)) as [e0|] eqn:E.
  - rewrite (decodeValuesFrom_cons_fail _ _ _ _ _ _ E) in H.
    inversion H; subst. apply carries_NewError; [now inversion 1|discriminate].
  - rewrite (decodeValuesFrom_cons_ok _ _ _ _ _ E) in H. eauto.
Qed.

(** What the errors do carry: every error returned by [DecodeICalValue],
    [DecodeICalParams] and [ValidateICalValue] of a DateTime and by
    [DecodeICalValue] and [DecodeICalParams] of a list has a non-empty
    message and the receiver as its instance; the errors of the four
    decoders have the underlying error as their cause, those of
    [ValidateICalValue], which have none, a nil cause; and the errors of
    the two [DecodeICalValue] and of [ValidateICalValue] have the method
    that failed as their operation. *)
Lemma error_metadata :
  (forall (d : DateTime) (value : string) (e : error),
     snd (DateTime_DecodeICalValue localZone d value) = Some e ->
     carries e (Some M_DateTime_DecodeICalValue)
       (OfDateTime (fst (DateTime_DecodeICalValue localZone d value))) true)
  /\ (forall (d : DateTime) (params : Params) (e : error),
        snd (DateTime_DecodeICalParams localZone zoneinfo TimeZoneIdPropertyName
               d params) = Some e ->
        carries e None (OfDateTime d) true)
  /\ (forall (d : DateTime) (e : error),
        DateTime_ValidateICalValue localZone d = Some e ->
        carries e (Some M_DateTime_ValidateICalValue) (OfDateTime d) false)
  /\ (forall (h : Heap) (ds : DateTimes) (value : string) (h' : Heap)
        (ds' : DateTimes) (e : error),
        DateTimes_DecodeICalValue localZone CSV_DecodeICalValue h ds value
        = (h', ds', Some e) ->
        carries e (Some M_DateTimes_DecodeICalValue) (OfDateTimes ds') true)
  /\ (forall (h : Heap) (ds : DateTimes) (params : Params) (h' : Heap) (e : error),
        DateTimes_DecodeICalParams localZone zoneinfo TimeZoneIdPropertyName
          h ds params = Some (h', Some e) ->
        carries e None (OfDateTimes ds) true).
Proof.
  repeat split.
  - intros d value e. unfold DateTime_DecodeICalValue. cbv zeta.
    destruct (ParseInLocation localZone _ value UTC) as [tm|pe];
      cbn [fst snd]; intros H; inversion H; subst.
    apply carries_NewError; [now inversion 1|discriminate].
  - intros d params e. unfold DateTime_DecodeICalParams. cbv zeta.
    destruct (params !! TimeZoneIdPropertyName) as [nm|]; [|discriminate].
    destruct (LoadLocation zoneinfo nm) as [r|err].
    + destruct (ParseInLocation localZone _ _ r) as [tm|pe];
        cbn [snd]; intros H; inversion H; subst.
      apply carries_NewError; [discriminate|discriminate].
    + cbn [snd]. intros H; inversion H; subst.
      apply carries_NewError; [discriminate|discriminate].
  - intros d e. unfold DateTime_ValidateICalValue. cbv zeta.
    destruct (isLocal _).
    + intros H; inversion H; subst.
      apply carries_NewError; [now inversion 1|reflexivity].
    + destruct (String.eqb _ _); intros H; inversion H; subst.
      apply carries_NewError; [now inversion 1|reflexivity].
  - intros h ds value h' ds' e. unfold DateTimes_DecodeICalValue.
    destruct (CSV_DecodeICalValue value) as [csv [err|]].
    + intros H; inversion H; subst.
      apply carries_NewError; [now inversion 1|discriminate].
    + apply decodeValuesFrom_carries.
  - intros h ds params h' e H. apply decodeParamsFrom_err in H.
    destruct H as (k & p & d & e0 & _ & _ & _ & -> & _).
    apply carries_NewError; [discriminate|discriminate].
Qed.

End CodecFacts.

(* ================================================================== *)
(** * The properties at concrete values *)
(* ================================================================== *)

Ltac year_in_range := split; apply Z.leb_le; vm_compute; reflexivity.

Lemma UTC_roundtrip_witness :
  loc newYear2024 = UTC
  /\ 0 <= fYear (Time_fields exampleLocal (t (NewDateTime newYear2024))) <= 9999
  /\ exists d,
       DateTime_DecodeICalValue exampleLocal {| t := zeroTime |}
         (fst (DateTime_EncodeICalValue exampleLocal (NewDateTime newYear2024)))
       = (d, None)
       /\ DateTime_Equals d (NewDateTime newYear2024) = true
       /\ t d = t (NewDateTime newYear2024).
Proof.
  split; [reflexivity|]. split; [year_in_range|].
  apply (UTC_roundtrip exampleLocal newYear2024 {| t := zeroTime |});
    [reflexivity|year_in_range].
Defined.

(** C3 as stated fails after year 9999: the DateTime of
    10000-01-01T00:00:00Z is in UTC and of whole seconds, its value is
    written with a five-digit year, and [DecodeICalValue] rejects that
    text. *)
Lemma UTC_roundtrip_counterexample :
  let v := NewDateTime newYear10000 in
  Time_Location (t v) = UTC
  /\ nsec (t v) = 0
  /\ DateTime_EncodeICalValue exampleLocal v = ("100000101T000000Z"%string, None)
  /\ exists e,
       snd (DateTime_DecodeICalValue exampleLocal {| t := zeroTime |}
              (fst (DateTime_EncodeICalValue exampleLocal v))) = Some e.
Proof.
  cbv zeta. split; [reflexivity|]. split; [reflexivity|].
  split; [vm_compute; reflexivity|].
  eexists. vm_compute. reflexivity.
Qed.

Lemma zoned_roundtrip_witness :
  0 <= fYear (Time_fields exampleLocal (t (NewDateTime firstHalfPastOne))) <= 9999
  /\ LoadLocation exampleZoneinfo
       (Location_String exampleLocal (loc firstHalfPastOne))
     = inl (loc firstHalfPastOne)
  /\ wallOffset exampleLocal (loc firstHalfPastOne)
       (wallSeconds exampleLocal firstHalfPastOne)
     = offsetAt exampleLocal (loc firstHalfPastOne) (unixSec firstHalfPastOne)
  /\ exists d1 d2,
       DateTime_DecodeICalValue exampleLocal {| t := zeroTime |}
         (fst (DateTime_EncodeICalValue exampleLocal (NewDateTime firstHalfPastOne)))
       = (d1, None)
       /\ DateTime_DecodeICalParams exampleLocal exampleZoneinfo exampleTZID d1
            (fst (DateTime_EncodeICalParams exampleLocal exampleTZID
                    (NewDateTime firstHalfPastOne)))
          = (d2, None)
       /\ DateTime_Equals d2 (NewDateTime firstHalfPastOne) = true
       /\ Time_Location (t d2) = Time_Location (t (NewDateTime firstHalfPastOne)).
Proof.
  split; [year_in_range|]. split; [reflexivity|]. split; [reflexivity|].
  apply (zoned_roundtrip exampleLocal exampleZoneinfo exampleTZID
           firstHalfPastOne {| t := zeroTime |});
    [year_in_range|reflexivity|reflexivity].
Defined.

(** C1 as stated fails in the hour that a zone repeats: the DateTime of
    the second 01:30:00 of 2024-11-03 in [exampleEastern] is of whole
    seconds and its zone is found again under its name, both passes of
    the decode succeed and restore the zone, but the instant they leave
    is the first 01:30:00, an hour earlier. *)
Lemma zoned_roundtrip_counterexample :
  let v := NewDateTime secondHalfPastOne in
  nsec (t v) = 0
  /\ LoadLocation exampleZoneinfo (Location_String exampleLocal (Time_Location (t v)))
     = inl (Time_Location (t v))
  /\ exists d1 d2,
       DateTime_DecodeICalValue exampleLocal {| t := zeroTime |}
         (fst (DateTime_EncodeICalValue exampleLocal v)) = (d1, None)
       /\ DateTime_DecodeICalParams exampleLocal exampleZoneinfo exampleTZID d1
            (fst (DateTime_EncodeICalParams exampleLocal exampleTZID v))
          = (d2, None)
       /\ Time_Location (t d2) = Time_Location (t v)
       /\ DateTime_Equals d2 v = false
       /\ unixSec (t d2) = unixSec (t v) - 3600.
Proof.
  cbv zeta. split; [reflexivity|]. split; [reflexivity|].
  exists {| t := {| unixSec := 1730597400; nsec := 0; loc := UTC |} |},
         {| t := firstHalfPastOne |}.
  split; [vm_compute; reflexivity|].
  split; [|repeat split].
  unfold DateTime_DecodeICalParams, DateTime_EncodeICalParams. cbn [fst negb isUTC
    Time_Location t NewDateTime Truncate_Second loc secondHalfPastOne].
  rewrite lookup_singleton_eq. vm_compute. reflexivity.
Qed.

Lemma DecodeICalValue_failure_witness :
  exists e,
    snd (DateTime_DecodeICalValue exampleLocal (NewDateTime newYear2024) "not-a-date")
    = Some e
    /\ fst (DateTime_DecodeICalValue exampleLocal (NewDateTime newYear2024) "not-a-date")
       = {| t := zeroTime |}
    /\ exists pe,
         e = NewError M_DateTime_DecodeICalValue "unable to parse datetime value"
               (OfDateTime {| t := zeroTime |}) (Some (ParseErr pe))
         /\ Value pe = "not-a-date"%string.
Proof.
  eexists. split; [vm_compute; reflexivity|].
  apply (DecodeICalValue_failure exampleLocal (NewDateTime newYear2024) "not-a-date").
  vm_compute. reflexivity.
Defined.

(** C5 fails in the code: a DateTime that holds 2024-01-01T00:00:00Z
    holds the zero [Time], a different instant, after the failed decode
    of "not-a-date". *)
Lemma DecodeICalValue_failure_counterexample :
  let d := NewDateTime newYear2024 in
  exists d' e,
    DateTime_DecodeICalValue exampleLocal d "not-a-date" = (d', Some e)
    /\ t d' = zeroTime
    /\ DateTime_Equals d' d = false.
Proof.
  cbv zeta. do 2 eexists. split; [vm_compute; reflexivity|].
  split; reflexivity.
Qed.

Lemma DecodeICalValue_anchors_UTC_witness :
  DateTime_DecodeICalValue exampleLocal {| t := firstHalfPastOne |} "20241103T013000"
  = ({| t := {| unixSec := 1730597400; nsec := 0; loc := UTC |} |}, None)
  /\ Time_Location (t {| t := {| unixSec := 1730597400; nsec := 0; loc := UTC |} |})
     = UTC
  /\ forall (params : Params) (d'' : DateTime) (e : option error),
       DateTime_DecodeICalParams exampleLocal exampleZoneinfo exampleTZID
         {| t := {| unixSec := 1730597400; nsec := 0; loc := UTC |} |} params
       = (d'', e) ->
       Time_Location (t d'') <> UTC ->
       exists nm, params !! exampleTZID = Some nm
                  /\ LoadLocation exampleZoneinfo nm = inl (Time_Location (t d'')).
Proof.
  split; [vm_compute; reflexivity|].
  apply (DecodeICalValue_anchors_UTC exampleLocal exampleZoneinfo exampleTZID
           {| t := firstHalfPastOne |} _ "20241103T013000").
  vm_compute. reflexivity.
Defined.

(** The partial-list example of the specification: of
    "20240101T000000Z,garbage" the first token is decoded and stays in
    the list, the second one fails at index 1. *)
Lemma DateTimes_DecodeICalValue_partial_witness :
  exists e,
    exampleCSV_Decode "20240101T000000Z,garbage"
    = (["20240101T000000Z"%string] ++ "garbage"%string :: [], None)
    /\ Forall (fun tok => snd (decodeNew exampleLocal tok) = None)
         ["20240101T000000Z"%string]
    /\ snd (decodeNew exampleLocal "garbage") = Some e
    /\ exists h',
         DateTimes_DecodeICalValue exampleLocal exampleCSV_Decode [] []
           "20240101T000000Z,garbage"
         = (h', [O],
            Some (NewError M_DateTimes_DecodeICalValue
                    "unable to decode datetime at index 1"
                    (OfDateTimes [O]) (Some e)))
         /\ h' !! O = Some (NewDateTime newYear2024).
Proof.
  eexists. split; [reflexivity|].
  assert (Hpre : Forall (fun tok => snd (decodeNew exampleLocal tok) = None)
                   ["20240101T000000Z"%string]).
  { constructor; [vm_compute; reflexivity|constructor]. }
  split; [exact Hpre|]. split; [vm_compute; reflexivity|].
  destruct (DateTimes_DecodeICalValue_partial exampleLocal exampleCSV_Decode
              [] [] "20240101T000000Z,garbage"
              ["20240101T000000Z"%string] "garbage"%string [] _
              eq_refl Hpre eq_refl) as (h' & Hres & Hpre' & _).
  exists h'. split; [exact Hres|].
  destruct (Hpre' O "20240101T000000Z"%string eq_refl) as [_ Hh'].
  cbn [length Nat.add] in Hh'. rewrite Hh'. vm_compute. reflexivity.
Defined.



(** C7 fails on the operation identity: the error that
    [DecodeICalParams] returns for a timezone identifier that is not in
    the database, and the error that [DateTimes.DecodeICalParams] returns
    for a list with that DateTime, carry the method [DecodeICalValue] as
    the operation, which is not the method that failed. *)
Theorem DecodeICalParams_error_identity :
  (exists msg cause,
     DateTime_DecodeICalParams exampleLocal exampleZoneinfo exampleTZID
       (NewDateTime newYear2024) {[ exampleTZID := "Mars/Olympus"%string ]}
     = (NewDateTime newYear2024,
        Some (UtilsError M_DateTime_DecodeICalValue msg
                (OfDateTime (NewDateTime newYear2024)) cause)))
  /\ (exists h' msg cause,
        DateTimes_DecodeICalParams exampleLocal exampleZoneinfo exampleTZID
          [NewDateTime newYear2024] [O]
          {[ exampleTZID := "Mars/Olympus"%string ]}
        = Some (h', Some (UtilsError M_DateTimes_DecodeICalValue msg
                            (OfDateTimes [O]) cause)))
  /\ M_DateTime_DecodeICalValue <> M_DateTime_DecodeICalParams
  /\ M_DateTimes_DecodeICalValue <> M_DateTimes_DecodeICalParams.
Proof.
  split; [|split; [|split; discriminate]].
  - unfold DateTime_DecodeICalParams. rewrite lookup_singleton_eq.
    do 2 eexists. vm_compute. reflexivity.
  - unfold DateTimes_DecodeICalParams, decodeParamsFrom,
      DateTime_DecodeICalParams.
    cbn [lookup list_lookup]. rewrite lookup_singleton_eq.
    do 3 eexists. vm_compute. reflexivity.
Qed.

(** A validation error has no underlying cause: the one for a DateTime
    in the local zone carries its method, a message, the instance and a
    nil cause. *)
Example ValidateICalValue_error_example :
  let d := {| t := {| unixSec := 1704067200; nsec := 0; loc := Local |} |} in
  DateTime_ValidateICalValue exampleLocal d
  = Some (UtilsError M_DateTime_ValidateICalValue
            "DateTime location may not Local, please use UTC or explicit Location"
            (OfDateTime d) None).
Proof. reflexivity. Qed.

(** The examples of the specification for single values and lists. *)
Example decode_UTC_example :
  DateTime_DecodeICalValue exampleLocal {| t := zeroTime |} "20240101T000000Z"
  = (NewDateTime newYear2024, None).
Proof. vm_compute. reflexivity. Qed.

Example decode_list_example :
  DateTimes_DecodeICalValue exampleLocal exampleCSV_Decode [] []
    "20240101T000000Z,20240102T000000Z"
  = ([ {| t := {| unixSec := 1704067200; nsec := 0; loc := UTC |} |};
       {| t := {| unixSec := 1704153600; nsec := 0; loc := UTC |} |} ],
     [O; 1%nat], None).
Proof. vm_compute. reflexivity. Qed.

Example encode_list_example :
  DateTimes_EncodeICalValue exampleLocal exampleCSV_Encode
    [ {| t := {| unixSec := 1704067200; nsec := 0; loc := UTC |} |};
      {| t := {| unixSec := 1704153600; nsec := 0; loc := UTC |} |} ]
    [O; 1%nat]
  = Some ("20240101T000000Z,20240102T000000Z"%string, None).
Proof. vm_compute. reflexivity. Qed.

Example encode_fullday_examples :
  DateTimeFullDay_EncodeICalValue exampleLocal (NewDateTimeFullDay newYear2024)
  = ("20240101Z"%string, None)
  /\ DateTimeFullDay_EncodeICalValue exampleLocal
       (NewDateTimeFullDay firstHalfPastOne)
     = ("20241103"%string, None).
Proof. split; vm_compute; reflexivity. Qed.

Example validate_examples :
  DateTime_ValidateICalValue exampleLocal (NewDateTime newYear2024) = None
  /\ DateTime_ValidateICalValue exampleLocal
       {| t := {| unixSec := 0; nsec := 0; loc := Local |} |} <> None.
Proof. split; [reflexivity|discriminate]. Qed.

(* ================================================================== *)
(** * Properties, continued: the texts, lists, parameters *)
(* ================================================================== *)

(** ** The calendar: [absDate] inverts [Date] *)

Lemma date_all : allBelow 148800 dateOk = true.
Proof. vm_compute. reflexivity. Qed.

Lemma daysIn_le_31 (m y : Z) : 1 <= m <= 12 -> daysIn m y <= 31.
Proof.
  intros Hm. unfold daysIn.
  destruct ((m =? February) && isLeap y); [lia|].
  assert (m = 1 \/ m = 2 \/ m = 3 \/ m = 4 \/ m = 5 \/ m = 6 \/ m = 7
          \/ m = 8 \/ m = 9 \/ m = 10 \/ m = 11 \/ m = 12) as Hc by lia.
  repeat (destruct Hc as [-> | Hc]; [vm_compute; discriminate|]).
  subst m. vm_compute. discriminate.
Qed.

(** [absDate] reads back the date that [Date] counted: for a date of the
    calendar, every second of its day has that date. *)
Lemma absDate_civilDays (y m d abs : Z) :
  1 <= m <= 12 -> 1 <= d <= daysIn m y ->
  abs / secondsPerDay = civilDays y m d ->
  absDate abs = (y, m, d).
Proof.
  intros Hm Hd Habs.
  pose proof (daysIn_le_31 m y Hm) as H31.
  set (Y := y - absoluteZeroYear).
  set (n := Y / 400).
  set (yr := Y - 400 * n).
  assert (Hyr : 0 <= yr < 400).
  { unfold yr, n. pose proof (Z.mod_pos_bound Y 400 eq_refl) as Hb.
    rewrite Z.mod_eq in Hb by discriminate. exact Hb. }
  assert (Hy : y = yr + 1 + 400 * (n - 730692556))
    by (unfold yr, Y, absoluteZeroYear; lia).
  assert (Hleap : isLeap y = isLeap (yr + 1)).
  { rewrite Hy at 1. apply isLeap_shift. }
  assert (Hin : daysIn m y = daysIn m (yr + 1)).
  { unfold daysIn. now rewrite Hleap. }
  set (k := yr * 372 + (m - 1) * 31 + (d - 1)).
  assert (Hk : 0 <= k < 148800) by (unfold k; lia).
  pose proof (allBelow_spec _ _ date_all k Hk) as Hok.
  unfold dateOk in Hok.
  assert (Hk1 : k / 372 = yr).
  { symmetry. apply (Z.div_unique k 372 yr ((m - 1) * 31 + (d - 1)));
      [left|unfold k]; lia. }
  assert (Hk2 : k mod 372 = (m - 1) * 31 + (d - 1)).
  { symmetry. apply (Z.mod_unique k 372 yr); [left|unfold k]; lia. }
  assert (Hk3 : (k mod 372) / 31 + 1 = m).
  { rewrite Hk2.
    rewrite <- (Z.div_unique ((m - 1) * 31 + (d - 1)) 31 (m - 1) (d - 1));
      [|left|]; lia. }
  assert (Hk4 : k mod 31 + 1 = d).
  { rewrite <- (Z.mod_unique k 31 (yr * 12 + (m - 1)) (d - 1));
      [|left|unfold k]; lia. }
  cbv zeta in Hok. rewrite Hk1, Hk3, Hk4, <- Hin in Hok.
  replace (d <=? daysIn m y) with true in Hok
    by (symmetry; apply Z.leb_le; lia).
  repeat (apply andb_true_iff in Hok as [Hok ?]).
  repeat match goal with
         | H : (_ <=? _) = true |- _ => apply Z.leb_le in H
         | H : (_ <? _) = true |- _ => apply Z.ltb_lt in H
         | H : (_ =? _) = true |- _ => apply Z.eqb_eq in H
         end.
  set (r := yearDays yr + daysBeforeAt (m - 1)
            + (if isLeap (yr + 1) && (March <=? m) then 1 else 0) + (d - 1)) in *.
  assert (HD : abs / secondsPerDay = daysPer400Years * n + r).
  { rewrite Habs. unfold civilDays. rewrite daysSinceEpoch_split. cbv zeta.
    fold Y. fold n. fold yr. rewrite Hleap. unfold r. ring. }
  rewrite absDate_split. cbv zeta. rewrite HD.
  assert (Hn : (daysPer400Years * n + r) / daysPer400Years = n).
  { symmetry. apply (Z.div_unique _ daysPer400Years n r);
      [left; unfold daysPer400Years|]; lia. }
  rewrite Hn.
  replace (daysPer400Years * n + r - daysPer400Years * n) with r by ring.
  match goal with H : fst (yearInCycle r) = yr |- _ => rewrite H end.
  replace (yr + 400 * n + absoluteZeroYear) with y
    by (unfold yr, Y; ring).
  rewrite Hleap.
  f_equal; [f_equal|]; assumption.
Qed.

(** ** The fields that [Parse] accepts *)

Lemma isDigitChar_val (c : ascii) :
  isDigitChar c = true -> 0 <= byteVal c - 48 <= 9.
Proof.
  unfold isDigitChar. intros H. apply andb_true_iff in H as [H1 H2].
  apply Z.leb_le in H1, H2. lia.
Qed.

Lemma leadingInt_bound (s : string) (x q : Z) (r : string) :
  0 <= x -> leadingInt s x = Some (q, r) ->
  0 <= q < (x + 1) * 10 ^ Z.of_nat (String.length s).
Proof.
  revert x. induction s as [|c s IH]; intros x Hx H; cbn [leadingInt] in H.
  - inversion H; subst. cbn. lia.
  - assert (Hp : 0 < 10 ^ Z.of_nat (String.length s))
      by (apply Z.pow_pos_nonneg; lia).
    cbn [String.length]. rewrite Nat2Z.inj_succ, Z.pow_succ_r by lia.
    destruct (isDigitChar c) eqn:Ec.
    + destruct (_ <? x); [discriminate|].
      destruct (2 ^ 63 <? _); [discriminate|].
      pose proof (isDigitChar_val c Ec) as Hv.
      apply IH in H; [|lia]. nia.
    + inversion H; subst. nia.
Qed.

Lemma isDigitChar_not_sign (c : ascii) :
  isDigitChar c = true -> c <> "-"%char /\ c <> "+"%char.
Proof. intros H. split; intros ->; discriminate H. Qed.

(** [atoi] of a text that starts with a digit is below ten to the power
    of its length. *)
Lemma atoi_bound (s : string) (y : Z) :
  isDigit s 0 = true -> atoi s = Some y ->
  0 <= y < 10 ^ Z.of_nat (String.length s).
Proof.
  unfold isDigit, atoi. destruct s as [|c s]; [discriminate|].
  cbn [String.get]. intros Hc.
  destruct (isDigitChar_not_sign c Hc) as [H1 H2].
  destruct (ascii_dec c "-"); [contradiction|].
  destruct (ascii_dec c "+"); [contradiction|].
  destruct (leadingInt (String c s) 0) as [[q r]|] eqn:E; [|discriminate].
  destruct r; [|discriminate]. intros H; inversion H; subst.
  apply leadingInt_bound in E; lia.
Qed.

Lemma take_length (n : nat) (s : string) :
  (String.length (take n s) <= n)%nat.
Proof.
  revert s. induction n as [|n IH]; intros s; [cbn; lia|].
  destruct s as [|c s]; cbn [take String.length]; [lia|].
  specialize (IH s). lia.
Qed.

Lemma getnum_range (s : string) (fixed : bool) (n : Z) (rest : string) :
  getnum s fixed = Some (n, rest) -> 0 <= n <= 99.
Proof.
  unfold getnum, isDigit. destruct s as [|c0 s]; [discriminate|].
  cbn [String.get]. destruct (isDigitChar c0) eqn:E0; [|discriminate].
  cbn [negb]. pose proof (isDigitChar_val c0 E0) as Hv0.
  destruct s as [|c1 s]; cbn [String.get negb].
  - destruct fixed; [discriminate|]. intros H; inversion H; subst. lia.
  - destruct (isDigitChar c1) eqn:E1; cbn [negb].
    + pose proof (isDigitChar_val c1 E1) as Hv1.
      intros H; inversion H; subst. lia.
    + destruct fixed; [discriminate|]. intros H; inversion H; subst. lia.
Qed.

Lemma parseNanoseconds_range (value : string) (n : nat) (ns : Z) :
  (2 <= n)%nat -> isDigit value 1 = true ->
  parseNanoseconds value n = (ns, EmptyString, false) ->
  0 <= ns < 1000000000.
Proof.
  intros Hn Hd. unfold parseNanoseconds.
  set (vn := if (10 <? n)%nat then (take 10 value, 10%nat) else (value, n)).
  assert (Hvn : (2 <= snd vn <= 10)%nat /\ isDigit (fst vn) 1 = true).
  { unfold vn. destruct (10 <? n)%nat eqn:E; cbn [fst snd].
    - split; [lia|]. unfold isDigit in *.
      destruct value as [|c0 [|c1 v]]; try discriminate. exact Hd.
    - apply Nat.ltb_ge in E. split; [lia|exact Hd]. }
  destruct vn as [v nb]. cbn [fst snd] in Hvn. destruct Hvn as [Hnb Hv].
  destruct (atoi _) as [a|] eqn:Ea; [|discriminate].
  assert (Hdig : isDigit (take (nb - 1) (drop 1 v)) 0 = true).
  { unfold isDigit in *. destruct v as [|c0 [|c1 v]]; try discriminate.
    cbn [drop]. destruct (nb - 1)%nat eqn:En; [lia|]. exact Hv. }
  pose proof (atoi_bound _ _ Hdig Ea) as Hb.
  pose proof (take_length (nb - 1) (drop 1 v)) as Hl.
  destruct (a <? 0) eqn:Elt; [discriminate|].
  intros H; inversion H; subst.
  assert (Hpow : 10 ^ Z.of_nat (String.length (take (nb - 1) (drop 1 v)))
                 <= 10 ^ Z.of_nat (nb - 1)).
  { apply Z.pow_le_mono_r; lia. }
  assert (Hsplit : 10 ^ Z.of_nat (nb - 1) * 10 ^ Z.of_nat (10 - nb)
                   = 1000000000).
  { rewrite <- Z.pow_add_r by lia.
    replace (Z.of_nat (nb - 1) + Z.of_nat (10 - nb)) with 9 by lia.
    reflexivity. }
  assert (Hp : 0 < 10 ^ Z.of_nat (10 - nb)) by (apply Z.pow_pos_nonneg; lia).
  nia.
Qed.

(** A verb that succeeds keeps the fields in their ranges. *)
Lemma parseStd_fieldsOk (s : std) (f f' : fields) (value value' : string) :
  parseStd s f value = (f', value', EmptyString, false) ->
  fieldsOk f -> fieldsOk f'.
Proof.
  unfold fieldsOk.
  intros H (Hy & Hm & Hd & Hh & Hmi & Hs & Hn).
  destruct s; unfold parseStd in H.
  - inversion H; subst. tauto.
  - destruct (_ <? 4) eqn:El; [discriminate|]. cbn [orb] in H.
    destruct (isDigit value 0) eqn:Ed; [|discriminate]. cbn [negb] in H.
    destruct (atoi _) as [y|] eqn:Ea; [|discriminate].
    inversion H; subst. cbn.
    assert (Hd4 : isDigit (take 4 value) 0 = true).
    { unfold isDigit in *. destruct value; [discriminate|exact Ed]. }
    pose proof (atoi_bound _ _ Hd4 Ea) as Hb.
    pose proof (take_length 4 value) as Hl.
    assert (10 ^ Z.of_nat (String.length (take 4 value)) <= 10 ^ 4)
      by (apply Z.pow_le_mono_r; lia).
    repeat split; try tauto; lia.
  - destruct (getnum value true) as [[m rest]|] eqn:E; [|discriminate].
    destruct (m <=? 0) eqn:E1; [discriminate|].
    destruct (12 <? m) eqn:E2; [discriminate|].
    inversion H; subst. cbn. apply Z.leb_gt in E1. apply Z.ltb_ge in E2.
    repeat split; try tauto; lia.
  - destruct (getnum value true) as [[d rest]|] eqn:E; [|discriminate].
    pose proof (getnum_range _ _ _ _ E) as Hr.
    inversion H; subst. cbn. repeat split; try tauto; lia.
  - destruct (getnum value false) as [[h rest]|] eqn:E; [|discriminate].
    destruct (h <? 0) eqn:E1; [discriminate|].
    destruct (24 <=? h) eqn:E2; [discriminate|].
    inversion H; subst. cbn. apply Z.ltb_ge in E1. apply Z.leb_gt in E2.
    repeat split; try tauto; lia.
  - destruct (getnum value true) as [[m rest]|] eqn:E; [|discriminate].
    destruct (m <? 0) eqn:E1; [discriminate|].
    destruct (60 <=? m) eqn:E2; [discriminate|].
    inversion H; subst. cbn. apply Z.ltb_ge in E1. apply Z.leb_gt in E2.
    repeat split; try tauto; lia.
  - destruct (getnum value true) as [[sc rest]|] eqn:E; [|discriminate].
    destruct (sc <? 0) eqn:E1; [discriminate|].
    destruct (60 <=? sc) eqn:E2; [discriminate|]. cbn [orb] in H.
    apply Z.ltb_ge in E1. apply Z.leb_gt in E2.
    destruct rest as [|c0 r0].
    + inversion H; subst. cbn. repeat split; try tauto; lia.
    + destruct ((2 <=? len (String c0 r0)) && commaOrPeriod c0
                && isDigit (String c0 r0) 1) eqn:Efrac.
      * destruct (parseNanoseconds _ _) as [[ns rangeErr] bad] eqn:Ens.
        inversion H; subst.
        apply andb_true_iff in Efrac as [_ Hdig].
        assert (Hrun : (1 <= digitRun r0)%nat).
        { unfold isDigit in Hdig. destruct r0 as [|c1 r1]; [discriminate|].
          cbn [String.get] in Hdig. cbn [digitRun]. rewrite Hdig. lia. }
        apply parseNanoseconds_range in Ens; [|lia|exact Hdig].
        cbn. repeat split; try tauto; lia.
      * inversion H; subst. cbn. repeat split; try tauto; lia.
Qed.

Lemma parseLoop_fieldsOk (fuel : nat) (al av layout value : string)
  (f f' : fields) :
  parseLoop fuel al av layout value f = inl f' -> fieldsOk f -> fieldsOk f'.
Proof.
  revert layout value f.
  induction fuel as [|k IH]; intros layout value f H Hf.
  - inversion H; subst. exact Hf.
  - rewrite parseLoop_S in H.
    destruct (nextStdChunk layout) as [[prefix s] suffix].
    destruct (skip _ value prefix) as [value' ok].
    destruct (negb ok); [discriminate|].
    assert (Hgo : forall s',
      (let '(f, value, rangeErr, bad) := parseStd s' f value' in
       if negb (String.eqb rangeErr EmptyString) then
         inr {| Layout := al; Value := av;
                LayoutElem := stdText layout prefix suffix;
                ValueElem := value;
                Message := ": " +:+ rangeErr +:+ " out of range" |}
       else if bad then
         inr {| Layout := al; Value := av;
                LayoutElem := stdText layout prefix suffix;
                ValueElem := value'; Message := EmptyString |}
       else parseLoop k al av suffix value f) = inl f' ->
      fieldsOk f').
    { intros s' Hs'.
      destruct (parseStd s' f value') as [[[f1 v1] r1] b1] eqn:E.
      destruct (String.eqb r1 EmptyString) eqn:Er; [|discriminate].
      apply String.eqb_eq in Er. subst r1. cbn [negb] in Hs'.
      destruct b1; [discriminate|].
      eapply IH; [exact Hs'|]. eapply parseStd_fieldsOk; eauto. }
    destruct s; try (apply Hgo in H; exact H).
    destruct (negb _); [discriminate|]. inversion H; subst. exact Hf.
Qed.

(** The fields that [Parse] hands to [Date] are a date of the calendar
    with a year from 0 to 9999 and a time of the day. *)
Lemma parseFields_valid (layout value : string) (f : fields) :
  parseFields layout value = inl f ->
  0 <= fYear f <= 9999 /\ 1 <= fMonth f <= 12
  /\ 1 <= fDay f <= daysIn (fMonth f) (fYear f)
  /\ 0 <= fHour f < 24 /\ 0 <= fMin f < 60 /\ 0 <= fSec f < 60
  /\ 0 <= fNsec f < 1000000000.
Proof.
  unfold parseFields. intros H.
  destruct (parseLoop _ _ _ _ _ _) as [f1|e] eqn:E; [|discriminate].
  assert (H0 : fieldsOk fields0) by (unfold fieldsOk; cbn; lia).
  pose proof (parseLoop_fieldsOk _ _ _ _ _ _ _ E H0) as H1. clear E H0.
  set (f2 := if fMonth f1 <? 0 then setMonth f1 1 else f1) in H.
  assert (H2 : fieldsOk f2 /\ 1 <= fMonth f2 <= 12).
  { unfold f2, fieldsOk in *. destruct (fMonth f1 <? 0) eqn:Em; cbn.
    - split; [|lia]. repeat split; try tauto; lia.
    - apply Z.ltb_ge in Em. split; [tauto|]. lia. }
  set (f3 := if fDay f2 <? 0 then setDay f2 1 else f2) in H.
  assert (H3 : fieldsOk f3 /\ 1 <= fMonth f3 <= 12).
  { unfold f3, fieldsOk in *. destruct (fDay f2 <? 0) eqn:Ed; cbn.
    - split; [|tauto]. repeat split; try tauto; lia.
    - tauto. }
  destruct (fDay f3 <? 1) eqn:E1; [discriminate|].
  destruct (daysIn _ _ <? fDay f3) eqn:E2; [discriminate|].
  cbn [orb] in H. inversion H; subst.
  apply Z.ltb_ge in E1, E2. unfold fieldsOk in H3. repeat split; tauto || lia.
Qed.

(** ** What a successful decode leaves in the receiver *)

Lemma absClock_of (D h mi s : Z) :
  0 <= h < 24 -> 0 <= mi < 60 -> 0 <= s < 60 ->
  (D * secondsPerDay + (h * secondsPerHour + mi * secondsPerMinute + s))
    / secondsPerDay = D
  /\ absClock (D * secondsPerDay
               + (h * secondsPerHour + mi * secondsPerMinute + s)) = (h, mi, s).
Proof.
  intros Hh Hmi Hs.
  set (c := h * secondsPerHour + mi * secondsPerMinute + s).
  assert (Hc : 0 <= c < secondsPerDay)
    by (unfold c, secondsPerDay, secondsPerHour, secondsPerMinute; lia).
  assert (Hdiv : (D * secondsPerDay + c) / secondsPerDay = D).
  { symmetry. apply (Z.div_unique _ secondsPerDay D c); [left|]; lia. }
  assert (Hmod : (D * secondsPerDay + c) mod secondsPerDay = c).
  { symmetry. apply (Z.mod_unique _ secondsPerDay D c); [left|]; lia. }
  split; [exact Hdiv|].
  unfold absClock. rewrite Hmod. cbv zeta.
  assert (Hh' : c / secondsPerHour = h).
  { symmetry. apply (Z.div_unique c secondsPerHour h (mi * secondsPerMinute + s));
      [left; unfold secondsPerHour, secondsPerMinute|unfold c]; lia. }
  rewrite Hh'.
  replace (c - h * secondsPerHour) with (mi * secondsPerMinute + s)
    by (unfold c; ring).
  assert (Hmi' : (mi * secondsPerMinute + s) / secondsPerMinute = mi).
  { symmetry. apply (Z.div_unique _ secondsPerMinute mi s);
      [left; unfold secondsPerMinute|]; lia. }
  rewrite Hmi'. f_equal. ring.
Qed.

Section DateFacts.

Variable localZone : Location.

(** The wall clock of [Date] in UTC shows the fields it was made from. *)
Lemma Time_fields_Date_UTC (f : fields) :
  validFields f ->
  Time_fields localZone
    (Date localZone (fYear f) (fMonth f) (fDay f) (fHour f) (fMin f) (fSec f)
       (fNsec f) UTC) = f.
Proof.
  intros (Hy & Hm & Hd & Hh & Hmi & Hs & Hn).
  unfold Date, civilSeconds.
  rewrite (norm_id (fYear f) (fMonth f - 1) 12) by lia. cbv beta iota zeta.
  rewrite (norm_id (fSec f) (fNsec f) 1000000000) by lia. cbv beta iota zeta.
  rewrite (norm_id (fMin f) (fSec f) 60) by lia. cbv beta iota zeta.
  rewrite (norm_id (fHour f) (fMin f) 60) by lia. cbv beta iota zeta.
  rewrite (norm_id (fDay f) (fHour f) 24) by lia. cbv beta iota zeta.
  replace (fMonth f - 1 + 1) with (fMonth f) by ring.
  unfold Time_fields, Time_abs. cbn [unixSec loc nsec].
  rewrite wallOffset_UTC, offsetAt_UTC.
  set (D := (if isLeap (fYear f) && (March <=? fMonth f)
             then daysSinceEpoch (fYear f) + daysBeforeAt (fMonth f - 1) + 1
             else daysSinceEpoch (fYear f) + daysBeforeAt (fMonth f - 1))
            + (fDay f - 1)).
  assert (HD : D = civilDays (fYear f) (fMonth f) (fDay f)).
  { unfold D, civilDays. destruct (isLeap _ && _); ring. }
  match goal with
  | |- context [absDate ?a] =>
      replace a with (D * secondsPerDay
                      + (fHour f * secondsPerHour
                         + fMin f * secondsPerMinute + fSec f))
        by (unfold internalToAbsolute, internalToUnix; ring)
  end.
  destruct (absClock_of D (fHour f) (fMin f) (fSec f) Hh Hmi Hs) as [Hdiv Hclk].
  rewrite Hclk.
  rewrite (absDate_civilDays (fYear f) (fMonth f) (fDay f) _ Hm Hd)
    by (rewrite Hdiv; exact HD).
  destruct f; reflexivity.
Qed.

(** What a successful [DecodeICalValue] leaves in the receiver: the
    instant that [Date] makes in UTC of the fields read from the text,
    which are a date of the calendar with a year from 0 to 9999 and a
    time of the day, and which its wall clock shows. *)
Lemma DecodeICalValue_ok_fields (d d' : DateTime) (value : string) :
  DateTime_DecodeICalValue localZone d value = (d', None) ->
  Time_Location (t d') = UTC
  /\ validFields (Time_fields localZone (t d'))
  /\ nsec (t d') = fNsec (Time_fields localZone (t d')).
Proof.
  unfold DateTime_DecodeICalValue. cbv zeta.
  set (layout := if HasSuffix value "Z" then UTCDateTimeFormatString
                 else if len value =? 8 then DateFormatString
                 else DateTimeFormatString).
  unfold ParseInLocation.
  destruct (parseFields layout value) as [f|e] eqn:E; [|discriminate].
  intros H; inversion H; subst. cbn [t].
  pose proof (parseFields_valid _ _ _ E) as Hv.
  rewrite (Time_fields_Date_UTC f Hv).
  split; [|split; [exact Hv|]].
  - unfold Date. destruct (civilSeconds _ _ _ _ _ _ _). reflexivity.
  - destruct Hv as (Hy & Hm & Hd & Hh & Hmi & Hs & Hn).
    unfold Date, civilSeconds.
    rewrite (norm_id (fYear f) (fMonth f - 1) 12) by lia. cbv beta iota zeta.
    rewrite (norm_id (fSec f) (fNsec f) 1000000000) by lia. cbv beta iota zeta.
    rewrite (norm_id (fMin f) (fSec f) 60) by lia. cbv beta iota zeta.
    rewrite (norm_id (fHour f) (fMin f) 60) by lia. cbv beta iota zeta.
    rewrite (norm_id (fDay f) (fHour f) 24) by lia. reflexivity.
Qed.

End DateFacts.

(** ** Further properties of the codec of one value *)

Section MoreCodecFacts.

Variable localZone : Location.
Variable zoneinfo : string -> option Location.
Variable TimeZoneIdPropertyName : string.

(** The value text is written from the seconds and the zone alone: the
    fraction of a second makes no difference. *)
Lemma Format_Truncate (tm : Time) :
  Format localZone (Truncate_Second tm) DateTimeFormatString
  = Format localZone tm DateTimeFormatString.
Proof.
  unfold Format. rewrite !appendFormat_DateTime.
  unfold Time_fields, Time_abs, Truncate_Second. cbn [unixSec loc nsec].
  destruct (absDate _) as [[y m] d]. destruct (absClock _) as [[h mi] s].
  reflexivity.
Qed.

Lemma fYear_Truncate (tm : Time) :
  fYear (Time_fields localZone (Truncate_Second tm))
  = fYear (Time_fields localZone tm).
Proof.
  unfold Time_fields, Time_abs, Truncate_Second. cbn [unixSec loc nsec].
  destruct (absDate _) as [[y m] d]. destruct (absClock _) as [[h mi] s].
  reflexivity.
Qed.

(** X1: two DateTimes made by [NewDateTime] are [Equals] exactly when
    their instants lie in the same second, whatever their zones and the
    fractions of a second they were made from. *)
Theorem NewDateTime_Equals (a b : Time) :
  DateTime_Equals (NewDateTime a) (NewDateTime b) = true
  <-> unixSec a = unixSec b.
Proof.
  unfold DateTime_Equals, Time_Equal, NewDateTime, Truncate_Second.
  cbn [t unixSec nsec]. rewrite andb_true_iff, !Z.eqb_eq.
  split; [intros [H _]; exact H|intros H; split; [exact H|reflexivity]].
Qed.

(** [DecodeICalValue] gives back a DateTime of whole seconds in UTC with
    a year from 0 to 9999 from the text of its value. *)
Lemma decode_encoded_UTC (tm : Time) (d0 : DateTime) :
  loc tm = UTC -> nsec tm = 0 ->
  0 <= fYear (Time_fields localZone tm) <= 9999 ->
  DateTime_DecodeICalValue localZone d0
    (fst (DateTime_EncodeICalValue localZone {| t := tm |}))
  = ({| t := tm |}, None).
Proof.
  intros Hl Hns Hy. unfold DateTime_DecodeICalValue, DateTime_EncodeICalValue.
  cbn [t fst]. unfold Time_Location. rewrite Hl. cbn [isUTC]. cbv zeta.
  rewrite sniff_encoded_UTC.
  rewrite (ParseInLocation_Format localZone tm "Z" UTC Hns Hy) by auto.
  rewrite wallOffset_UTC. unfold wallSeconds. rewrite Hl, offsetAt_UTC.
  replace (unixSec tm + 0 - 0) with (unixSec tm) by ring.
  destruct tm as [u n l]. cbn in Hns, Hl. subst. reflexivity.
Qed.

(** X2: [EncodeICalValue] tells apart the DateTimes of UTC with years
    from 0 to 9999: two such DateTimes made by [NewDateTime] that have the
    same value text are [Equals]. *)
Theorem EncodeICalValue_UTC_injective (a b : Time) :
  loc a = UTC -> loc b = UTC ->
  0 <= fYear (Time_fields localZone (t (NewDateTime a))) <= 9999 ->
  0 <= fYear (Time_fields localZone (t (NewDateTime b))) <= 9999 ->
  fst (DateTime_EncodeICalValue localZone (NewDateTime a))
  = fst (DateTime_EncodeICalValue localZone (NewDateTime b)) ->
  DateTime_Equals (NewDateTime a) (NewDateTime b) = true.
Proof.
  intros Ha Hb Hya Hyb Htext. unfold NewDateTime in *. cbn [t] in Hya, Hyb.
  pose proof (decode_encoded_UTC (Truncate_Second a) {| t := zeroTime |}
                Ha eq_refl Hya) as Da.
  pose proof (decode_encoded_UTC (Truncate_Second b) {| t := zeroTime |}
                Hb eq_refl Hyb) as Db.
  rewrite Htext, Db in Da. inversion Da as [Heq].
  unfold DateTime_Equals, Time_Equal. cbn [t unixSec nsec Truncate_Second].
  now rewrite Heq, !Z.eqb_refl.
Qed.

(** X3: whatever [DecodeICalValue] decoded can be encoded in the text
    grammar and is marked as UTC: the year of the decoded DateTime is
    from 0 to 9999, its value text has 16 bytes and ends in Z, and its
    parameters are empty. *)
Theorem DecodeICalValue_reencodes (d d' : DateTime) (value : string) :
  DateTime_DecodeICalValue localZone d value = (d', None) ->
  0 <= fYear (Time_fields localZone (t d')) <= 9999
  /\ String.length (fst (DateTime_EncodeICalValue localZone d')) = 16%nat
  /\ HasSuffix (fst (DateTime_EncodeICalValue localZone d')) "Z" = true
  /\ DateTime_EncodeICalParams localZone TimeZoneIdPropertyName d' = (∅, None).
Proof.
  intros H. destruct (DecodeICalValue_ok_fields localZone _ _ _ H)
    as (HU & (Hy & _) & _).
  split; [exact Hy|].
  destruct (EncodeICalValue_length localZone d' Hy) as [Hlen _].
  rewrite HU in Hlen. cbn [isUTC] in Hlen. split; [exact Hlen|].
  unfold DateTime_EncodeICalValue, DateTime_EncodeICalParams.
  rewrite HU. cbn [isUTC negb fst]. split; [|reflexivity].
  apply HasSuffix_append_Z.
Qed.

(** X4: decoding again the value text of a decoded DateTime gives the
    DateTime back, cut to whole seconds: a fraction of a second that the
    first text held is the only thing that the text does not keep. *)
Theorem DecodeICalValue_redecode (d d' d0 : DateTime) (value : string) :
  DateTime_DecodeICalValue localZone d value = (d', None) ->
  DateTime_DecodeICalValue localZone d0
    (fst (DateTime_EncodeICalValue localZone d'))
  = (NewDateTime (t d'), None).
Proof.
  intros H. destruct (DecodeICalValue_ok_fields localZone _ _ _ H)
    as (HU & (Hy & _) & _).
  pose proof (decode_encoded_UTC (Truncate_Second (t d')) d0 HU eq_refl) as Hd.
  assert (Hy' : 0 <= fYear (Time_fields localZone (Truncate_Second (t d')))
                <= 9999) by (rewrite fYear_Truncate; exact Hy).
  specialize (Hd Hy').
  unfold DateTime_EncodeICalValue in *. cbn [t fst] in *.
  rewrite Format_Truncate in Hd. exact Hd.
Qed.

(** X5: [ValidateICalValue] accepts whatever [DecodeICalValue] leaves in
    the receiver, after a failed decode as well as after a successful
    one: validation does not tell a failed decode. *)
Theorem Validate_after_DecodeICalValue (d : DateTime) (value : string) :
  DateTime_ValidateICalValue localZone
    (fst (DateTime_DecodeICalValue localZone d value)) = None.
Proof.
  unfold DateTime_DecodeICalValue. cbv zeta.
  destruct (ParseInLocation localZone _ value UTC) as [tm|pe] eqn:E;
    cbn [fst]; unfold DateTime_ValidateICalValue, Time_Location; cbn [t].
  - now rewrite (ParseInLocation_loc _ _ _ _ _ E).
  - reflexivity.
Qed.

(** X6: [DecodeICalParams] that succeeds with a timezone identifier [nm]
    leaves a DateTime that [ValidateICalValue] accepts, except for the
    identifier "Local", which puts the DateTime in the local zone that
    validation refuses. *)
Theorem Validate_after_DecodeICalParams (d d' : DateTime) (params : Params)
  (nm : string) :
  params !! TimeZoneIdPropertyName = Some nm ->
  DateTime_DecodeICalParams localZone zoneinfo TimeZoneIdPropertyName d params
  = (d', None) ->
  (nm = "Local"%string ->
   DateTime_ValidateICalValue localZone d' <> None)
  /\ (nm <> "Local"%string ->
      DateTime_ValidateICalValue localZone d' = None).
Proof.
  intros Hnm. unfold DateTime_DecodeICalParams. cbv zeta. rewrite Hnm.
  destruct (LoadLocation zoneinfo nm) as [r|err] eqn:El; [|discriminate].
  destruct (ParseInLocation localZone _ _ r) as [tm|pe] eqn:E; [|discriminate].
  intros H; inversion H; subst.
  pose proof (ParseInLocation_loc _ _ _ _ _ E) as Hloc.
  unfold DateTime_ValidateICalValue, Time_Location. cbn [t]. rewrite Hloc.
  unfold LoadLocation in El.
  destruct (String.eqb nm EmptyString || String.eqb nm "UTC") eqn:E1.
  - inversion El; subst. cbn [isLocal].
    split; [|reflexivity]. intros ->. vm_compute in E1. discriminate E1.
  - destruct (String.eqb nm "Local") eqn:E2.
    + inversion El; subst. cbn [isLocal]. apply String.eqb_eq in E2.
      split; [discriminate|]. intros Hne. contradiction.
    + destruct (containsDotDot nm || HasPrefix nm "/" || HasPrefix nm "\");
        [discriminate El|].
      destruct (zoneinfo nm) as [l|]; [|discriminate El].
      inversion El; subst. cbn [isLocal]. unfold Location_String.
      cbn [get name]. apply orb_false_iff in E1 as [E1 _]. rewrite E1.
      split; [|reflexivity]. intros ->. vm_compute in E2. discriminate E2.
Qed.

(** X7: [DecodeICalParams] changes the receiver only when it succeeds
    with a timezone identifier: without the identifier it returns nil and
    leaves the receiver as it is, and when it returns an error (the zone
    cannot be loaded, or the text of the receiver cannot be parsed back)
    the receiver is as it was. *)
Theorem DecodeICalParams_frame (d d' : DateTime) (params : Params)
  (e : option error) :
  DateTime_DecodeICalParams localZone zoneinfo TimeZoneIdPropertyName d params
  = (d', e) ->
  (params !! TimeZoneIdPropertyName = None -> d' = d /\ e = None)
  /\ (e <> None -> d' = d)
  /\ (d' <> d ->
      e = None
      /\ exists nm r, params !! TimeZoneIdPropertyName = Some nm
                      /\ LoadLocation zoneinfo nm = inl r
                      /\ Time_Location (t d') = r).
Proof.
  unfold DateTime_DecodeICalParams. cbv zeta.
  destruct (params !! TimeZoneIdPropertyName) as [nm|].
  - destruct (LoadLocation zoneinfo nm) as [r|err] eqn:El.
    + destruct (ParseInLocation localZone _ _ r) as [tm|pe] eqn:E;
        intros H; inversion H; subst.
      * split; [discriminate|]. split; [congruence|]. intros _.
        split; [reflexivity|]. exists nm, r.
        split; [reflexivity|]. split; [exact El|].
        exact (ParseInLocation_loc _ _ _ _ _ E).
      * split; [discriminate|]. split; [reflexivity|]. congruence.
    + intros H; inversion H; subst.
      split; [discriminate|]. split; [reflexivity|]. congruence.
  - intros H; inversion H; subst.
    split; [intros _; split; reflexivity|]. split; congruence.
Qed.

End MoreCodecFacts.

(** ** Full days *)

(** The date-only layout reads back the date that it wrote. *)
Lemma parseFields_formatted_date (y m d : Z) :
  0 <= y < 10000 -> 1 <= m <= 12 -> 1 <= d <= daysIn m y ->
  parseFields DateFormatString
    (appendInt y 4 +:+ appendInt m 2 +:+ appendInt d 2)
  = inl {| fYear := y; fMonth := m; fDay := d;
           fHour := 0; fMin := 0; fSec := 0; fNsec := 0 |}.
Proof.
  intros Hy Hm Hd. pose proof (daysIn_bound m y d Hm Hd) as Hd'.
  unfold parseFields.
  assert (Hloop : forall al av,
    parseLoop (S (String.length DateFormatString)) al av DateFormatString
      (appendInt y 4 +:+ appendInt m 2 +:+ appendInt d 2) fields0
    = inl {| fYear := y; fMonth := m; fDay := d;
             fHour := 0; fMin := 0; fSec := 0; fNsec := 0 |}).
  { intros al av. rewrite <- (append_Empty_r (appendInt d 2)).
    unfold DateFormatString. cbn [String.length].
    parse_step parseStd_year. parse_step parseStd_month.
    parse_step parseStd_day.
    rewrite parseLoop_S; eval_chunk; cbv beta iota zeta;
      cbn [skip String.length negb].
    reflexivity. }
  rewrite Hloop. cbn [fMonth].
  replace (m <? 0) with false by (symmetry; apply Z.ltb_ge; lia).
  cbn [fDay].
  replace (d <? 0) with false by (symmetry; apply Z.ltb_ge; lia).
  cbn [fDay fMonth fYear].
  replace (d <? 1) with false by (symmetry; apply Z.ltb_ge; lia).
  replace (daysIn m y <? d) with false by (symmetry; apply Z.ltb_ge; lia).
  reflexivity.
Qed.

(** The UTC date-time layout refuses a date followed by "Z". *)
Lemma parseFields_date_Z (y m d : Z) :
  0 <= y < 10000 -> 1 <= m <= 12 -> 1 <= d <= daysIn m y ->
  exists pe,
    parseFields UTCDateTimeFormatString
      (appendInt y 4 +:+ appendInt m 2 +:+ appendInt d 2 +:+ "Z") = inr pe.
Proof.
  intros Hy Hm Hd. pose proof (daysIn_bound m y d Hm Hd) as Hd'.
  unfold parseFields.
  assert (Hloop : forall al av, exists pe,
    parseLoop (S (String.length UTCDateTimeFormatString)) al av
      UTCDateTimeFormatString
      (appendInt y 4 +:+ appendInt m 2 +:+ appendInt d 2 +:+ "Z") fields0
    = inr pe).
  { intros al av.
    unfold UTCDateTimeFormatString. cbn [String.length].
    parse_step parseStd_year. parse_step parseStd_month.
    parse_step parseStd_day.
    rewrite parseLoop_S; eval_chunk; cbv beta iota zeta.
    cbn [skip String.length negb].
    destruct (ascii_dec "T" " ") as [Heq|_]; [discriminate Heq|].
    destruct (ascii_dec "Z" "T") as [Heq|_]; [discriminate Heq|].
    cbn [negb]. eexists. reflexivity. }
  destruct (Hloop UTCDateTimeFormatString
              (appendInt y 4 +:+ appendInt m 2 +:+ appendInt d 2 +:+ "Z"))
    as [pe Hpe].
  rewrite Hpe. eexists. reflexivity.
Qed.

Section FullDayFacts.

Variable localZone : Location.
Variable TimeZoneIdPropertyName : string.

(** X8: the value text of a DateTime ends in Z exactly when its
    parameters are empty; otherwise the parameters are the timezone
    identifier alone, with the name of the zone. *)
Theorem EncodeICalValue_Z_iff_no_params (d : DateTime) :
  (HasSuffix (fst (DateTime_EncodeICalValue localZone d)) "Z" = true
   <-> fst (DateTime_EncodeICalParams localZone TimeZoneIdPropertyName d) = ∅)
  /\ (HasSuffix (fst (DateTime_EncodeICalValue localZone d)) "Z" = false ->
      DateTime_EncodeICalParams localZone TimeZoneIdPropertyName d
      = ({[ TimeZoneIdPropertyName
            := Location_String localZone (Time_Location (t d)) ]}, None)).
Proof.
  pose proof (Time_fields_range localZone (t d)) as Hr. cbv zeta in Hr.
  unfold DateTime_EncodeICalValue, DateTime_EncodeICalParams, Format.
  rewrite appendFormat_DateTime. cbv zeta. cbn [fst].
  destruct (isUTC (Time_Location (t d))); cbn [negb fst].
  - rewrite HasSuffix_append_Z. split; [split; reflexivity|discriminate].
  - rewrite <- !append_assoc.
    rewrite HasSuffix_two_digits by lia.
    split; [|reflexivity]. split; [discriminate|].
    intros H. exfalso. revert H. apply insert_non_empty.
Qed.

(** X9: the text that [DateTimeFullDay.EncodeICalValue] writes for a day
    outside UTC, with a year from 0 to 9999, is decoded by
    [DateTime.DecodeICalValue] to midnight of the same calendar day in
    UTC: the zone of the day is not kept by the text. *)
Theorem FullDay_text_decodes_to_UTC_midnight (d : DateTimeFullDay)
  (d0 : DateTime) :
  isUTC (Time_Location (t d)) = false ->
  0 <= fYear (Time_fields localZone (t d)) <= 9999 ->
  exists d',
    DateTime_DecodeICalValue localZone d0
      (fst (DateTimeFullDay_EncodeICalValue localZone d)) = (d', None)
    /\ Time_Location (t d') = UTC
    /\ Time_fields localZone (t d') = dateOnly (Time_fields localZone (t d)).
Proof.
  intros HU Hy.
  pose proof (Time_fields_range localZone (t d)) as Hr. cbv zeta in Hr.
  destruct Hr as (Hm & Hd & _).
  pose proof (daysIn_bound _ _ _ Hm Hd) as Hd'.
  set (f := Time_fields localZone (t d)) in *.
  assert (Htext : fst (DateTimeFullDay_EncodeICalValue localZone d)
                  = appendInt (fYear f) 4 +:+ appendInt (fMonth f) 2
                    +:+ appendInt (fDay f) 2).
  { unfold DateTimeFullDay_EncodeICalValue, Format.
    rewrite appendFormat_Date. cbv zeta. rewrite HU. reflexivity. }
  rewrite Htext. unfold DateTime_DecodeICalValue. cbv zeta.
  rewrite <- append_assoc.
  rewrite HasSuffix_two_digits by lia.
  rewrite append_assoc.
  replace (len (appendInt (fYear f) 4 +:+ appendInt (fMonth f) 2
                +:+ appendInt (fDay f) 2) =? 8) with true.
  2:{ unfold len. rewrite !append_length, appendInt4_length by lia.
      rewrite !appendInt2_length by lia. reflexivity. }
  unfold ParseInLocation.
  rewrite (parseFields_formatted_date (fYear f) (fMonth f) (fDay f))
    by (try assumption; lia).
  eexists. split; [reflexivity|]. cbn [t].
  split.
  - unfold Date. destruct (civilSeconds _ _ _ _ _ _ _). reflexivity.
  - apply (Time_fields_Date_UTC localZone (dateOnly f)).
    unfold validFields, dateOnly. cbn [fYear fMonth fDay fHour fMin fSec fNsec].
    repeat split; try lia; try apply Hm; try apply Hd.
Qed.

(** X10: the text that [DateTimeFullDay.EncodeICalValue] writes for a
    day in UTC, a date followed by "Z", is refused by
    [DateTime.DecodeICalValue], which takes a text ending in Z for a
    date-time. *)
Theorem FullDay_UTC_text_refused (d : DateTimeFullDay) (d0 : DateTime) :
  isUTC (Time_Location (t d)) = true ->
  0 <= fYear (Time_fields localZone (t d)) <= 9999 ->
  exists e,
    DateTime_DecodeICalValue localZone d0
      (fst (DateTimeFullDay_EncodeICalValue localZone d))
    = ({| t := zeroTime |}, Some e).
Proof.
  intros HU Hy.
  pose proof (Time_fields_range localZone (t d)) as Hr. cbv zeta in Hr.
  destruct Hr as (Hm & Hd & _).
  set (f := Time_fields localZone (t d)) in *.
  assert (Htext : fst (DateTimeFullDay_EncodeICalValue localZone d)
                  = (appendInt (fYear f) 4 +:+ appendInt (fMonth f) 2
                     +:+ appendInt (fDay f) 2) +:+ "Z").
  { unfold DateTimeFullDay_EncodeICalValue, Format.
    rewrite appendFormat_Date. cbv zeta. rewrite HU. reflexivity. }
  rewrite Htext. unfold DateTime_DecodeICalValue. cbv zeta.
  rewrite HasSuffix_append_Z. unfold ParseInLocation.
  destruct (parseFields_date_Z (fYear f) (fMonth f) (fDay f)) as [pe Hpe];
    try assumption; try lia.
  rewrite <- !append_assoc in Hpe. rewrite <- !append_assoc.
  rewrite Hpe. eexists. reflexivity.
Qed.

End FullDayFacts.

(** ** Further properties of the codec of lists *)

Section ListFacts.

Variable localZone : Location.
Variable zoneinfo : string -> option Location.
Variable TimeZoneIdPropertyName : string.
Variable CSV_DecodeICalValue : string -> list string * option string.
Variable CSV_EncodeICalValue : list string -> string * option string.

Lemma encodeValuesFrom_ok (rest : list addr) (elems : list DateTime) (h : Heap)
  (all : DateTimes) (i : nat) (csv : list string) :
  Forall2 (fun p d => h !! p = Some d) rest elems ->
  encodeValuesFrom localZone h all i rest csv
  = Some (inl (csv ++ map (fun d => fst (DateTime_EncodeICalValue localZone d))
                        elems)).
Proof.
  intros H. revert i csv.
  induction H as [|p d rest elems Hp _ IH]; intros i csv.
  - cbn. now rewrite app_nil_r.
  - cbn [encodeValuesFrom map]. rewrite Hp.
    unfold DateTime_EncodeICalValue at 1. cbv zeta.
    rewrite IH. rewrite <- app_assoc. reflexivity.
Qed.

Lemma encodeValuesFrom_nil (rest : list addr) (h : Heap) (all : DateTimes)
  (i : nat) (csv : list string) :
  encodeValuesFrom localZone h all i rest csv = None
  <-> exists p, p ∈ rest /\ h !! p = None.
Proof.
  revert i csv. induction rest as [|p rest IH]; intros i csv.
  - cbn. split; [discriminate|]. intros (p & Hp & _).
    now apply elem_of_nil in Hp.
  - cbn [encodeValuesFrom]. destruct (h !! p) as [d|] eqn:Ep.
    + unfold DateTime_EncodeICalValue. cbv zeta. rewrite IH.
      split.
      * intros (q & Hq & Hn). exists q. split; [now right|exact Hn].
      * intros (q & Hq & Hn). exists q. split; [|exact Hn].
        apply elem_of_cons in Hq as [-> | Hq]; [congruence|exact Hq].
    + split; [|reflexivity]. intros _. exists p. split; [now left|exact Ep].
Qed.

(** X11: [DateTimes.EncodeICalValue] on a list whose pointers all point
    to DateTimes hands the value texts of the elements, in the order of
    the list, to the list codec and returns what it returns: the error
    "unable to encode datetime at index" is never made. *)
Theorem DateTimes_EncodeICalValue_joins (h : Heap) (ds : DateTimes)
  (elems : list DateTime) :
  Forall2 (fun p d => h !! p = Some d) ds elems ->
  DateTimes_EncodeICalValue localZone CSV_EncodeICalValue h ds
  = Some (fst (CSV_EncodeICalValue
                 (map (fun d => fst (DateTime_EncodeICalValue localZone d))
                      elems)),
          ErrorString <$>
            snd (CSV_EncodeICalValue
                   (map (fun d => fst (DateTime_EncodeICalValue localZone d))
                        elems))).
Proof.
  intros H. unfold DateTimes_EncodeICalValue.
  rewrite (encodeValuesFrom_ok ds elems h ds O [] H). cbn [app].
  destruct (CSV_EncodeICalValue _) as [s e]. reflexivity.
Qed.

(** X12: [DateTimes.EncodeICalValue] dereferences a nil pointer exactly
    when the list holds one; in particular the empty list is encoded. *)
Theorem DateTimes_EncodeICalValue_nil (h : Heap) (ds : DateTimes) :
  DateTimes_EncodeICalValue localZone CSV_EncodeICalValue h ds = None
  <-> exists p, p ∈ ds /\ h !! p = None.
Proof.
  unfold DateTimes_EncodeICalValue.
  rewrite <- (encodeValuesFrom_nil ds h ds O []).
  destruct (encodeValuesFrom localZone h ds O ds []) as [[csv|e]|].
  - destruct (CSV_EncodeICalValue csv). split; discriminate.
  - split; discriminate.
  - split; reflexivity.
Qed.

(** Decoding of the tokens ends without an error only if every token was
    decoded. *)
Lemma decodeValuesFrom_None_inv (toks : list string) (h : Heap) (ds : DateTimes)
  (i : nat) (h' : Heap) (ds' : DateTimes) :
  decodeValuesFrom localZone h ds i toks = (h', ds', None) ->
  Forall (fun tok => snd (decodeNew localZone tok) = None) toks.
Proof.
  revert h ds i. induction toks as [|tok r IH]; intros h ds i H;
    [constructor|].
  destruct (snd (decodeNew localZone tok)) as [e|] eqn:E.
  - rewrite (decodeValuesFrom_cons_fail _ _ _ _ _ _ _ E) in H. discriminate H.
  - rewrite (decodeValuesFrom_cons_ok _ _ _ _ _ _ E) in H.
    constructor; [exact E|exact (IH _ _ _ H)].
Qed.

(** Whatever the outcome, decoding the tokens only adds to the heap and
    to the list, and what it adds to the list are pointers to what it
    added to the heap, each once. *)
Lemma decodeValuesFrom_extends (toks : list string) (h : Heap) (ds : DateTimes)
  (i : nat) (h' : Heap) (ds' : DateTimes) (e : option error) :
  decodeValuesFrom localZone h ds i toks = (h', ds', e) ->
  exists (new : list DateTime) (k : nat),
    h' = h ++ new /\ ds' = ds ++ seq (length h) k /\ (k <= length new)%nat.
Proof.
  revert h ds i. induction toks as [|tok r IH]; intros h ds i H.
  - cbn in H. inversion H; subst. exists [], O. cbn.
    now rewrite !app_nil_r.
  - destruct (snd (decodeNew localZone tok)) as [e0|] eqn:E.
    + rewrite (decodeValuesFrom_cons_fail _ _ _ _ _ _ _ E) in H.
      inversion H; subst. exists [fst (decodeNew localZone tok)], O.
      cbn. rewrite app_nil_r. repeat split; lia.
    + rewrite (decodeValuesFrom_cons_ok _ _ _ _ _ _ E) in H.
      destruct (IH _ _ _ H) as (new & k & -> & -> & Hk).
      exists (fst (decodeNew localZone tok) :: new), (S k).
      rewrite length_app. cbn [length seq].
      rewrite <- !app_assoc. cbn [app].
      replace (length h + 1)%nat with (S (length h)) by lia.
      repeat split; lia.
Qed.

(** X13: when [DateTimes.DecodeICalValue] returns nil, the list codec has
    split the text into tokens, every token was decoded, the list is the
    former list followed by one new pointer for each token, in the order
    of the tokens, each to the DateTime decoded from its token, which is
    in UTC; and the DateTimes that were on the heap are as they were. *)
Theorem DateTimes_DecodeICalValue_ok (h : Heap) (ds : DateTimes)
  (value : string) (h' : Heap) (ds' : DateTimes) :
  DateTimes_DecodeICalValue localZone CSV_DecodeICalValue h ds value
  = (h', ds', None) ->
  exists toks,
    CSV_DecodeICalValue value = (toks, None)
    /\ ds' = ds ++ seq (length h) (length toks)
    /\ length h' = (length h + length toks)%nat
    /\ (forall p : addr, (p < length h)%nat -> h' !! p = h !! p)
    /\ (forall (j : nat) (tok : string),
          toks !! j = Some tok ->
          exists d,
            h' !! (length h + j)%nat = Some d
            /\ DateTime_DecodeICalValue localZone {| t := zeroTime |} tok
               = (d, None)
            /\ Time_Location (t d) = UTC).
Proof.
  unfold DateTimes_DecodeICalValue.
  destruct (CSV_DecodeICalValue value) as [toks [err|]]; [discriminate|].
  intros H. exists toks. split; [reflexivity|].
  pose proof (decodeValuesFrom_None_inv _ _ _ _ _ _ H) as Hall.
  rewrite (decodeValuesFrom_ok localZone toks h ds O Hall) in H.
  inversion H; subst. split; [reflexivity|].
  split; [now rewrite length_app, length_map|].
  split; [intros p Hp; now rewrite lookup_app_l by exact Hp|].
  intros j tok Hj. pose proof (lookup_lt_Some _ _ _ Hj) as Hlt.
  exists (fst (decodeNew localZone tok)).
  assert (Hd : DateTime_DecodeICalValue localZone {| t := zeroTime |} tok
               = (fst (decodeNew localZone tok), None)).
  { rewrite Forall_forall in Hall.
    specialize (Hall tok (list_elem_of_lookup_2 _ _ _ Hj)).
    unfold decodeNew in *.
    destruct (DateTime_DecodeICalValue localZone _ tok) as [d e].
    cbn [fst snd] in *. now subst. }
  split; [|split; [exact Hd|]].
  - rewrite lookup_app_r by lia.
    replace (length h + j - length h)%nat with j by lia.
    now rewrite list_lookup_fmap, Hj.
  - destruct (DecodeICalValue_ok_fields localZone _ _ _ Hd) as [HU _].
    exact HU.
Qed.

(** X14: [DateTimes.DecodeICalValue] keeps a list well formed, whatever
    it returns: if every pointer of the list pointed to a DateTime and no
    pointer stood twice in it before the call, so it is after the call;
    the former list is the beginning of the new one and the former
    DateTimes are as they were. *)
Theorem DateTimes_DecodeICalValue_well_formed (h : Heap) (ds : DateTimes)
  (value : string) (h' : Heap) (ds' : DateTimes) (e : option error) :
  Forall (fun p : addr => (p < length h)%nat) ds ->
  NoDup ds ->
  DateTimes_DecodeICalValue localZone CSV_DecodeICalValue h ds value
  = (h', ds', e) ->
  Forall (fun p : addr => (p < length h')%nat) ds'
  /\ NoDup ds'
  /\ firstn (length ds) ds' = ds
  /\ firstn (length h) h' = h.
Proof.
  intros Hwf Hnd. unfold DateTimes_DecodeICalValue.
  destruct (CSV_DecodeICalValue value) as [toks [err|]].
  - intros H; inversion H; subst.
    repeat split; try assumption; apply firstn_all.
  - intros H. apply decodeValuesFrom_extends in H.
    destruct H as (new & k & -> & -> & Hk).
    split; [|split; [|split]].
    + apply Forall_app. split.
      * eapply Forall_impl; [exact Hwf|]. cbn. intros p Hp.
        rewrite length_app. lia.
      * apply Forall_forall. intros p Hp.
        apply elem_of_seq in Hp. rewrite length_app. lia.
    + apply NoDup_app. split; [exact Hnd|]. split; [|apply NoDup_seq].
      intros p Hp Hp'. apply elem_of_seq in Hp'.
      rewrite Forall_forall in Hwf. specialize (Hwf p Hp). lia.
    + rewrite firstn_app, Nat.sub_diag, firstn_all. cbn. apply app_nil_r.
    + rewrite firstn_app, Nat.sub_diag, firstn_all. cbn. apply app_nil_r.
Qed.

Lemma DecodeICalParams_no_id (d : DateTime) (params : Params) :
  params !! TimeZoneIdPropertyName = None ->
  DateTime_DecodeICalParams localZone zoneinfo TimeZoneIdPropertyName d params
  = (d, None).
Proof. intros H. unfold DateTime_DecodeICalParams. cbv zeta. now rewrite H. Qed.

(** X15: when [DateTimes.DecodeICalParams] returns nil, every DateTime
    that the list points to is in the zone that the parameter block
    designates, any DateTime that the list does not point to is as it
    was, and without a timezone identifier nothing has changed at
    all. *)
Theorem DateTimes_DecodeICalParams_ok (h : Heap) (ds : DateTimes)
  (params : Params) (h' : Heap) :
  DateTimes_DecodeICalParams localZone zoneinfo TimeZoneIdPropertyName h ds params
  = Some (h', None) ->
  length h' = length h
  /\ (forall q : addr, q ∉ ds -> h' !! q = h !! q)
  /\ (params !! TimeZoneIdPropertyName = None -> h' = h)
  /\ (forall r, paramsZone zoneinfo TimeZoneIdPropertyName params = Some r ->
      forall q : addr, q ∈ ds ->
        exists dq, h' !! q = Some dq /\ Time_Location (t dq) = r).
Proof.
  unfold DateTimes_DecodeICalParams. generalize O as i.
  generalize ds at 1 as all. intros all i.
  revert h i. induction ds as [|p rest IH]; intros h i H.
  - cbn in H. inversion H; subst. repeat split; try reflexivity.
    intros r _ q Hq. now apply elem_of_nil in Hq.
  - cbn [decodeParamsFrom] in H.
    destruct (h !! p) as [d|] eqn:Ep; [|discriminate].
    destruct (DateTime_DecodeICalParams _ _ _ d params) as [d' [e|]] eqn:Ed;
      [discriminate|].
    destruct (IH _ _ H) as (Hlen & Hout & Hno & Hin).
    split; [|split; [|split]].
    + now rewrite Hlen, length_insert.
    + intros q Hq. apply not_elem_of_cons in Hq as [Hne Hq].
      rewrite (Hout _ Hq). now apply list_lookup_insert_ne.
    + intros Hn. rewrite (Hno Hn).
      rewrite (DecodeICalParams_no_id d params Hn) in Ed.
      inversion Ed; subst. now apply list_insert_id.
    + intros r Hr q Hq.
      destruct (decide (q ∈ rest)) as [Hq'|Hq']; [exact (Hin r Hr q Hq')|].
      apply elem_of_cons in Hq as [-> | Hq]; [|contradiction].
      exists d'. split.
      * rewrite (Hout _ Hq'). apply list_lookup_insert_eq.
        exact (lookup_lt_Some _ _ _ Ep).
      * exact (DecodeICalParams_ok_zone localZone zoneinfo
                 TimeZoneIdPropertyName _ _ _ _ Ed Hr).
Qed.

(** X16: [DateTimes.DecodeICalParams] on a list whose pointers all point
    to DateTimes dereferences no nil pointer, and neither adds a DateTime
    to the heap nor takes one away, whether it returns an error or
    nil. *)
Theorem DateTimes_DecodeICalParams_returns (h : Heap) (ds : DateTimes)
  (params : Params) :
  Forall (fun p : addr => (p < length h)%nat) ds ->
  exists h' e,
    DateTimes_DecodeICalParams localZone zoneinfo TimeZoneIdPropertyName h ds
      params = Some (h', e)
    /\ length h' = length h.
Proof.
  unfold DateTimes_DecodeICalParams. generalize O as i.
  generalize ds at 2 as all. intros all i.
  revert h i. induction ds as [|p rest IH]; intros h i Hwf.
  - exists h, None. split; reflexivity.
  - inversion Hwf as [|? ? Hp Hr]; subst. cbn [decodeParamsFrom].
    destruct (lookup_lt_is_Some_2 h p Hp) as [d Ep]. rewrite Ep.
    destruct (DateTime_DecodeICalParams _ _ _ d params) as [d' [e|]] eqn:Ed.
    + eexists _, _. split; [reflexivity|]. apply length_insert.
    + assert (Hwf' : Forall (fun q : addr => (q < length (<[p := d']> h))%nat)
                       rest).
      { eapply Forall_impl; [exact Hr|]. cbn. intros q Hq.
        now rewrite length_insert. }
      destruct (IH (<[p := d']> h) (S i) Hwf') as (h' & e & He & Hlen).
      exists h', e. split; [exact He|]. now rewrite Hlen, length_insert.
Qed.

(** X17: a list that [DateTimes.DecodeICalValue] has filled from a text,
    starting from the empty list, is encoded without a timezone
    identifier, and its value is what the list codec makes of the value
    texts of the decoded tokens. *)
Theorem DateTimes_decoded_reencodes (h : Heap) (value : string) (h' : Heap)
  (ds' : DateTimes) :
  DateTimes_DecodeICalValue localZone CSV_DecodeICalValue h [] value
  = (h', ds', None) ->
  DateTimes_EncodeICalParams localZone TimeZoneIdPropertyName h' ds'
  = Some (∅, None)
  /\ exists toks,
       CSV_DecodeICalValue value = (toks, None)
       /\ DateTimes_EncodeICalValue localZone CSV_EncodeICalValue h' ds'
          = Some (fst (CSV_EncodeICalValue
                         (map (fun tok => valueText localZone (fst (decodeNew localZone tok)))
                              toks)),
                  ErrorString <$>
                    snd (CSV_EncodeICalValue
                           (map (fun tok =>
                                   valueText localZone (fst (decodeNew localZone tok)))
                                toks))).
Proof.
  unfold DateTimes_DecodeICalValue.
  destruct (CSV_DecodeICalValue value) as [toks [err|]]; [discriminate|].
  intros H.
  pose proof (decodeValuesFrom_None_inv _ _ _ _ _ _ H) as Hall.
  rewrite (decodeValuesFrom_ok localZone toks h [] O Hall) in H.
  inversion H; subst. cbn [app]. split.
  - destruct toks as [|tok r]; [reflexivity|].
    cbn [length seq map DateTimes_EncodeICalParams].
    rewrite lookup_app_r by lia. rewrite Nat.sub_diag. cbn [lookup list_lookup fmap option_fmap option_map].
    inversion Hall as [|? ? Htok _]; subst.
    unfold decodeNew in *.
    destruct (DateTime_DecodeICalValue localZone _ tok) as [d e] eqn:Ed.
    cbn [fst snd] in *. subst e.
    destruct (DecodeICalValue_ok_fields localZone _ _ _ Ed) as [HU _].
    change ((d :: map (fun tok : string =>
                         fst (DateTime_DecodeICalValue localZone
                                {| t := zeroTime |} tok)) r) !! O)
      with (Some d).
    cbn [fmap option_fmap option_map].
    unfold DateTime_EncodeICalParams. cbv zeta. rewrite HU. reflexivity.
  - exists toks. split; [reflexivity|].
    unfold DateTimes_EncodeICalValue.
    rewrite (encodeValuesFrom_ok (seq (length h) (length toks))
               (map (fun tok => fst (decodeNew localZone tok)) toks)).
    + cbn [app]. rewrite map_map. unfold valueText.
      destruct (CSV_EncodeICalValue _) as [s e]. reflexivity.
    + apply Forall2_same_length_lookup_2.
      * now rewrite length_seq, length_map.
      * intros j p d Hp Hd. apply lookup_seq in Hp as [-> Hj].
        rewrite lookup_app_r by lia.
        now replace (length h + j - length h)%nat with j by lia.
Qed.

(** X18: a list of DateTimes in UTC, of whole seconds and with years
    from 0 to 9999, goes through [DateTimes.EncodeICalValue] and
    [DateTimes.DecodeICalValue] unchanged, provided that the list codec
    gives back the value texts that it joined: decoding the encoded text
    into an empty list gives new DateTimes equal to the old ones, in the
    same order. *)
Theorem DateTimes_UTC_roundtrip (h : Heap) (ds : DateTimes)
  (elems : list DateTime) (s : string) (h0 : Heap) :
  Forall2 (fun p d => h !! p = Some d) ds elems ->
  Forall (fun d => loc (t d) = UTC /\ nsec (t d) = 0
                   /\ 0 <= fYear (Time_fields localZone (t d)) <= 9999) elems ->
  CSV_EncodeICalValue (map (valueText localZone) elems) = (s, None) ->
  CSV_DecodeICalValue s = (map (valueText localZone) elems, None) ->
  DateTimes_EncodeICalValue localZone CSV_EncodeICalValue h ds = Some (s, None)
  /\ DateTimes_DecodeICalValue localZone CSV_DecodeICalValue h0 [] s
     = (h0 ++ elems, seq (length h0) (length elems), None).
Proof.
  intros Hds Helems Henc Hdec. split.
  - unfold DateTimes_EncodeICalValue.
    rewrite (encodeValuesFrom_ok ds elems h ds O [] Hds). cbn [app].
    change (fun d => fst (DateTime_EncodeICalValue localZone d))
      with (valueText localZone). now rewrite Henc.
  - unfold DateTimes_DecodeICalValue. rewrite Hdec.
    assert (Hone : forall d, d ∈ elems ->
              decodeNew localZone (valueText localZone d) = (d, None)).
    { intros d Hd. rewrite Forall_forall in Helems.
      destruct (Helems d Hd) as (Hl & Hn & Hy).
      destruct d as [tm]. cbn [t] in *.
      exact (decode_encoded_UTC localZone tm {| t := zeroTime |} Hl Hn Hy). }
    rewrite decodeValuesFrom_ok.
    + cbn [app]. rewrite length_map, map_map. f_equal. f_equal. f_equal.
      clear -Hone. induction elems as [|d r IH]; [reflexivity|].
      cbn [map]. rewrite (Hone d) by (now left). cbn [fst]. f_equal.
      apply IH. intros d' Hd'. apply Hone. now right.
    + apply Forall_forall. intros tok Htok.
      apply list_elem_of_fmap in Htok. destruct Htok as (d & -> & Hd).
      now rewrite (Hone d Hd).
Qed.

End ListFacts.

(** ** The timezone identifier and the wall clock *)

Section ParamsFacts.

Variable localZone : Location.
Variable zoneinfo : string -> option Location.
Variable TimeZoneIdPropertyName : string.


End ParamsFacts.

(** ** The texts that [DecodeICalValue] accepts *)

Lemma yearDigits_all : allBelow 10000 yearDigitsOk = true.
Proof. vm_compute. reflexivity. Qed.

Lemma byteVal_inj (c c' : ascii) : byteVal c = byteVal c' -> c = c'.
Proof.
  unfold byteVal. intros H. apply N2Z.inj in H.
  rewrite <- (ascii_N_embedding c), <- (ascii_N_embedding c'). now rewrite H.
Qed.

Lemma take_drop (n : nat) (s : string) : take n s +:+ drop n s = s.
Proof.
  revert s. induction n as [|n IH]; intros s; [reflexivity|].
  destruct s as [|c s]; [reflexivity|].
  cbn [take drop]. rewrite append_String. now rewrite IH.
Qed.

Lemma two_digits_value (n : Z) :
  0 <= n < 100 ->
  exists c0 c1, appendInt n 2 = String c0 (String c1 EmptyString)
                /\ isDigitChar c0 = true /\ isDigitChar c1 = true
                /\ (byteVal c0 - 48) * 10 + (byteVal c1 - 48) = n.
Proof.
  intros Hn. pose proof (allBelow_spec _ _ twoDigits_all n Hn) as H.
  unfold twoDigitsOk in H.
  destruct (appendInt n 2) as [|c0 [|c1 [|? ?]]]; try discriminate.
  apply andb_true_iff in H as [H Hv]. apply andb_true_iff in H as [H0 H1].
  apply Z.eqb_eq in Hv. now exists c0, c1.
Qed.

(** [getnum] reads two digits only from the text that [appendInt] writes
    for the number. *)
Lemma getnum_fixed_inv (s : string) (n : Z) (rest : string) :
  getnum s true = Some (n, rest) -> s = appendInt n 2 +:+ rest.
Proof.
  intros H. pose proof (getnum_range _ _ _ _ H) as Hr.
  unfold getnum, isDigit in H. destruct s as [|c0 s]; [discriminate|].
  cbn [String.get] in H. destruct (isDigitChar c0) eqn:E0; [|discriminate].
  cbn [negb] in H. destruct s as [|c1 s]; cbn [String.get negb] in H;
    [discriminate|].
  destruct (isDigitChar c1) eqn:E1; cbn [negb] in H; [|discriminate].
  inversion H; subst. clear H.
  destruct (two_digits_value ((byteVal c0 - 48) * 10 + (byteVal c1 - 48)))
    as (d0 & d1 & E & Hd0 & Hd1 & Hv); [lia|].
  rewrite E.
  pose proof (isDigitChar_val _ E0). pose proof (isDigitChar_val _ E1).
  pose proof (isDigitChar_val _ Hd0). pose proof (isDigitChar_val _ Hd1).
  assert (c0 = d0) by (apply byteVal_inj; lia).
  assert (c1 = d1) by (apply byteVal_inj; lia).
  subst. reflexivity.
Qed.

Lemma getnum_isDigit (s : string) (fixed : bool) (n : Z) (rest : string) :
  getnum s fixed = Some (n, rest) -> isDigit s 0 = true.
Proof.
  unfold getnum. destruct (isDigit s 0); [reflexivity|discriminate].
Qed.

(** With one digit allowed, [getnum] reads either two digits or one digit
    that no digit follows. *)
Lemma getnum_free_inv (s : string) (n : Z) (rest : string) :
  getnum s false = Some (n, rest) ->
  s = appendInt n 2 +:+ rest \/ isDigit rest 0 = false.
Proof.
  intros H. destruct (isDigit s 1) eqn:E1.
  - left. apply getnum_fixed_inv. unfold getnum in *. rewrite E1 in *.
    exact H.
  - right. unfold getnum in H. rewrite E1 in H.
    destruct (isDigit s 0); [|discriminate]. cbn [negb] in H.
    destruct s as [|c r]; [discriminate|]. inversion H; subst.
    exact E1.
Qed.

Lemma leadingInt_digits (s : string) (x q : Z) :
  leadingInt s x = Some (q, EmptyString) ->
  allDigits s = true /\ q = digitsValue s x.
Proof.
  revert x. induction s as [|c s IH]; intros x H; cbn [leadingInt] in H.
  - inversion H; subst. split; reflexivity.
  - cbn [allDigits digitsValue]. destruct (isDigitChar c); [|discriminate].
    destruct (_ <? x); [discriminate|].
    destruct (2 ^ 63 <? _); [discriminate|].
    apply IH in H. exact H.
Qed.

Lemma atoi_digits (s : string) (y : Z) :
  isDigit s 0 = true -> atoi s = Some y ->
  allDigits s = true /\ y = digitsValue s 0.
Proof.
  unfold isDigit, atoi. destruct s as [|c s]; [discriminate|].
  cbn [String.get]. intros Hc.
  destruct (isDigitChar_not_sign c Hc) as [H1 H2].
  destruct (ascii_dec c "-"); [contradiction|].
  destruct (ascii_dec c "+"); [contradiction|].
  destruct (leadingInt (String c s) 0) as [[q r]|] eqn:E; [|discriminate].
  destruct r; [|discriminate]. intros H; inversion H; subst.
  exact (leadingInt_digits _ _ _ E).
Qed.

(** Four digits are the text that [appendInt] writes for their number. *)
Lemma four_digits_text (s : string) :
  String.length s = 4%nat -> allDigits s = true ->
  s = appendInt (digitsValue s 0) 4.
Proof.
  intros Hl Hd.
  destruct s as [|c0 [|c1 [|c2 [|c3 [|? ?]]]]]; try discriminate. clear Hl.
  cbn [allDigits] in Hd.
  apply andb_true_iff in Hd as [E0 Hd]. apply andb_true_iff in Hd as [E1 Hd].
  apply andb_true_iff in Hd as [E2 Hd]. apply andb_true_iff in Hd as [E3 _].
  pose proof (isDigitChar_val _ E0). pose proof (isDigitChar_val _ E1).
  pose proof (isDigitChar_val _ E2). pose proof (isDigitChar_val _ E3).
  set (n := digitsValue (String c0 (String c1 (String c2 (String c3 EmptyString)))) 0).
  assert (Hn : n = (((0 * 10 + byteVal c0 - 48) * 10 + byteVal c1 - 48) * 10
                    + byteVal c2 - 48) * 10 + byteVal c3 - 48) by reflexivity.
  assert (Hr : 0 <= n < 10000) by lia.
  pose proof (allBelow_spec _ _ yearDigits_all n Hr) as Hok.
  unfold yearDigitsOk in Hok.
  apply andb_true_iff in Hok as [Hok Hv]. apply andb_true_iff in Hok as [Hl Hd].
  apply Z.eqb_eq in Hv. apply Nat.eqb_eq in Hl.
  destruct (appendInt n 4) as [|d0 [|d1 [|d2 [|d3 [|? ?]]]]]; try discriminate.
  cbn [allDigits] in Hd.
  apply andb_true_iff in Hd as [F0 Hd]. apply andb_true_iff in Hd as [F1 Hd].
  apply andb_true_iff in Hd as [F2 Hd]. apply andb_true_iff in Hd as [F3 _].
  pose proof (isDigitChar_val _ F0). pose proof (isDigitChar_val _ F1).
  pose proof (isDigitChar_val _ F2). pose proof (isDigitChar_val _ F3).
  cbn [digitsValue] in Hv.
  assert (c0 = d0) by (apply byteVal_inj; lia).
  assert (c1 = d1) by (apply byteVal_inj; lia).
  assert (c2 = d2) by (apply byteVal_inj; lia).
  assert (c3 = d3) by (apply byteVal_inj; lia).
  subst. reflexivity.
Qed.

Lemma take_full_length (n : nat) (s : string) :
  (n <= String.length s)%nat -> String.length (take n s) = n.
Proof.
  revert s. induction n as [|n IH]; intros s H; [reflexivity|].
  destruct s as [|c s]; cbn [String.length] in H; [lia|].
  cbn [take String.length]. rewrite IH by lia. reflexivity.
Qed.

(** ** Fractions of a second *)

Lemma digitsValue_bound (s : string) (x : Z) :
  allDigits s = true -> 0 <= x ->
  x * 10 ^ Z.of_nat (String.length s) <= digitsValue s x
  < (x + 1) * 10 ^ Z.of_nat (String.length s).
Proof.
  revert x. induction s as [|c s IH]; intros x Hd Hx.
  - cbn. lia.
  - cbn [allDigits] in Hd. apply andb_true_iff in Hd as [Hc Hd].
    pose proof (isDigitChar_val c Hc) as Hv.
    cbn [digitsValue String.length].
    rewrite Nat2Z.inj_succ, Z.pow_succ_r by lia.
    assert (Hp : 0 < 10 ^ Z.of_nat (String.length s))
      by (apply Z.pow_pos_nonneg; lia).
    specialize (IH (x * 10 + byteVal c - 48) Hd ltac:(lia)). nia.
Qed.

Lemma leadingInt_allDigits (s : string) (x : Z) :
  allDigits s = true -> 0 <= x ->
  (x + 1) * 10 ^ Z.of_nat (String.length s) <= 2 ^ 63 / 10 ->
  leadingInt s x = Some (digitsValue s x, EmptyString).
Proof.
  revert x. induction s as [|c s IH]; intros x Hd Hx Hb.
  - reflexivity.
  - cbn [allDigits] in Hd. apply andb_true_iff in Hd as [Hc Hd].
    pose proof (isDigitChar_val c Hc) as Hv.
    cbn [String.length] in Hb.
    rewrite Nat2Z.inj_succ, Z.pow_succ_r in Hb by lia.
    assert (Hp : 0 < 10 ^ Z.of_nat (String.length s))
      by (apply Z.pow_pos_nonneg; lia).
    assert (Hq : 2 ^ 63 / 10 = 922337203685477580) by reflexivity.
    cbn [leadingInt digitsValue]. rewrite Hc.
    replace (2 ^ 63 / 10 <? x) with false by (symmetry; apply Z.ltb_ge; nia).
    replace (2 ^ 63 <? x * 10 + byteVal c - 48) with false
      by (symmetry; apply Z.ltb_ge;
          assert (2 ^ 63 = 9223372036854775808) by reflexivity; nia).
    apply IH; [exact Hd|lia|nia].
Qed.

(** [atoi] reads a run of at most nine digits as its number. *)
Lemma atoi_allDigits (s : string) :
  allDigits s = true -> (1 <= String.length s <= 9)%nat ->
  atoi s = Some (digitsValue s 0).
Proof.
  intros Hd Hl. unfold atoi.
  destruct s as [|c r]; [cbn in Hl; lia|].
  assert (Hc : isDigitChar c = true)
    by (cbn [allDigits] in Hd; apply andb_true_iff in Hd; tauto).
  destruct (isDigitChar_not_sign c Hc) as [H1 H2].
  destruct (ascii_dec c "-"); [contradiction|].
  destruct (ascii_dec c "+"); [contradiction|].
  rewrite leadingInt_allDigits; [reflexivity|exact Hd|lia|].
  assert (Hq : 2 ^ 63 / 10 = 922337203685477580) by reflexivity.
  rewrite Hq.
  assert (10 ^ Z.of_nat (String.length (String c r)) <= 10 ^ 9)
    by (apply Z.pow_le_mono_r; lia).
  lia.
Qed.

Lemma allDigits_take (n : nat) (s : string) :
  allDigits s = true -> allDigits (take n s) = true.
Proof.
  revert s. induction n as [|n IH]; intros s H; [reflexivity|].
  destruct s as [|c s]; [reflexivity|].
  cbn [allDigits take] in *. apply andb_true_iff in H as [Hc H].
  now rewrite Hc, IH.
Qed.

Lemma take_length_min (n : nat) (s : string) :
  String.length (take n s) = Nat.min n (String.length s).
Proof.
  revert s. induction n as [|n IH]; intros s; [reflexivity|].
  destruct s as [|c s]; [reflexivity|].
  cbn [take String.length]. now rewrite IH.
Qed.

Lemma take_all (n : nat) (s : string) :
  (String.length s <= n)%nat -> take n s = s.
Proof.
  revert s. induction n as [|n IH]; intros s H.
  - destruct s; [reflexivity|cbn in H; lia].
  - destruct s as [|c s]; [reflexivity|].
    cbn [take String.length] in *. now rewrite IH by lia.
Qed.

Lemma take_append (n : nat) (a b : string) :
  (n <= String.length a)%nat -> take n (a +:+ b) = take n a.
Proof.
  revert a. induction n as [|n IH]; intros a H; [reflexivity|].
  destruct a as [|c a]; [cbn in H; lia|].
  rewrite append_String. cbn [take String.length] in *.
  now rewrite IH by lia.
Qed.

Lemma take_take (n : nat) (s : string) : take n (take n s) = take n s.
Proof.
  apply take_all. rewrite take_length_min. lia.
Qed.

Lemma digitRun_append (ds tail : string) :
  allDigits ds = true -> tail = EmptyString \/ tail = "Z"%string ->
  digitRun (ds +:+ tail) = String.length ds.
Proof.
  intros Hd Ht. induction ds as [|c ds IH].
  - rewrite append_Empty. destruct Ht as [-> | ->]; reflexivity.
  - cbn [allDigits] in Hd. apply andb_true_iff in Hd as [Hc Hd].
    rewrite append_String. cbn [digitRun String.length].
    now rewrite Hc, IH.
Qed.

Lemma allDigits_digitRun (s : string) :
  allDigits (take (digitRun s) s) = true.
Proof.
  induction s as [|c s IH]; [reflexivity|].
  cbn [digitRun]. destruct (isDigitChar c) eqn:Ec; [|reflexivity].
  cbn [take allDigits]. now rewrite Ec, IH.
Qed.

Lemma fracNanos_range (frac : string) :
  isFraction frac = true -> 0 <= fracNanos frac < 1000000000.
Proof.
  destruct frac as [|c ds]; [cbn; lia|].
  cbn [isFraction fracNanos]. intros H.
  apply andb_true_iff in H as [H Hd]. apply andb_true_iff in H as [_ Hl].
  apply Nat.leb_le in Hl.
  pose proof (digitsValue_bound (take 9 ds) 0 (allDigits_take 9 ds Hd)
                ltac:(lia)) as Hb.
  pose proof (take_length_min 9 ds) as Hlen.
  set (k := String.length (take 9 ds)) in *.
  assert (Hk : (k <= 9)%nat) by lia.
  assert (Hsplit : 10 ^ Z.of_nat k * 10 ^ Z.of_nat (9 - k) = 1000000000).
  { rewrite <- Z.pow_add_r by lia.
    replace (Z.of_nat k + Z.of_nat (9 - k)) with 9 by lia. reflexivity. }
  assert (Hp : 0 < 10 ^ Z.of_nat (9 - k)) by (apply Z.pow_pos_nonneg; lia).
  nia.
Qed.

(** The seconds followed by a fraction of a second, before the end of
    the text or "Z". *)
Lemma parseStd_second_fraction (f : fields) (s : Z) (c : ascii)
  (ds tail : string) :
  0 <= s < 60 -> isFraction (String c ds) = true ->
  tail = EmptyString \/ tail = "Z"%string ->
  parseStd stdZeroSecond f (appendInt s 2 +:+ String c ds +:+ tail)
  = (setNsec (setSec f s) (fracNanos (String c ds)), tail, EmptyString, false).
Proof.
  intros Hs Hfrac Htail. cbn [isFraction] in Hfrac.
  apply andb_true_iff in Hfrac as [Hfrac Hd].
  apply andb_true_iff in Hfrac as [Hc Hl]. apply Nat.leb_le in Hl.
  unfold parseStd. rewrite getnum_appendInt by lia.
  destruct (s <? 0) eqn:E1; [apply Z.ltb_lt in E1; lia|].
  destruct (60 <=? s) eqn:E2; [apply Z.leb_le in E2; lia|]. cbn [orb].
  rewrite append_String.
  assert (Hdig1 : isDigit (String c (ds +:+ tail)) 1 = true).
  { unfold isDigit. cbn [String.get].
    destruct ds as [|c1 ds']; [cbn in Hl; lia|].
    rewrite append_String. cbn [String.get].
    cbn [allDigits] in Hd. apply andb_true_iff in Hd. tauto. }
  assert (Hlen : (2 <=? len (String c (ds +:+ tail))) = true).
  { apply Z.leb_le. unfold len. cbn [String.length].
    rewrite append_length. lia. }
  rewrite Hlen, Hc, Hdig1. cbn [andb].
  rewrite (digitRun_append ds tail Hd Htail).
  assert (Hdrop : drop (1 + String.length ds) (String c (ds +:+ tail)) = tail).
  { change (drop (1 + String.length ds) (String c (ds +:+ tail)))
      with (drop (String.length ds) (ds +:+ tail)).
    apply drop_append. }
  rewrite Hdrop.
  assert (Hnanos : parseNanoseconds (String c (ds +:+ tail))
                     (1 + String.length ds)
                   = (fracNanos (String c ds), EmptyString, false)).
  { unfold parseNanoseconds, fracNanos.
    pose proof (take_length_min 9 ds) as Hmin.
    assert (Hd9 : allDigits (take 9 ds) = true) by (apply allDigits_take; exact Hd).
    assert (Hatoi : atoi (take 9 ds) = Some (digitsValue (take 9 ds) 0))
      by (apply atoi_allDigits; [exact Hd9|lia]).
    pose proof (digitsValue_bound (take 9 ds) 0 Hd9 ltac:(lia)) as Hb.
    assert (Hp : 0 < 10 ^ Z.of_nat (String.length (take 9 ds)))
      by (apply Z.pow_pos_nonneg; lia).
    destruct (10 <? 1 + String.length ds)%nat eqn:E.
    - apply Nat.ltb_lt in E.
      change (take 10 (String c (ds +:+ tail)))
        with (String c (take 9 (ds +:+ tail))).
      change (drop 1 (String c (take 9 (ds +:+ tail))))
        with (take 9 (ds +:+ tail)).
      change (10 - 1)%nat with 9%nat.
      rewrite take_take, take_append by lia. rewrite Hatoi.
      replace (digitsValue (take 9 ds) 0 <? 0) with false
        by (symmetry; apply Z.ltb_ge; lia).
      replace (String.length (take 9 ds)) with 9%nat by lia.
      reflexivity.
    - apply Nat.ltb_ge in E.
      change (drop 1 (String c (ds +:+ tail))) with (ds +:+ tail).
      replace (1 + String.length ds - 1)%nat with (String.length ds) by lia.
      rewrite take_append by lia.
      rewrite (take_all (String.length ds) ds) by lia.
      rewrite (take_all 9 ds) in Hatoi, Hb |- * by lia.
      rewrite Hatoi.
      replace (digitsValue ds 0 <? 0) with false
        by (symmetry; apply Z.ltb_ge; lia).
      replace (10 - (1 + String.length ds))%nat
        with (9 - String.length ds)%nat by lia.
      reflexivity. }
  rewrite Hnanos. reflexivity.
Qed.

(** ** What each verb of [Parse] has read when it succeeds *)

Lemma parseStd_year_inv (f f' : fields) (value value' : string) :
  parseStd stdLongYear f value = (f', value', EmptyString, false) ->
  exists y, f' = setYear f y /\ value = appendInt y 4 +:+ value'.
Proof.
  unfold parseStd. intros H.
  destruct (len value <? 4) eqn:El; [discriminate|]. cbn [orb] in H.
  destruct (isDigit value 0) eqn:Ed; [|discriminate]. cbn [negb] in H.
  destruct (atoi _) as [y|] eqn:Ea; [|discriminate].
  inversion H; subst. exists y. split; [reflexivity|].
  apply Z.ltb_ge in El. unfold len in El.
  assert (Hd4 : isDigit (take 4 value) 0 = true).
  { unfold isDigit in *. destruct value; [discriminate|exact Ed]. }
  destruct (atoi_digits _ _ Hd4 Ea) as [Hall ->].
  rewrite <- (four_digits_text (take 4 value));
    [|apply take_full_length; lia|exact Hall].
  symmetry. apply take_drop.
Qed.

Lemma parseStd_month_inv (f f' : fields) (value value' : string) :
  parseStd stdZeroMonth f value = (f', value', EmptyString, false) ->
  exists m, 0 <= m /\ f' = setMonth f m /\ value = appendInt m 2 +:+ value'.
Proof.
  unfold parseStd. intros H.
  destruct (getnum value true) as [[m rest]|] eqn:E; [|discriminate].
  inversion H; subst. exists m.
  split; [exact (proj1 (getnum_range _ _ _ _ E))|]. split; [reflexivity|].
  exact (getnum_fixed_inv _ _ _ E).
Qed.

Lemma parseStd_day_inv (f f' : fields) (value value' : string) :
  parseStd stdZeroDay f value = (f', value', EmptyString, false) ->
  exists d, 0 <= d /\ f' = setDay f d /\ value = appendInt d 2 +:+ value'.
Proof.
  unfold parseStd. intros H.
  destruct (getnum value true) as [[m rest]|] eqn:E; [|discriminate].
  inversion H; subst. exists m.
  split; [exact (proj1 (getnum_range _ _ _ _ E))|]. split; [reflexivity|].
  exact (getnum_fixed_inv _ _ _ E).
Qed.

Lemma parseStd_hour_inv (f f' : fields) (value value' : string) :
  parseStd stdHour f value = (f', value', EmptyString, false) ->
  exists h, f' = setHour f h
            /\ (value = appendInt h 2 +:+ value' \/ isDigit value' 0 = false).
Proof.
  unfold parseStd. intros H.
  destruct (getnum value false) as [[m rest]|] eqn:E; [|discriminate].
  inversion H; subst. exists m. split; [reflexivity|].
  exact (getnum_free_inv _ _ _ E).
Qed.

Lemma parseStd_minute_inv (f f' : fields) (value value' : string) :
  parseStd stdZeroMinute f value = (f', value', EmptyString, false) ->
  isDigit value 0 = true
  /\ exists m, f' = setMin f m /\ value = appendInt m 2 +:+ value'.
Proof.
  unfold parseStd. intros H.
  destruct (getnum value true) as [[m rest]|] eqn:E; [|discriminate].
  inversion H; subst. split; [exact (getnum_isDigit _ _ _ _ E)|].
  exists m. split; [reflexivity|].
  exact (getnum_fixed_inv _ _ _ E).
Qed.

(** The seconds, and after them the fraction of a second that the text
    may hold though the layout has none. *)
Lemma parseStd_second_inv (f f' : fields) (value value' : string) :
  parseStd stdZeroSecond f value = (f', value', EmptyString, false) ->
  exists s frac,
    setNsec f' 0 = setNsec (setSec f s) 0
    /\ isFraction frac = true
    /\ value = appendInt s 2 +:+ frac +:+ value'.
Proof.
  unfold parseStd. intros H.
  destruct (getnum value true) as [[sc rest]|] eqn:E; [|discriminate].
  apply getnum_fixed_inv in E. subst value.
  destruct ((sc <? 0) || (60 <=? sc)); [discriminate|].
  destruct rest as [|c0 r0].
  - inversion H; subst. exists sc, EmptyString. repeat split.
  - destruct ((2 <=? len (String c0 r0)) && commaOrPeriod c0
              && isDigit (String c0 r0) 1) eqn:Efrac.
    + destruct (parseNanoseconds _ _) as [[ns rangeErr] bad].
      inversion H; subst.
      exists sc, (take (1 + digitRun r0) (String c0 r0)).
      split; [reflexivity|]. split.
      * apply andb_true_iff in Efrac as [Efrac Hdig].
        apply andb_true_iff in Efrac as [_ Hc].
        change (take (1 + digitRun r0) (String c0 r0))
          with (String c0 (take (digitRun r0) r0)).
        cbn [isFraction]. rewrite Hc, allDigits_digitRun.
        rewrite take_length_min.
        unfold isDigit in Hdig. cbn [String.get] in Hdig.
        destruct r0 as [|c1 r1]; [discriminate Hdig|].
        cbn [String.get] in Hdig. cbn [digitRun String.length].
        rewrite Hdig. reflexivity.
      * f_equal. symmetry.
        exact (take_drop (1 + digitRun r0) (String c0 r0)).
    + inversion H; subst. exists sc, EmptyString. repeat split.
Qed.

(** A literal byte of the layout is a byte of the text. *)
Lemma skip_byte (c : ascii) (value value' : string) :
  c <> " "%char ->
  skip 2 value (String c EmptyString) = (value', true) ->
  value = String c value'.
Proof.
  intros Hc. cbn [skip].
  destruct (ascii_dec c " ") as [Heq|_]; [contradiction|].
  destruct value as [|x r]; [discriminate|].
  destruct (ascii_dec x c) as [->|_]; [|discriminate].
  now inversion 1.
Qed.

Lemma len_zero (s : string) : (len s =? 0) = true -> s = EmptyString.
Proof.
  unfold len. intros H. apply Z.eqb_eq in H. destruct s; [reflexivity|].
  cbn [String.length] in H. lia.
Qed.

(** ** What [Parse] has read when it succeeds with one of the layouts *)

Ltac loop_chunk H :=
  rewrite parseLoop_S in H;
  match type of H with
  | context [nextStdChunk ?l] =>
      let v := eval vm_compute in (nextStdChunk l) in
      change (nextStdChunk l) with v in H
  end;
  cbv beta iota zeta in H; cbn [String.length] in H.

Ltac loop_verb H E :=
  match type of H with
  | context [parseStd ?s ?f ?v] =>
      let f1 := fresh "f" in
      let v1 := fresh "v" in
      let r1 := fresh "r" in
      let b1 := fresh "b" in
      let Er := fresh "Er" in
      destruct (parseStd s f v) as [[[f1 v1] r1] b1] eqn:E;
      destruct (String.eqb r1 EmptyString) eqn:Er; [|discriminate H];
      apply String.eqb_eq in Er; subst r1; cbn [negb] in H;
      destruct b1; [discriminate H|]
  end.

Ltac loop_byte H :=
  match type of H with
  | context [skip 2 ?v ?p] =>
      let v1 := fresh "v" in
      let ok := fresh "ok" in
      let Esk := fresh "Esk" in
      destruct (skip 2 v p) as [v1 ok] eqn:Esk;
      destruct ok; [|discriminate H]; cbn [negb] in H;
      apply skip_byte in Esk; [|discriminate]; subst v
  end.

Ltac loop_date H y m d Hm Hd :=
  let E := fresh "E" in
  loop_chunk H; cbn [skip negb] in H; loop_verb H E;
  apply parseStd_year_inv in E; destruct E as (y & -> & ->);
  loop_chunk H; cbn [skip negb] in H; loop_verb H E;
  apply parseStd_month_inv in E; destruct E as (m & Hm & -> & ->);
  loop_chunk H; cbn [skip negb] in H; loop_verb H E;
  apply parseStd_day_inv in E; destruct E as (d & Hd & -> & ->).

Lemma parseLoop_Date_inv (al av value : string) (f : fields) :
  parseLoop (S (String.length DateFormatString)) al av DateFormatString value
    fields0 = inl f ->
  value = dateText f /\ 0 <= fMonth f /\ 0 <= fDay f.
Proof.
  unfold DateFormatString. cbn [String.length]. intros H.
  loop_date H y m d Hm Hd.
  loop_chunk H. cbn [skip negb] in H.
  match type of H with
  | context [len ?v =? 0] =>
      destruct (len v =? 0) eqn:El; [|discriminate H];
      apply len_zero in El; subst v
  end.
  cbn [negb] in H. inversion H; subst. unfold dateText.
  cbn [fYear fMonth fDay setYear setMonth setDay fields0].
  rewrite append_Empty_r.
  split; [reflexivity|]. split; assumption.
Qed.

Ltac loop_clock H h mi s frac Hf Hfrac :=
  let E := fresh "E" in
  let E' := fresh "E" in
  let Hdig := fresh "Hdig" in
  let Hh := fresh "Hh" in
  loop_chunk H; loop_byte H; loop_verb H E;
  apply parseStd_hour_inv in E; destruct E as (h & -> & Hh);
  loop_chunk H; cbn [skip negb] in H; loop_verb H E';
  apply parseStd_minute_inv in E'; destruct E' as (Hdig & mi & -> & ->);
  destruct Hh as [-> | Hh]; [|rewrite Hh in Hdig; discriminate Hdig];
  loop_chunk H; cbn [skip negb] in H; loop_verb H E;
  apply parseStd_second_inv in E; destruct E as (s & frac & Hf & Hfrac & ->).

Ltac read_fields Hf :=
  pose proof (f_equal fYear Hf) as Hy; pose proof (f_equal fMonth Hf) as Hmo;
  pose proof (f_equal fDay Hf) as Hda; pose proof (f_equal fHour Hf) as Hho;
  pose proof (f_equal fMin Hf) as Hmin; pose proof (f_equal fSec Hf) as Hse;
  cbn [fYear fMonth fDay fHour fMin fSec setYear setMonth setDay setHour
       setMin setSec setNsec fields0] in Hy, Hmo, Hda, Hho, Hmin, Hse.

Lemma parseLoop_DateTime_inv (al av value : string) (f : fields) :
  parseLoop (S (String.length DateTimeFormatString)) al av
    DateTimeFormatString value fields0 = inl f ->
  exists frac,
    isFraction frac = true
    /\ value = dateText f +:+ "T" +:+ clockText f +:+ frac
    /\ 0 <= fMonth f /\ 0 <= fDay f.
Proof.
  unfold DateTimeFormatString. cbn [String.length]. intros H.
  loop_date H y m d Hm Hd. loop_clock H h mi s frac Hf Hfrac.
  loop_chunk H. cbn [skip negb] in H.
  match type of H with
  | context [len ?v =? 0] =>
      destruct (len v =? 0) eqn:El; [|discriminate H];
      apply len_zero in El; subst v
  end.
  cbn [negb] in H. inversion H; subst. read_fields Hf.
  exists frac. split; [exact Hfrac|]. unfold dateText, clockText.
  rewrite Hy, Hmo, Hda, Hho, Hmin, Hse.
  rewrite append_Empty_r, !append_assoc.
  split; [reflexivity|]. split; assumption.
Qed.

Lemma parseLoop_UTCDateTime_inv (al av value : string) (f : fields) :
  parseLoop (S (String.length UTCDateTimeFormatString)) al av
    UTCDateTimeFormatString value fields0 = inl f ->
  exists frac,
    isFraction frac = true
    /\ value = dateText f +:+ "T" +:+ clockText f +:+ frac +:+ "Z"
    /\ 0 <= fMonth f /\ 0 <= fDay f.
Proof.
  unfold UTCDateTimeFormatString. cbn [String.length]. intros H.
  loop_date H y m d Hm Hd. loop_clock H h mi s frac Hf Hfrac.
  loop_chunk H. loop_byte H.
  match type of H with
  | context [len ?v =? 0] =>
      destruct (len v =? 0) eqn:El; [|discriminate H];
      apply len_zero in El; subst v
  end.
  cbn [negb] in H. inversion H; subst. read_fields Hf.
  exists frac. split; [exact Hfrac|]. unfold dateText, clockText.
  rewrite Hy, Hmo, Hda, Hho, Hmin, Hse.
  rewrite !append_assoc.
  split; [reflexivity|]. split; assumption.
Qed.

Lemma parseFields_loop (layout value : string) (f : fields) :
  parseFields layout value = inl f ->
  exists f1,
    parseLoop (S (String.length layout)) layout value layout value fields0
    = inl f1
    /\ (0 <= fMonth f1 -> 0 <= fDay f1 -> f = f1).
Proof.
  unfold parseFields. intros H.
  destruct (parseLoop _ _ _ _ _ _) as [f1|e]; [|discriminate].
  exists f1. split; [reflexivity|]. intros Hm Hd.
  replace (fMonth f1 <? 0) with false in H by (symmetry; apply Z.ltb_ge; lia).
  replace (fDay f1 <? 0) with false in H by (symmetry; apply Z.ltb_ge; lia).
  destruct (_ || _) in H; [discriminate|]. now inversion H.
Qed.

Lemma length_zero_empty (s : string) : String.length s = O -> s = EmptyString.
Proof. destruct s; [reflexivity|discriminate]. Qed.

Lemma dateText_length (f : fields) :
  validFields f -> String.length (dateText f) = 8%nat.
Proof.
  intros (Hy & Hm & Hd & _). pose proof (daysIn_bound _ _ _ Hm Hd) as Hd'.
  unfold dateText. rewrite !append_length, appendInt4_length by lia.
  rewrite !appendInt2_length by lia. reflexivity.
Qed.

Lemma clockText_length (f : fields) :
  validFields f -> String.length (clockText f) = 6%nat.
Proof.
  intros (_ & _ & _ & Hh & Hmi & Hs & _).
  unfold clockText. rewrite !append_length.
  rewrite !appendInt2_length by lia. reflexivity.
Qed.

Section CanonicalText.

Variable localZone : Location.

(** The value text of the instant that [Date] makes in UTC of the fields
    of a date and a time of the day. *)
Lemma EncodeICalValue_Date_UTC (f : fields) :
  validFields f ->
  fst (DateTime_EncodeICalValue localZone
         {| t := Date localZone (fYear f) (fMonth f) (fDay f) (fHour f)
                   (fMin f) (fSec f) (fNsec f) UTC |})
  = dateText f +:+ "T" +:+ clockText f +:+ "Z".
Proof.
  intros Hv. unfold DateTime_EncodeICalValue, Format. cbn [t fst].
  rewrite (Time_fields_Date_UTC localZone f Hv).
  assert (HU : Time_Location
                 (Date localZone (fYear f) (fMonth f) (fDay f) (fHour f)
                    (fMin f) (fSec f) (fNsec f) UTC) = UTC).
  { unfold Date. destruct (civilSeconds _ _ _ _ _ _ _). reflexivity. }
  cbv zeta. rewrite HU. cbn [isUTC].
  rewrite appendFormat_DateTime. unfold dateText, clockText.
  now rewrite !append_assoc.
Qed.

(** X20: [DecodeICalValue] followed by [EncodeICalValue] brings a text of
    the grammar to its UTC form: a text of 16 bytes that ends in Z is
    given back as it is, a text of 15 bytes without the Z is given back
    with the Z, and a date of 8 bytes is given back as that date at
    T000000Z. *)
Theorem DecodeICalValue_canonical (d d' : DateTime) (value : string) :
  DateTime_DecodeICalValue localZone d value = (d', None) ->
  (HasSuffix value "Z" = true -> len value = 16 ->
   fst (DateTime_EncodeICalValue localZone d') = value)
  /\ (HasSuffix value "Z" = false -> len value = 15 ->
      fst (DateTime_EncodeICalValue localZone d') = value +:+ "Z")
  /\ (HasSuffix value "Z" = false -> len value = 8 ->
      fst (DateTime_EncodeICalValue localZone d') = value +:+ "T000000Z").
Proof.
  unfold DateTime_DecodeICalValue. cbv zeta. unfold ParseInLocation.
  destruct (parseFields _ value) as [f|pe] eqn:E; [|discriminate].
  intros H; inversion H; subst. clear H.
  pose proof (parseFields_valid _ _ _ E) as Hv.
  rewrite (EncodeICalValue_Date_UTC f Hv).
  pose proof (dateText_length f Hv) as Hld.
  pose proof (clockText_length f Hv) as Hlc.
  destruct (parseFields_loop _ _ _ E) as (f1 & Hloop & Hf1).
  split; [|split].
  - intros HZ Hlen. rewrite HZ in Hloop.
    apply parseLoop_UTCDateTime_inv in Hloop.
    destruct Hloop as (frac & _ & Hval & Hm & Hd).
    rewrite <- (Hf1 Hm Hd) in Hval. rewrite Hval in Hlen |- *.
    unfold len in Hlen. rewrite !append_length, Hld, Hlc in Hlen.
    cbn [String.length] in Hlen.
    rewrite (length_zero_empty frac) by lia. reflexivity.
  - intros HZ Hlen. rewrite HZ in Hloop.
    replace (len value =? 8) with false in Hloop
      by (symmetry; apply Z.eqb_neq; lia).
    apply parseLoop_DateTime_inv in Hloop.
    destruct Hloop as (frac & _ & Hval & Hm & Hd).
    rewrite <- (Hf1 Hm Hd) in Hval. rewrite Hval in Hlen |- *.
    unfold len in Hlen. rewrite !append_length, Hld, Hlc in Hlen.
    cbn [String.length] in Hlen.
    rewrite (length_zero_empty frac) by lia.
    now rewrite append_Empty_r, !append_assoc.
  - intros HZ Hlen. rewrite HZ in Hloop, E.
    replace (len value =? 8) with true in Hloop, E
      by (symmetry; apply Z.eqb_eq; exact Hlen).
    apply parseLoop_Date_inv in Hloop. destruct Hloop as (Hval & Hm & Hd).
    rewrite <- (Hf1 Hm Hd) in Hval.
    destruct (parseFields_Date_clock _ _ E) as (Hh & Hmi & Hs & _).
    unfold clockText. rewrite Hh, Hmi, Hs. rewrite Hval. reflexivity.
Qed.

End CanonicalText.

(** ** [Parse] accepts the texts of the grammar *)

Ltac parse_literal c :=
  rewrite parseLoop_S; eval_chunk; cbv beta iota zeta;
  rewrite append_String; cbn [skip String.length negb];
  destruct (ascii_dec c c) as [_|Hne]; [|congruence];
  destruct (ascii_dec c " ") as [Heq|_]; [discriminate Heq|];
  rewrite append_Empty; cbv beta iota zeta; cbn [negb].

Lemma parseLoop_text (z : bool) (al av : string) (f : fields) (frac : string) :
  validFields f -> isFraction frac = true ->
  let layout := if z then UTCDateTimeFormatString else DateTimeFormatString in
  parseLoop (S (String.length layout)) al av layout
    (dateText f +:+ "T" +:+ clockText f +:+ frac
     +:+ (if z then "Z" else EmptyString)) fields0
  = inl {| fYear := fYear f; fMonth := fMonth f; fDay := fDay f;
           fHour := fHour f; fMin := fMin f; fSec := fSec f;
           fNsec := fracNanos frac |}.
Proof.
  intros (Hy & Hm & Hd & Hh & Hmi & Hs & _) Hfrac layout.
  pose proof (daysIn_bound _ _ _ Hm Hd) as Hd'.
  unfold layout, dateText, clockText. rewrite !append_assoc.
  assert (Htail : (if z then "Z"%string else EmptyString) = EmptyString
                  \/ (if z then "Z"%string else EmptyString) = "Z"%string)
    by (destruct z; auto).
  assert (Hsec : parseStd stdZeroSecond
                   (setMin (setHour (setDay (setMonth (setYear fields0 (fYear f))
                      (fMonth f)) (fDay f)) (fHour f)) (fMin f))
                   (appendInt (fSec f) 2 +:+ frac
                    +:+ (if z then "Z" else EmptyString))
                 = ({| fYear := fYear f; fMonth := fMonth f; fDay := fDay f;
                       fHour := fHour f; fMin := fMin f; fSec := fSec f;
                       fNsec := fracNanos frac |},
                    if z then "Z"%string else EmptyString, EmptyString, false)).
  { destruct frac as [|c ds].
    - rewrite append_Empty. rewrite parseStd_second by (lia || exact Htail).
      reflexivity.
    - rewrite parseStd_second_fraction by (lia || assumption). reflexivity. }
  destruct z.
  - unfold UTCDateTimeFormatString. cbn [String.length].
    parse_step parseStd_year. parse_step parseStd_month.
    parse_step parseStd_day. parse_literal "T"%char.
    rewrite parseStd_hour by lia. cbv beta iota zeta. cbn [String.eqb negb].
    parse_step parseStd_minute.
    rewrite parseLoop_S; eval_chunk; cbv beta iota zeta;
      cbn [skip String.length negb].
    rewrite Hsec. cbv beta iota zeta. cbn [String.eqb negb].
    rewrite parseLoop_S; eval_chunk; cbv beta iota zeta.
    reflexivity.
  - unfold DateTimeFormatString. cbn [String.length].
    parse_step parseStd_year. parse_step parseStd_month.
    parse_step parseStd_day. parse_literal "T"%char.
    rewrite parseStd_hour by lia. cbv beta iota zeta. cbn [String.eqb negb].
    parse_step parseStd_minute.
    rewrite parseLoop_S; eval_chunk; cbv beta iota zeta;
      cbn [skip String.length negb].
    rewrite Hsec. cbv beta iota zeta. cbn [String.eqb negb].
    rewrite parseLoop_S; eval_chunk; cbv beta iota zeta;
      cbn [skip String.length negb].
    reflexivity.
Qed.

Lemma parseFields_text (z : bool) (f : fields) (frac : string) :
  validFields f -> isFraction frac = true ->
  parseFields (if z then UTCDateTimeFormatString else DateTimeFormatString)
    (dateText f +:+ "T" +:+ clockText f +:+ frac
     +:+ (if z then "Z" else EmptyString))
  = inl {| fYear := fYear f; fMonth := fMonth f; fDay := fDay f;
           fHour := fHour f; fMin := fMin f; fSec := fSec f;
           fNsec := fracNanos frac |}.
Proof.
  intros Hv Hfrac. unfold parseFields.
  pose proof (parseLoop_text z) as Hloop. cbv zeta in Hloop.
  rewrite (Hloop _ _ f frac Hv Hfrac).
  destruct Hv as (Hy & Hm & Hd & _).
  cbn [fMonth].
  replace (fMonth f <? 0) with false by (symmetry; apply Z.ltb_ge; lia).
  cbn [fDay].
  replace (fDay f <? 0) with false by (symmetry; apply Z.ltb_ge; lia).
  cbn [fDay fMonth fYear].
  replace (fDay f <? 1) with false by (symmetry; apply Z.ltb_ge; lia).
  replace (daysIn (fMonth f) (fYear f) <? fDay f) with false
    by (symmetry; apply Z.ltb_ge; lia).
  reflexivity.
Qed.

(** ** The layout that a text of the grammar is parsed with *)

Lemma allDigits_last (ds : string) :
  allDigits ds = true -> (1 <= String.length ds)%nat ->
  exists a c, ds = a +:+ String c EmptyString /\ isDigitChar c = true.
Proof.
  induction ds as [|c ds IH]; intros Hd Hl; [cbn in Hl; lia|].
  cbn [allDigits] in Hd. apply andb_true_iff in Hd as [Hc Hd].
  destruct ds as [|c1 ds'].
  - exists EmptyString, c. split; [reflexivity|exact Hc].
  - destruct (IH Hd) as (a & c' & E & Hc'); [cbn; lia|].
    exists (String c a), c'. split; [|exact Hc'].
    rewrite append_String. now rewrite <- E.
Qed.

Lemma text_length (f : fields) (frac tail : string) :
  validFields f ->
  String.length (dateText f +:+ "T" +:+ clockText f +:+ frac +:+ tail)
  = (15 + String.length frac + String.length tail)%nat.
Proof.
  intros Hv. rewrite !append_length, (dateText_length f Hv),
    (clockText_length f Hv). cbn [String.length]. lia.
Qed.

Lemma sniff_UTC_text (f : fields) (frac : string) :
  HasSuffix (dateText f +:+ "T" +:+ clockText f +:+ frac +:+ "Z") "Z" = true.
Proof. rewrite <- !append_assoc. apply HasSuffix_append_Z. Qed.

Lemma sniff_local_text (f : fields) (frac : string) :
  validFields f -> isFraction frac = true ->
  HasSuffix (dateText f +:+ "T" +:+ clockText f +:+ frac) "Z" = false
  /\ (len (dateText f +:+ "T" +:+ clockText f +:+ frac) =? 8) = false.
Proof.
  intros Hv Hfrac. split.
  - destruct frac as [|c ds].
    + rewrite append_Empty_r. unfold clockText. rewrite <- !append_assoc.
      apply HasSuffix_two_digits. destruct Hv as (_ & _ & _ & _ & _ & Hs & _).
      lia.
    + cbn [isFraction] in Hfrac. apply andb_true_iff in Hfrac as [Hfrac Hd].
      apply andb_true_iff in Hfrac as [_ Hl]. apply Nat.leb_le in Hl.
      destruct (allDigits_last ds Hd Hl) as (a & c' & -> & Hc').
      change (String c (a +:+ String c' EmptyString))
        with (String c a +:+ String c' EmptyString).
      rewrite <- !append_assoc. now apply HasSuffix_digit.
  - apply Z.eqb_neq. unfold len.
    pose proof (text_length f frac EmptyString Hv) as Hl.
    rewrite append_Empty_r in Hl. rewrite Hl. lia.
Qed.

Lemma sniff_date_text (f : fields) :
  validFields f ->
  HasSuffix (dateText f) "Z" = false /\ (len (dateText f) =? 8) = true.
Proof.
  intros Hv. split.
  - unfold dateText. rewrite <- !append_assoc. apply HasSuffix_two_digits.
    destruct Hv as (_ & Hm & Hd & _).
    pose proof (daysIn_bound _ _ _ Hm Hd). lia.
  - apply Z.eqb_eq. unfold len. now rewrite (dateText_length f Hv).
Qed.

Section AcceptedTexts.

Variable localZone : Location.

Lemma Date_UTC_fields (f : fields) :
  validFields f ->
  let tm := Date localZone (fYear f) (fMonth f) (fDay f) (fHour f) (fMin f)
              (fSec f) (fNsec f) UTC in
  Time_Location tm = UTC /\ Time_fields localZone tm = f.
Proof.
  intros Hv tm. split.
  - unfold tm, Date. destruct (civilSeconds _ _ _ _ _ _ _). reflexivity.
  - exact (Time_fields_Date_UTC localZone f Hv).
Qed.

Lemma validFields_setNsec (f : fields) (ns : Z) :
  validFields f -> 0 <= ns < 1000000000 -> validFields (setNsec f ns).
Proof.
  unfold validFields. cbn [setNsec fYear fMonth fDay fHour fMin fSec fNsec].
  intros (Hy & Hm & Hd & Hh & Hmi & Hs & _) Hn.
  repeat split; try apply Hy; try apply Hm; try apply Hd; try apply Hh;
    try apply Hmi; try apply Hs; apply Hn.
Qed.

Lemma validFields_dateOnly (f : fields) :
  validFields f -> validFields (dateOnly f).
Proof.
  unfold validFields, dateOnly.
  cbn [fYear fMonth fDay fHour fMin fSec fNsec].
  intros (Hy & Hm & Hd & _).
  repeat split; try apply Hy; try apply Hm; try apply Hd; lia.
Qed.

Lemma fNsec_Time_fields (tm : Time) :
  fNsec (Time_fields localZone tm) = nsec tm.
Proof.
  unfold Time_fields.
  destruct (absDate _) as [[y m] dd]. destruct (absClock _) as [[h mi] s].
  reflexivity.
Qed.

(** A text with a time of the day is decoded to the instant of UTC whose
    wall clock it writes. *)
Lemma DecodeICalValue_time_text (z : bool) (d : DateTime) (f : fields)
  (frac : string) :
  validFields f -> isFraction frac = true ->
  let tm := Date localZone (fYear f) (fMonth f) (fDay f) (fHour f) (fMin f)
              (fSec f) (fracNanos frac) UTC in
  DateTime_DecodeICalValue localZone d
    (dateText f +:+ "T" +:+ clockText f +:+ frac
     +:+ (if z then "Z" else EmptyString))
  = ({| t := tm |}, None)
  /\ Time_Location tm = UTC
  /\ Time_fields localZone tm = setNsec f (fracNanos frac).
Proof.
  intros Hv Hfrac tm.
  pose proof (validFields_setNsec f _ Hv (fracNanos_range frac Hfrac)) as Hv'.
  split; [|exact (Date_UTC_fields (setNsec f (fracNanos frac)) Hv')].
  unfold DateTime_DecodeICalValue. cbv zeta.
  assert (Hlayout :
    (if HasSuffix (dateText f +:+ "T" +:+ clockText f +:+ frac
                   +:+ (if z then "Z" else EmptyString)) "Z"
     then UTCDateTimeFormatString
     else if len (dateText f +:+ "T" +:+ clockText f +:+ frac
                  +:+ (if z then "Z" else EmptyString)) =? 8
          then DateFormatString else DateTimeFormatString)
    = (if z then UTCDateTimeFormatString else DateTimeFormatString)).
  { destruct z.
    - now rewrite sniff_UTC_text.
    - rewrite append_Empty_r.
      destruct (sniff_local_text f frac Hv Hfrac) as [-> ->]. reflexivity. }
  rewrite Hlayout. unfold ParseInLocation.
  rewrite (parseFields_text z f frac Hv Hfrac).
  reflexivity.
Qed.

(** A date alone is decoded to midnight of that day in UTC. *)
Lemma DecodeICalValue_date_text (d : DateTime) (f : fields) :
  validFields f ->
  let tm := Date localZone (fYear f) (fMonth f) (fDay f) 0 0 0 0 UTC in
  DateTime_DecodeICalValue localZone d (dateText f) = ({| t := tm |}, None)
  /\ Time_Location tm = UTC
  /\ Time_fields localZone tm = dateOnly f.
Proof.
  intros Hv tm.
  split; [|exact (Date_UTC_fields (dateOnly f) (validFields_dateOnly f Hv))].
  unfold DateTime_DecodeICalValue. cbv zeta.
  destruct (sniff_date_text f Hv) as [-> ->]. unfold ParseInLocation.
  destruct Hv as (Hy & Hm & Hd & _).
  unfold dateText.
  rewrite (parseFields_formatted_date (fYear f) (fMonth f) (fDay f))
    by (try assumption; lia).
  reflexivity.
Qed.

(** What [DecodeICalValue] has read when it succeeds. *)
Lemma DecodeICalValue_ok_text (d d' : DateTime) (value : string) :
  DateTime_DecodeICalValue localZone d value = (d', None) ->
  let f := Time_fields localZone (t d') in
  validFields f
  /\ if HasSuffix value "Z"
     then exists frac,
            isFraction frac = true
            /\ value = dateText f +:+ "T" +:+ clockText f +:+ frac +:+ "Z"
     else if len value =? 8
     then value = dateText f
     else exists frac,
            isFraction frac = true
            /\ value = dateText f +:+ "T" +:+ clockText f +:+ frac.
Proof.
  unfold DateTime_DecodeICalValue. cbv zeta. unfold ParseInLocation.
  destruct (parseFields _ value) as [f|pe] eqn:E; [|discriminate].
  intros H; inversion H; subst. clear H. cbn [t].
  pose proof (parseFields_valid _ _ _ E) as Hv.
  rewrite (Time_fields_Date_UTC localZone f Hv). split; [exact Hv|].
  destruct (parseFields_loop _ _ _ E) as (f1 & Hloop & Hf1).
  destruct (HasSuffix value "Z").
  - apply parseLoop_UTCDateTime_inv in Hloop.
    destruct Hloop as (frac & Hfrac & Hval & Hm & Hd).
    rewrite <- (Hf1 Hm Hd) in Hval. now exists frac.
  - destruct (len value =? 8).
    + apply parseLoop_Date_inv in Hloop. destruct Hloop as (Hval & Hm & Hd).
      now rewrite <- (Hf1 Hm Hd) in Hval.
    + apply parseLoop_DateTime_inv in Hloop.
      destruct Hloop as (frac & Hfrac & Hval & Hm & Hd).
      rewrite <- (Hf1 Hm Hd) in Hval. now exists frac.
Qed.

(** C2, as amended: [DecodeICalValue] accepts the texts of the grammar
    and no other text. A date and a time of the day followed by "Z", and
    one without the "Z", both possibly with a fraction of a second after
    the seconds, are decoded to the instant of UTC whose wall clock they
    write; a date alone, of 8 bytes, to midnight of that day in UTC. On
    every other text the call returns an error whose cause is the parse
    error, which holds the raw text and the layout that was tried (the
    UTC date-time layout for a text that ends in Z, else the date-only
    layout for a text of 8 bytes, else the local date-time layout), and
    whose instance is the receiver. *)
Theorem DecodeICalValue_sniffing (d : DateTime) :
  (forall (f : fields) (frac : string),
     validFields f -> isFraction frac = true ->
     let tm := Date localZone (fYear f) (fMonth f) (fDay f) (fHour f) (fMin f)
                 (fSec f) (fracNanos frac) UTC in
     DateTime_DecodeICalValue localZone d
       (dateText f +:+ "T" +:+ clockText f +:+ frac +:+ "Z")
     = ({| t := tm |}, None)
     /\ Time_Location tm = UTC
     /\ Time_fields localZone tm = setNsec f (fracNanos frac))
  /\ (forall f : fields,
        validFields f ->
        let tm := Date localZone (fYear f) (fMonth f) (fDay f) 0 0 0 0 UTC in
        DateTime_DecodeICalValue localZone d (dateText f) = ({| t := tm |}, None)
        /\ Time_Location tm = UTC
        /\ Time_fields localZone tm = dateOnly f)
  /\ (forall (f : fields) (frac : string),
        validFields f -> isFraction frac = true ->
        let tm := Date localZone (fYear f) (fMonth f) (fDay f) (fHour f)
                    (fMin f) (fSec f) (fracNanos frac) UTC in
        DateTime_DecodeICalValue localZone d
          (dateText f +:+ "T" +:+ clockText f +:+ frac)
        = ({| t := tm |}, None)
        /\ Time_Location tm = UTC
        /\ Time_fields localZone tm = setNsec f (fracNanos frac))
  /\ (forall value : string,
        ~ acceptedText value ->
        exists pe,
          DateTime_DecodeICalValue localZone d value
          = ({| t := zeroTime |},
             Some (NewError M_DateTime_DecodeICalValue
                     "unable to parse datetime value"
                     (OfDateTime {| t := zeroTime |}) (Some (ParseErr pe))))
          /\ Value pe = value
          /\ Layout pe = (if HasSuffix value "Z" then UTCDateTimeFormatString
                          else if len value =? 8 then DateFormatString
                          else DateTimeFormatString)).
Proof.
  split; [|split; [|split]].
  - intros f frac Hv Hfrac.
    exact (DecodeICalValue_time_text true d f frac Hv Hfrac).
  - intros f Hv. exact (DecodeICalValue_date_text d f Hv).
  - intros f frac Hv Hfrac.
    pose proof (DecodeICalValue_time_text false d f frac Hv Hfrac) as H.
    cbv zeta in H. rewrite append_Empty_r in H. exact H.
  - intros value Hno.
    destruct (DateTime_DecodeICalValue localZone d value) as [d' [e|]] eqn:E.
    + unfold DateTime_DecodeICalValue in E. cbv zeta in E.
      destruct (ParseInLocation localZone _ value UTC) as [tm|pe] eqn:Ep;
        [discriminate E|].
      inversion E; subst. exists pe. split; [reflexivity|].
      exact (ParseInLocation_Value _ _ _ _ _ Ep).
    + exfalso. apply Hno.
      destruct (DecodeICalValue_ok_text _ _ _ E) as [Hv Hshape].
      exists (Time_fields localZone (t d')).
      destruct (HasSuffix value "Z").
      * destruct Hshape as (frac & Hfrac & Hval). exists frac.
        split; [exact Hv|]. split; [exact Hfrac|]. left. exact Hval.
      * destruct (len value =? 8).
        -- exists EmptyString. split; [exact Hv|]. split; [reflexivity|].
           right. left. exact Hshape.
        -- destruct Hshape as (frac & Hfrac & Hval). exists frac.
           split; [exact Hv|]. split; [exact Hfrac|]. right. right. exact Hval.
Qed.

(** X21: the texts that [DecodeICalValue] accepts are the date and the
    time of the day of the instant it decodes, digit for digit: a text
    that ends in Z is the date, "T", the time, possibly a fraction of a
    second, and "Z"; another text of 8 bytes is the date alone; any other
    text is the date, "T", the time and possibly a fraction of a second.
    The fraction is nothing, or a period or a comma and then digits, and
    the decoded instant has its nanoseconds. *)
Theorem DecodeICalValue_accepted_text (d d' : DateTime) (value : string) :
  DateTime_DecodeICalValue localZone d value = (d', None) ->
  let f := Time_fields localZone (t d') in
  if HasSuffix value "Z"
  then exists frac,
         isFraction frac = true /\ nsec (t d') = fracNanos frac
         /\ value = dateText f +:+ "T" +:+ clockText f +:+ frac +:+ "Z"
  else if len value =? 8
  then nsec (t d') = 0 /\ value = dateText f
  else exists frac,
         isFraction frac = true /\ nsec (t d') = fracNanos frac
         /\ value = dateText f +:+ "T" +:+ clockText f +:+ frac.
Proof.
  intros H f.
  destruct (DecodeICalValue_ok_text _ _ _ H) as [Hv Hshape]. fold f in Hv, Hshape.
  assert (Hns : forall (z : bool) (frac : string),
            isFraction frac = true ->
            value = dateText f +:+ "T" +:+ clockText f +:+ frac
                    +:+ (if z then "Z" else EmptyString) ->
            nsec (t d') = fracNanos frac).
  { intros z frac Hfrac Hval.
    destruct (DecodeICalValue_time_text z d f frac Hv Hfrac) as (Hd & _ & Hf).
    rewrite <- Hval, H in Hd. inversion Hd as [Hd']. clear Hd.
    rewrite <- fNsec_Time_fields. cbn [t]. now rewrite Hf. }
  destruct (HasSuffix value "Z") eqn:EZ.
  - destruct Hshape as (frac & Hfrac & Hval). exists frac.
    split; [exact Hfrac|]. split; [exact (Hns true frac Hfrac Hval)|exact Hval].
  - destruct (len value =? 8) eqn:E8.
    + split; [|exact Hshape].
      destruct (DecodeICalValue_date_text d f Hv) as (Hd & _ & Hf).
      rewrite <- Hshape, H in Hd. inversion Hd as [Hd']. clear Hd.
      rewrite <- fNsec_Time_fields. cbn [t]. now rewrite Hf.
    + destruct Hshape as (frac & Hfrac & Hval). exists frac.
      split; [exact Hfrac|]. split; [|exact Hval].
      apply (Hns false frac Hfrac). now rewrite append_Empty_r.
Qed.

End AcceptedTexts.

(** ** The form of the encoded texts *)

Lemma four_digits_value (n : Z) :
  0 <= n < 10000 ->
  exists c0 c1 c2 c3,
    appendInt n 4 = String c0 (String c1 (String c2 (String c3 EmptyString)))
    /\ isDigitChar c0 = true /\ isDigitChar c1 = true
    /\ isDigitChar c2 = true /\ isDigitChar c3 = true
    /\ (((byteVal c0 - 48) * 10 + (byteVal c1 - 48)) * 10
        + (byteVal c2 - 48)) * 10 + (byteVal c3 - 48) = n.
Proof.
  intros Hn. pose proof (allBelow_spec _ _ yearDigits_all n Hn) as H.
  unfold yearDigitsOk in H.
  apply andb_true_iff in H as [H Hv]. apply andb_true_iff in H as [Hl Hd].
  apply Z.eqb_eq in Hv. apply Nat.eqb_eq in Hl.
  destruct (appendInt n 4) as [|c0 [|c1 [|c2 [|c3 [|? ?]]]]]; try discriminate.
  cbn [allDigits] in Hd.
  apply andb_true_iff in Hd as [F0 Hd]. apply andb_true_iff in Hd as [F1 Hd].
  apply andb_true_iff in Hd as [F2 Hd]. apply andb_true_iff in Hd as [F3 _].
  cbn [digitsValue] in Hv.
  exists c0, c1, c2, c3. repeat split; try assumption. lia.
Qed.

Ltac layout_digits :=
  repeat match goal with
         | |- context [isDigitChar (Ascii ?a ?b ?c ?d ?e ?f ?g ?h)] =>
             let v := eval vm_compute in
                        (isDigitChar (Ascii a b c d e f g h)) in
             change (isDigitChar (Ascii a b c d e f g h)) with v
         end.

(** The date as [appendInt] writes it, for a year from 0 to 9999: eight
    digits that stand for the year, the month and the day. *)
Lemma dateText_form (f : fields) (rest : string) :
  0 <= fYear f <= 9999 -> 0 <= fMonth f < 100 -> 0 <= fDay f < 100 ->
  exists s8,
    dateText f +:+ rest = s8 +:+ rest
    /\ hasLayoutForm DateFormatString s8 = true
    /\ digitsValue (take 4 s8) 0 = fYear f
    /\ digitsValue (take 2 (drop 4 s8)) 0 = fMonth f
    /\ digitsValue (take 2 (drop 6 s8)) 0 = fDay f
    /\ String.length s8 = 8%nat.
Proof.
  intros Hy Hm Hd. unfold dateText.
  destruct (four_digits_value (fYear f)) as
    (y0 & y1 & y2 & y3 & -> & Y0 & Y1 & Y2 & Y3 & Yv); [lia|].
  destruct (two_digits_value (fMonth f) Hm) as (m0 & m1 & -> & M0 & M1 & Mv).
  destruct (two_digits_value (fDay f) Hd) as (d0 & d1 & -> & D0 & D1 & Dv).
  exists (String y0 (String y1 (String y2 (String y3
            (String m0 (String m1 (String d0 (String d1 EmptyString)))))))).
  split; [reflexivity|].
  split.
  { unfold DateFormatString. cbn [hasLayoutForm]. layout_digits.
    cbv iota. now rewrite Y0, Y1, Y2, Y3, M0, M1, D0, D1. }
  cbn [take drop digitsValue String.length]. repeat split; lia.
Qed.

Lemma clockText_form (f : fields) :
  0 <= fHour f < 100 -> 0 <= fMin f < 100 -> 0 <= fSec f < 100 ->
  exists s6,
    clockText f = s6
    /\ hasLayoutForm "150405" s6 = true
    /\ digitsValue (take 2 s6) 0 = fHour f
    /\ digitsValue (take 2 (drop 2 s6)) 0 = fMin f
    /\ digitsValue (take 2 (drop 4 s6)) 0 = fSec f.
Proof.
  intros Hh Hmi Hs. unfold clockText.
  destruct (two_digits_value (fHour f) Hh) as (h0 & h1 & -> & H0 & H1 & Hv).
  destruct (two_digits_value (fMin f) Hmi) as (m0 & m1 & -> & M0 & M1 & Mv).
  destruct (two_digits_value (fSec f) Hs) as (s0 & s1 & -> & S0 & S1 & Sv).
  eexists. split; [reflexivity|].
  split.
  { cbn [String.append]. rewrite !append_String, !append_Empty.
    cbn [hasLayoutForm]. layout_digits.
    cbv iota. now rewrite H0, H1, M0, M1, S0, S1. }
  rewrite !append_String, !append_Empty.
  cbn [take drop digitsValue]. repeat split; lia.
Qed.

Lemma hasLayoutForm_append (l1 l2 v1 v2 : string) :
  hasLayoutForm l1 v1 = true -> hasLayoutForm l2 v2 = true ->
  hasLayoutForm (l1 +:+ l2) (v1 +:+ v2) = true.
Proof.
  revert v1. induction l1 as [|l l1 IH]; intros v1 H1 H2.
  - destruct v1; [exact H2|discriminate H1].
  - destruct v1 as [|c v1]; [discriminate H1|].
    rewrite !append_String. cbn [hasLayoutForm] in *.
    apply andb_true_iff in H1 as [Hc H1]. rewrite Hc. cbn [andb].
    now apply IH.
Qed.

Lemma hasLayoutForm_length (l v : string) :
  hasLayoutForm l v = true -> String.length v = String.length l.
Proof.
  revert v. induction l as [|c l IH]; intros v H.
  - destruct v; [reflexivity|discriminate H].
  - destruct v as [|x v]; [discriminate H|].
    cbn [hasLayoutForm] in H. apply andb_true_iff in H as [_ H].
    cbn [String.length]. now rewrite (IH v H).
Qed.

Lemma drop_append_le (n : nat) (a b : string) :
  (n <= String.length a)%nat -> drop n (a +:+ b) = drop n a +:+ b.
Proof.
  revert a. induction n as [|n IH]; intros a H; [reflexivity|].
  destruct a as [|c a]; [cbn in H; lia|].
  rewrite append_String. cbn [drop String.length] in *. apply IH. lia.
Qed.

Lemma drop_length_le (n : nat) (a : string) :
  (n <= String.length a)%nat ->
  String.length (drop n a) = (String.length a - n)%nat.
Proof.
  revert a. induction n as [|n IH]; intros a H; [cbn; lia|].
  destruct a as [|c a]; [cbn in H; lia|].
  cbn [drop String.length] in *. apply IH. lia.
Qed.

Section EncodedForm.

Variable localZone : Location.

(** C8, as amended: for every DateTime, [EncodeICalValue] returns no
    error and a text that ends in Z exactly when the zone is UTC, and
    [String], which panics only on an error of [EncodeICalValue], returns
    that text. For a year from 0 to 9999 the text is YYYYMMDDTHHMMSSZ in
    UTC and YYYYMMDDTHHMMSS in another zone: 16 or 15 bytes, the "T" at
    its place, decimal digits at the other places, which stand for the
    year, month, day, hour, minute and second of the wall clock in the
    DateTime's zone. *)
Theorem EncodeICalValue_total (d : DateTime) :
  let f := Time_fields localZone (t d) in
  let utc := isUTC (Time_Location (t d)) in
  let text := fst (DateTime_EncodeICalValue localZone d) in
  snd (DateTime_EncodeICalValue localZone d) = None
  /\ HasSuffix text "Z" = utc
  /\ DateTime_String localZone d = Returns text
  /\ (0 <= fYear f <= 9999 ->
      String.length text = (if utc then 16 else 15)%nat
      /\ hasLayoutForm
           (if utc then UTCDateTimeFormatString else DateTimeFormatString)
           text = true
      /\ digitsValue (take 4 text) 0 = fYear f
      /\ digitsValue (take 2 (drop 4 text)) 0 = fMonth f
      /\ digitsValue (take 2 (drop 6 text)) 0 = fDay f
      /\ digitsValue (take 2 (drop 9 text)) 0 = fHour f
      /\ digitsValue (take 2 (drop 11 text)) 0 = fMin f
      /\ digitsValue (take 2 (drop 13 text)) 0 = fSec f).
Proof.
  intros f utc text.
  pose proof (Time_fields_range localZone (t d)) as Hr. cbv zeta in Hr.
  fold f in Hr. destruct Hr as (Hm & Hd & Hh & Hmi & Hs).
  pose proof (daysIn_bound _ _ _ Hm Hd) as Hd'.
  assert (Htext : text = dateText f +:+ "T" +:+ clockText f
                         +:+ (if utc then "Z" else EmptyString)).
  { unfold text, DateTime_EncodeICalValue, Format.
    rewrite appendFormat_DateTime. fold f. cbv zeta. cbn [fst]. fold utc.
    unfold dateText, clockText. destruct utc.
    - now rewrite !append_assoc.
    - now rewrite append_Empty_r, !append_assoc. }
  split; [reflexivity|]. split; [|split; [reflexivity|]].
  - rewrite Htext. destruct utc.
    + rewrite <- !append_assoc. apply HasSuffix_append_Z.
    + rewrite append_Empty_r. unfold clockText. rewrite <- !append_assoc.
      apply HasSuffix_two_digits. lia.
  - intros Hy. rewrite Htext.
    destruct (dateText_form f ("T" +:+ clockText f
                                +:+ (if utc then "Z" else EmptyString))
                Hy ltac:(lia) ltac:(lia))
      as (s8 & -> & F8 & Vy & Vm & Vd & L8).
    destruct (clockText_form f ltac:(lia) ltac:(lia) ltac:(lia))
      as (s6 & -> & F6 & Vh & Vmi & Vs).
    pose proof (hasLayoutForm_length _ _ F6) as L6.
    cbn [String.length] in L6.
    split; [rewrite !append_length, L8, L6; destruct utc; reflexivity|].
    split.
    { replace (if utc then UTCDateTimeFormatString else DateTimeFormatString)
        with (DateFormatString +:+ "T" +:+ "150405"
              +:+ (if utc then "Z" else EmptyString))
        by (destruct utc; reflexivity).
      apply hasLayoutForm_append; [exact F8|].
      apply (hasLayoutForm_append "T" _ "T"); [reflexivity|].
      apply hasLayoutForm_append; [exact F6|]. destruct utc; reflexivity. }
    rewrite !take_append, !drop_append_le by lia.
    rewrite !take_append by (rewrite drop_length_le; lia).
    split; [exact Vy|]. split; [exact Vm|]. split; [exact Vd|].
    assert (Hdrop8 : forall n rest,
              drop (8 + n) (s8 +:+ String "T" rest) = drop n (String "T" rest)).
    { intros n rest. rewrite <- L8. clear. induction s8 as [|c s IH];
        [reflexivity|exact IH]. }
    assert (Hd9 : forall rest, drop 9 (s8 +:+ "T" +:+ rest) = rest).
    { intros rest. rewrite append_String, append_Empty.
      exact (Hdrop8 1%nat rest). }
    assert (Hd11 : forall rest, drop 11 (s8 +:+ "T" +:+ rest) = drop 2 rest).
    { intros rest. rewrite append_String, append_Empty.
      exact (Hdrop8 3%nat rest). }
    assert (Hd13 : forall rest, drop 13 (s8 +:+ "T" +:+ rest) = drop 4 rest).
    { intros rest. rewrite append_String, append_Empty.
      exact (Hdrop8 5%nat rest). }
    rewrite Hd9, Hd11, Hd13.
    rewrite !take_append, !drop_append_le by lia.
    rewrite !take_append by (rewrite drop_length_le; lia).
    split; [exact Vh|]. split; [exact Vmi|exact Vs].
Qed.

(** C9, as amended: for every DateTimeFullDay, [EncodeICalValue] returns
    no error and a text that ends in Z exactly when the zone is UTC. For a
    year from 0 to 9999 the text is YYYYMMDD, followed by "Z" in UTC: 8
    or 9 bytes, of which the first eight are decimal digits that stand for
    the year, the month and the day of the wall clock in the zone of the
    DateTimeFullDay. *)
Theorem FullDay_EncodeICalValue (d : DateTimeFullDay) :
  let f := Time_fields localZone (t d) in
  let utc := isUTC (Time_Location (t d)) in
  let text := fst (DateTimeFullDay_EncodeICalValue localZone d) in
  snd (DateTimeFullDay_EncodeICalValue localZone d) = None
  /\ HasSuffix text "Z" = utc
  /\ (0 <= fYear f <= 9999 ->
      String.length text = (if utc then 9 else 8)%nat
      /\ hasLayoutForm
           (if utc then DateFormatString +:+ "Z" else DateFormatString) text
         = true
      /\ digitsValue (take 4 text) 0 = fYear f
      /\ digitsValue (take 2 (drop 4 text)) 0 = fMonth f
      /\ digitsValue (take 2 (drop 6 text)) 0 = fDay f).
Proof.
  intros f utc text.
  pose proof (Time_fields_range localZone (t d)) as Hr. cbv zeta in Hr.
  fold f in Hr. destruct Hr as (Hm & Hd & _).
  pose proof (daysIn_bound _ _ _ Hm Hd) as Hd'.
  assert (Htext : text = dateText f +:+ (if utc then "Z" else EmptyString)).
  { unfold text, DateTimeFullDay_EncodeICalValue, Format.
    rewrite appendFormat_Date. fold f. cbv zeta. cbn [fst]. fold utc.
    unfold dateText. destruct utc.
    - now rewrite !append_assoc.
    - now rewrite append_Empty_r. }
  split; [reflexivity|]. split.
  - rewrite Htext. destruct utc.
    + apply HasSuffix_append_Z.
    + rewrite append_Empty_r. unfold dateText. rewrite <- !append_assoc.
      apply HasSuffix_two_digits. lia.
  - intros Hy. rewrite Htext.
    destruct (dateText_form f (if utc then "Z" else EmptyString)
                Hy ltac:(lia) ltac:(lia))
      as (s8 & -> & F8 & Vy & Vm & Vd & L8).
    split; [rewrite append_length, L8; destruct utc; reflexivity|].
    split.
    { replace (if utc then DateFormatString +:+ "Z" else DateFormatString)
        with (DateFormatString +:+ (if utc then "Z" else EmptyString))
        by (destruct utc; reflexivity).
      apply hasLayoutForm_append; [exact F8|]. destruct utc; reflexivity. }
    rewrite !take_append, !drop_append_le by lia.
    rewrite !take_append by (rewrite drop_length_le; lia).
    split; [exact Vy|]. split; [exact Vm|exact Vd].
Qed.

End EncodedForm.

(** ** The further properties at concrete values *)

Lemma EncodeICalValue_UTC_injective_witness :
  loc newYear2024 = UTC
  /\ loc (Truncate_Second newYear2024) = UTC
  /\ fst (DateTime_EncodeICalValue exampleLocal (NewDateTime newYear2024))
     = fst (DateTime_EncodeICalValue exampleLocal
              (NewDateTime (Truncate_Second newYear2024)))
  /\ DateTime_Equals (NewDateTime newYear2024)
       (NewDateTime (Truncate_Second newYear2024)) = true.
Proof.
  split; [reflexivity|]. split; [reflexivity|].
  split; [vm_compute; reflexivity|].
  apply (EncodeICalValue_UTC_injective exampleLocal newYear2024
           (Truncate_Second newYear2024));
    [reflexivity|reflexivity|year_in_range|year_in_range
    |vm_compute; reflexivity].
Defined.

Lemma DecodeICalValue_reencodes_witness :
  DateTime_DecodeICalValue exampleLocal {| t := zeroTime |} "20240101T000000Z"
  = (NewDateTime newYear2024, None)
  /\ String.length
       (fst (DateTime_EncodeICalValue exampleLocal (NewDateTime newYear2024)))
     = 16%nat
  /\ DateTime_EncodeICalParams exampleLocal exampleTZID (NewDateTime newYear2024)
     = (∅, None).
Proof.
  assert (H : DateTime_DecodeICalValue exampleLocal {| t := zeroTime |}
                "20240101T000000Z" = (NewDateTime newYear2024, None))
    by (vm_compute; reflexivity).
  split; [exact H|].
  destruct (DecodeICalValue_reencodes exampleLocal exampleTZID _ _ _ H)
    as (_ & Hlen & _ & Hp).
  split; [exact Hlen|exact Hp].
Defined.

Lemma DecodeICalValue_redecode_witness :
  DateTime_DecodeICalValue exampleLocal {| t := zeroTime |}
    "20240101T000000.5Z" = ({| t := halfSecondPast2024 |}, None)
  /\ DateTime_DecodeICalValue exampleLocal {| t := zeroTime |}
       (fst (DateTime_EncodeICalValue exampleLocal {| t := halfSecondPast2024 |}))
     = (NewDateTime halfSecondPast2024, None).
Proof.
  assert (H : DateTime_DecodeICalValue exampleLocal {| t := zeroTime |}
                "20240101T000000.5Z" = ({| t := halfSecondPast2024 |}, None))
    by (vm_compute; reflexivity).
  split; [exact H|].
  exact (DecodeICalValue_redecode exampleLocal _ _ {| t := zeroTime |} _ H).
Defined.

Lemma Validate_after_DecodeICalParams_witness :
  easternParams !! exampleTZID = Some "America/New_York"%string
  /\ DateTime_DecodeICalParams exampleLocal exampleZoneinfo exampleTZID
       {| t := halfPastOneUTC |} easternParams
     = (NewDateTime firstHalfPastOne, None)
  /\ DateTime_ValidateICalValue exampleLocal (NewDateTime firstHalfPastOne)
     = None.
Proof.
  assert (H1 : easternParams !! exampleTZID = Some "America/New_York"%string)
    by (vm_compute; reflexivity).
  assert (H2 : DateTime_DecodeICalParams exampleLocal exampleZoneinfo exampleTZID
                 {| t := halfPastOneUTC |} easternParams
               = (NewDateTime firstHalfPastOne, None))
    by (vm_compute; reflexivity).
  split; [exact H1|]. split; [exact H2|].
  apply (Validate_after_DecodeICalParams exampleLocal exampleZoneinfo
           exampleTZID _ _ _ _ H1 H2).
  discriminate.
Defined.

Lemma DecodeICalParams_frame_witness :
  exists e,
    DateTime_DecodeICalParams exampleLocal exampleZoneinfo exampleTZID
      (NewDateTime newYear2024) unknownZoneParams
    = (NewDateTime newYear2024, Some e)
    /\ (Some e <> None -> NewDateTime newYear2024 = NewDateTime newYear2024).
Proof.
  eexists. 
  assert (H : DateTime_DecodeICalParams exampleLocal exampleZoneinfo exampleTZID
                (NewDateTime newYear2024) unknownZoneParams
              = (NewDateTime newYear2024,
                 Some (NewError M_DateTime_DecodeICalValue
                         "unable to parse timezone"
                         (OfDateTime (NewDateTime newYear2024))
                         (Some (ErrorString "unknown time zone Mars/Olympus")))))
    by (vm_compute; reflexivity).
  split; [exact H|].
  exact (proj1 (proj2 (DecodeICalParams_frame exampleLocal exampleZoneinfo
                         exampleTZID _ _ _ _ H))).
Defined.

Lemma FullDay_text_decodes_to_UTC_midnight_witness :
  isUTC (Time_Location (t (NewDateTimeFullDay firstHalfPastOne))) = false
  /\ 0 <= fYear (Time_fields exampleLocal
                   (t (NewDateTimeFullDay firstHalfPastOne))) <= 9999
  /\ exists d',
       DateTime_DecodeICalValue exampleLocal {| t := zeroTime |}
         (fst (DateTimeFullDay_EncodeICalValue exampleLocal
                 (NewDateTimeFullDay firstHalfPastOne))) = (d', None)
       /\ Time_Location (t d') = UTC
       /\ Time_fields exampleLocal (t d')
          = dateOnly (Time_fields exampleLocal
                        (t (NewDateTimeFullDay firstHalfPastOne))).
Proof.
  split; [reflexivity|]. split; [year_in_range|].
  apply (FullDay_text_decodes_to_UTC_midnight exampleLocal
           (NewDateTimeFullDay firstHalfPastOne) {| t := zeroTime |});
    [reflexivity|year_in_range].
Defined.

Lemma FullDay_UTC_text_refused_witness :
  isUTC (Time_Location (t (NewDateTimeFullDay newYear2024))) = true
  /\ 0 <= fYear (Time_fields exampleLocal
                   (t (NewDateTimeFullDay newYear2024))) <= 9999
  /\ exists e,
       DateTime_DecodeICalValue exampleLocal {| t := zeroTime |}
         (fst (DateTimeFullDay_EncodeICalValue exampleLocal
                 (NewDateTimeFullDay newYear2024)))
       = ({| t := zeroTime |}, Some e).
Proof.
  split; [reflexivity|]. split; [year_in_range|].
  apply (FullDay_UTC_text_refused exampleLocal
           (NewDateTimeFullDay newYear2024) {| t := zeroTime |});
    [reflexivity|year_in_range].
Defined.

Lemma DateTimes_EncodeICalValue_joins_witness :
  Forall2 (fun p d => twoDaysHeap !! p = Some d) [O; 1%nat] twoDaysHeap
  /\ DateTimes_EncodeICalValue exampleLocal exampleCSV_Encode twoDaysHeap
       [O; 1%nat]
     = Some (twoDaysText, None).
Proof.
  assert (H : Forall2 (fun p d => twoDaysHeap !! p = Some d) [O; 1%nat]
                twoDaysHeap)
    by (repeat constructor).
  split; [exact H|].
  rewrite (DateTimes_EncodeICalValue_joins exampleLocal exampleCSV_Encode
             twoDaysHeap [O; 1%nat] twoDaysHeap H).
  vm_compute. reflexivity.
Defined.

Lemma DateTimes_DecodeICalValue_ok_witness :
  DateTimes_DecodeICalValue exampleLocal exampleCSV_Decode [] [] twoDaysText
  = (twoDaysHeap, [O; 1%nat], None)
  /\ exists toks,
       exampleCSV_Decode twoDaysText = (toks, None)
       /\ [O; 1%nat] = [] ++ seq O (length toks).
Proof.
  assert (H : DateTimes_DecodeICalValue exampleLocal exampleCSV_Decode [] []
                twoDaysText = (twoDaysHeap, [O; 1%nat], None))
    by (vm_compute; reflexivity).
  split; [exact H|].
  destruct (DateTimes_DecodeICalValue_ok exampleLocal exampleCSV_Decode
              _ _ _ _ _ H) as (toks & Hcsv & Hds & _).
  exists toks. split; [exact Hcsv|exact Hds].
Defined.

Lemma DateTimes_DecodeICalValue_well_formed_witness :
  Forall (fun p : nat => (p < length twoDaysHeap)%nat) [O; 1%nat]
  /\ NoDup [O; 1%nat]
  /\ DateTimes_DecodeICalValue exampleLocal exampleCSV_Decode twoDaysHeap
       [O; 1%nat] "20240103T000000Z,garbage"
     = (twoDaysHeap
          ++ [ {| t := {| unixSec := 1704240000; nsec := 0; loc := UTC |} |};
               {| t := zeroTime |} ],
        [O; 1%nat; 2%nat],
        Some (NewError M_DateTimes_DecodeICalValue
                "unable to decode datetime at index 1"
                (OfDateTimes [O; 1%nat; 2%nat])
                (snd (decodeNew exampleLocal "garbage"))))
  /\ NoDup [O; 1%nat; 2%nat].
Proof.
  assert (H1 : Forall (fun p : nat => (p < length twoDaysHeap)%nat) [O; 1%nat])
    by (repeat constructor).
  assert (H2 : NoDup [O; 1%nat]) by (exact (NoDup_seq 0 2)).
  assert (H3 : DateTimes_DecodeICalValue exampleLocal exampleCSV_Decode
                 twoDaysHeap [O; 1%nat] "20240103T000000Z,garbage"
               = (twoDaysHeap
                    ++ [ {| t := {| unixSec := 1704240000; nsec := 0;
                                    loc := UTC |} |};
                         {| t := zeroTime |} ],
                  [O; 1%nat; 2%nat],
                  Some (NewError M_DateTimes_DecodeICalValue
                          "unable to decode datetime at index 1"
                          (OfDateTimes [O; 1%nat; 2%nat])
                          (snd (decodeNew exampleLocal "garbage")))))
    by (vm_compute; reflexivity).
  split; [exact H1|]. split; [exact H2|]. split; [exact H3|].
  exact (proj1 (proj2 (DateTimes_DecodeICalValue_well_formed exampleLocal
                         exampleCSV_Decode _ _ _ _ _ _ H1 H2 H3))).
Defined.

Lemma DateTimes_DecodeICalParams_ok_witness :
  DateTimes_DecodeICalParams exampleLocal exampleZoneinfo exampleTZID
    [ {| t := halfPastOneUTC |} ] [O] easternParams
  = Some ([NewDateTime firstHalfPastOne], None)
  /\ forall r,
       paramsZone exampleZoneinfo exampleTZID easternParams = Some r ->
       forall q : nat, q ∈ [O] ->
         exists dq, [NewDateTime firstHalfPastOne] !! q = Some dq
                    /\ Time_Location (t dq) = r.
Proof.
  assert (H : DateTimes_DecodeICalParams exampleLocal exampleZoneinfo exampleTZID
                [ {| t := halfPastOneUTC |} ] [O] easternParams
              = Some ([NewDateTime firstHalfPastOne], None))
    by (vm_compute; reflexivity).
  split; [exact H|].
  exact (proj2 (proj2 (proj2 (DateTimes_DecodeICalParams_ok exampleLocal
                                exampleZoneinfo exampleTZID _ _ _ _ H)))).
Defined.

Lemma DateTimes_DecodeICalParams_returns_witness :
  Forall (fun p : nat => (p < length exampleHeap)%nat) [O; 1%nat]
  /\ exists h' e,
       DateTimes_DecodeICalParams exampleLocal exampleZoneinfo exampleTZID
         exampleHeap [O; 1%nat] easternParams = Some (h', e)
       /\ length h' = length exampleHeap.
Proof.
  assert (H : Forall (fun p : nat => (p < length exampleHeap)%nat) [O; 1%nat])
    by (repeat constructor).
  split; [exact H|].
  exact (DateTimes_DecodeICalParams_returns exampleLocal exampleZoneinfo
           exampleTZID exampleHeap [O; 1%nat] easternParams H).
Defined.

Lemma DateTimes_decoded_reencodes_witness :
  DateTimes_DecodeICalValue exampleLocal exampleCSV_Decode [] [] twoDaysText
  = (twoDaysHeap, [O; 1%nat], None)
  /\ DateTimes_EncodeICalParams exampleLocal exampleTZID twoDaysHeap [O; 1%nat]
     = Some (∅, None).
Proof.
  assert (H : DateTimes_DecodeICalValue exampleLocal exampleCSV_Decode [] []
                twoDaysText = (twoDaysHeap, [O; 1%nat], None))
    by (vm_compute; reflexivity).
  split; [exact H|].
  exact (proj1 (DateTimes_decoded_reencodes exampleLocal exampleTZID
                  exampleCSV_Decode exampleCSV_Encode _ _ _ _ H)).
Defined.

Lemma DateTimes_UTC_roundtrip_witness :
  Forall2 (fun p d => twoDaysHeap !! p = Some d) [O; 1%nat] twoDaysHeap
  /\ exampleCSV_Encode (map (valueText exampleLocal) twoDaysHeap)
     = (twoDaysText, None)
  /\ exampleCSV_Decode twoDaysText
     = (map (valueText exampleLocal) twoDaysHeap, None)
  /\ DateTimes_EncodeICalValue exampleLocal exampleCSV_Encode twoDaysHeap
       [O; 1%nat] = Some (twoDaysText, None)
  /\ DateTimes_DecodeICalValue exampleLocal exampleCSV_Decode [] [] twoDaysText
     = ([] ++ twoDaysHeap, seq (length (@nil DateTime)) (length twoDaysHeap),
        None).
Proof.
  assert (H1 : Forall2 (fun p d => twoDaysHeap !! p = Some d) [O; 1%nat]
                 twoDaysHeap)
    by (repeat constructor).
  assert (H2 : Forall (fun d => loc (t d) = UTC /\ nsec (t d) = 0
                        /\ 0 <= fYear (Time_fields exampleLocal (t d)) <= 9999)
                 twoDaysHeap).
  { repeat constructor; apply Z.leb_le; vm_compute; reflexivity. }
  assert (H3 : exampleCSV_Encode (map (valueText exampleLocal) twoDaysHeap)
               = (twoDaysText, None)) by (vm_compute; reflexivity).
  assert (H4 : exampleCSV_Decode twoDaysText
               = (map (valueText exampleLocal) twoDaysHeap, None))
    by (vm_compute; reflexivity).
  split; [exact H1|]. split; [exact H3|]. split; [exact H4|].
  exact (DateTimes_UTC_roundtrip exampleLocal exampleCSV_Decode
           exampleCSV_Encode twoDaysHeap [O; 1%nat] twoDaysHeap twoDaysText []
           H1 H2 H3 H4).
Defined.


Lemma DecodeICalValue_canonical_witness :
  DateTime_DecodeICalValue exampleLocal {| t := zeroTime |} "20241103T013000"
  = ({| t := halfPastOneUTC |}, None)
  /\ fst (DateTime_EncodeICalValue exampleLocal {| t := halfPastOneUTC |})
     = ("20241103T013000" +:+ "Z")%string.
Proof.
  assert (H : DateTime_DecodeICalValue exampleLocal {| t := zeroTime |}
                "20241103T013000" = ({| t := halfPastOneUTC |}, None))
    by (vm_compute; reflexivity).
  split; [exact H|].
  apply (DecodeICalValue_canonical exampleLocal _ _ _ H); reflexivity.
Defined.

Lemma DecodeICalValue_accepted_text_witness :
  DateTime_DecodeICalValue exampleLocal {| t := zeroTime |}
    "20240101T000000.5Z" = ({| t := halfSecondPast2024 |}, None)
  /\ exists frac,
       isFraction frac = true
       /\ nsec halfSecondPast2024 = fracNanos frac
       /\ "20240101T000000.5Z"%string
          = dateText (Time_fields exampleLocal halfSecondPast2024) +:+ "T"
            +:+ clockText (Time_fields exampleLocal halfSecondPast2024)
            +:+ frac +:+ "Z".
Proof.
  assert (H : DateTime_DecodeICalValue exampleLocal {| t := zeroTime |}
                "20240101T000000.5Z" = ({| t := halfSecondPast2024 |}, None))
    by (vm_compute; reflexivity).
  split; [exact H|].
  exact (DecodeICalValue_accepted_text exampleLocal _ _ _ H).
Defined.

(** ** The amended claims at concrete values *)

(** Which pass of a repeated hour comes back depends on the zone: in
    [exampleCentral], east of UTC, the first 02:30:00 of 2024-10-27 is
    decoded to the second one, an hour later, and the second one to
    itself. *)
Example zoned_roundtrip_east_example :
  let decode (v : DateTime) :=
    DateTime_DecodeICalParams exampleLocal centralZoneinfo exampleTZID
      (fst (DateTime_DecodeICalValue exampleLocal {| t := zeroTime |}
              (fst (DateTime_EncodeICalValue exampleLocal v))))
      (fst (DateTime_EncodeICalParams exampleLocal exampleTZID v)) in
  decode (NewDateTime firstHalfPastTwo) = (NewDateTime secondHalfPastTwo, None)
  /\ decode (NewDateTime secondHalfPastTwo)
     = (NewDateTime secondHalfPastTwo, None)
  /\ unixSec secondHalfPastTwo = unixSec firstHalfPastTwo + 3600.
Proof.
  cbv zeta. split; [vm_compute; reflexivity|].
  split; [vm_compute; reflexivity|reflexivity].
Qed.

Lemma DecodeICalValue_sniffing_witness :
  validFields midnight2024
  /\ isFraction ".5" = true
  /\ DateTime_DecodeICalValue exampleLocal {| t := zeroTime |}
       "20240101T000000.5Z" = ({| t := halfSecondPast2024 |}, None)
  /\ ~ acceptedText "not-a-date"
  /\ exists pe,
       DateTime_DecodeICalValue exampleLocal {| t := zeroTime |} "not-a-date"
       = ({| t := zeroTime |},
          Some (NewError M_DateTime_DecodeICalValue
                  "unable to parse datetime value"
                  (OfDateTime {| t := zeroTime |}) (Some (ParseErr pe))))
       /\ Value pe = "not-a-date"%string
       /\ Layout pe = DateTimeFormatString.
Proof.
  destruct (DecodeICalValue_sniffing exampleLocal {| t := zeroTime |})
    as (A1 & A2 & A3 & A4).
  assert (Hv : validFields midnight2024).
  { unfold validFields, midnight2024.
    cbn [fYear fMonth fDay fHour fMin fSec fNsec].
    replace (daysIn 1 2024) with 31 by reflexivity. lia. }
  assert (Hno : ~ acceptedText "not-a-date").
  { intros (f & frac & Hv' & Hfrac & Hsh).
    assert (Hfail : snd (DateTime_DecodeICalValue exampleLocal
                           {| t := zeroTime |} "not-a-date") <> None)
      by (vm_compute; discriminate).
    apply Hfail. destruct Hsh as [H | [H | H]]; rewrite H.
    - now rewrite (proj1 (A1 f frac Hv' Hfrac)).
    - now rewrite (proj1 (A2 f Hv')).
    - now rewrite (proj1 (A3 f frac Hv' Hfrac)). }
  split; [exact Hv|]. split; [reflexivity|].
  split; [exact (proj1 (A1 midnight2024 ".5"%string Hv eq_refl))|].
  split; [exact Hno|].
  exact (A4 "not-a-date"%string Hno).
Defined.

(** C2 as stated fails on the layout mismatch: the text
    "20240101T000000.5Z" ends in Z and has not the form of the UTC
    date-time layout, which has no fraction of a second, and
    [DecodeICalValue] decodes it, to half a second past midnight. *)
Lemma DecodeICalValue_sniffing_counterexample :
  HasSuffix "20240101T000000.5Z" "Z" = true
  /\ hasLayoutForm UTCDateTimeFormatString "20240101T000000.5Z" = false
  /\ DateTime_DecodeICalValue exampleLocal {| t := zeroTime |}
       "20240101T000000.5Z" = ({| t := halfSecondPast2024 |}, None).
Proof.
  split; [vm_compute; reflexivity|]. split; vm_compute; reflexivity.
Qed.

Lemma EncodeICalValue_total_witness :
  let text := fst (DateTime_EncodeICalValue exampleLocal
                     (NewDateTime newYear2024)) in
  0 <= fYear (Time_fields exampleLocal (t (NewDateTime newYear2024))) <= 9999
  /\ String.length text = 16%nat
  /\ hasLayoutForm UTCDateTimeFormatString text = true
  /\ digitsValue (take 4 text) 0 = 2024
  /\ digitsValue (take 2 (drop 13 text)) 0 = 0.
Proof.
  cbv zeta.
  assert (Hy : 0 <= fYear (Time_fields exampleLocal
                             (t (NewDateTime newYear2024))) <= 9999)
    by year_in_range.
  split; [exact Hy|].
  destruct (proj2 (proj2 (proj2 (EncodeICalValue_total exampleLocal
                                   (NewDateTime newYear2024)))) Hy)
    as (Hl & Hf & Vy & _ & _ & _ & _ & Vs).
  split; [exact Hl|]. split; [exact Hf|]. split; [exact Vy|exact Vs].
Defined.

(** C8 as stated fails after year 9999: the text of
    10000-01-01T00:00:00Z has 17 bytes, with five digits for the year,
    which is not the form YYYYMMDDTHHMMSSZ. *)
Lemma EncodeICalValue_total_counterexample :
  let v := NewDateTime newYear10000 in
  Time_Location (t v) = UTC
  /\ DateTime_EncodeICalValue exampleLocal v = ("100000101T000000Z"%string, None)
  /\ String.length (fst (DateTime_EncodeICalValue exampleLocal v)) = 17%nat
  /\ hasLayoutForm UTCDateTimeFormatString
       (fst (DateTime_EncodeICalValue exampleLocal v)) = false.
Proof.
  cbv zeta. split; [reflexivity|].
  split; [vm_compute; reflexivity|]. split; vm_compute; reflexivity.
Qed.

Lemma FullDay_EncodeICalValue_witness :
  let text := fst (DateTimeFullDay_EncodeICalValue exampleLocal
                     (NewDateTimeFullDay firstHalfPastOne)) in
  0 <= fYear (Time_fields exampleLocal
                (t (NewDateTimeFullDay firstHalfPastOne))) <= 9999
  /\ String.length text = 8%nat
  /\ hasLayoutForm DateFormatString text = true
  /\ digitsValue (take 4 text) 0 = 2024
  /\ digitsValue (take 2 (drop 4 text)) 0 = 11
  /\ digitsValue (take 2 (drop 6 text)) 0 = 3.
Proof.
  cbv zeta.
  assert (Hy : 0 <= fYear (Time_fields exampleLocal
                             (t (NewDateTimeFullDay firstHalfPastOne)))
               <= 9999)
    by year_in_range.
  split; [exact Hy|].
  destruct (proj2 (proj2 (FullDay_EncodeICalValue exampleLocal
                            (NewDateTimeFullDay firstHalfPastOne))) Hy)
    as (Hl & Hf & Vy & Vm & Vd).
  split; [exact Hl|]. split; [exact Hf|]. split; [exact Vy|].
  split; [exact Vm|exact Vd].
Defined.

(** C9 as stated fails after year 9999: the full-day text of
    10000-01-01 in UTC has 10 bytes, with five digits for the year, which
    is not the form YYYYMMDD followed by Z. *)
Lemma FullDay_EncodeICalValue_counterexample :
  let v := NewDateTimeFullDay newYear10000 in
  Time_Location (t v) = UTC
  /\ DateTimeFullDay_EncodeICalValue exampleLocal v
     = ("100000101Z"%string, None)
  /\ String.length (fst (DateTimeFullDay_EncodeICalValue exampleLocal v))
     = 10%nat
  /\ hasLayoutForm (DateFormatString +:+ "Z")
       (fst (DateTimeFullDay_EncodeICalValue exampleLocal v)) = false.
Proof.
  cbv zeta. split; [reflexivity|].
  split; [vm_compute; reflexivity|]. split; vm_compute; reflexivity.
Qed.
